(** * slack-jira-kba-bot: the conversation workflow and its collaborators

    A shallow embedding of
    - [src/services/jira.service.ts]   ([extractTicketKey],
      [isValidJiraUrl]),
    - [src/services/openai.service.ts] ([generateImages]),
    - [src/services/confluence.service.ts] ([generateConfluenceHTML],
      [escapeHTML], [uploadImages], [createKBAPage], [getPageUrl]),
    - [src/workflows/kba-generator.ts] (the [KBAGeneratorWorkflow] class),
    - [src/index.ts] (the listeners for messages, mentions and buttons),
    followed by the properties of the specification stated over it, and
    by further properties of the code.

    Modelling conventions.
    - JavaScript strings are [string]; the regular expressions of the ticket
      parser run over their characters ([list ascii]).
    - [Map<string, ConversationContext>] and [Record<string, string>] are
      [gmap string _]; [Object.keys(o).length] is [size].
    - Every call that leaves the process is recorded in a log (newest event
      first).  Calls whose result the code uses (ticket fetch, the three
      generation calls, the page creation, the image download and the
      attachment upload) are answered by an oracle of the environment, which
      may answer differently at every point of the log; an oracle may fail,
      which is a JavaScript exception carrying a message.
    - [chat.postMessage] is awaited by the workflow: a message is recorded
      in the log and answered by the chat, which may reject it; the rejection
      is an exception of the method that sends the message.  [Workflow] is
      the class over the answers of the chat; [KBAGeneratorWorkflow] is
      [Workflow] at the chat that delivers every message, and what is stated
      over it describes the course of a call whose messages are posted.
    - [files.uploadV2] is called inside a [try] that drops its failure: it
      is recorded in the log.  [say], [ack] and [chat.update] of the
      listeners are recorded in a list of their own and taken to return; the
      listeners are stated over the workflow at the delivering chat.
    - A public method of the workflow runs to completion before the next one
      starts (one event handler at a time). *)

From Stdlib Require Import Ascii String.
From stdpp Require Import gmap strings list pretty.

Open Scope string_scope.
Open Scope list_scope.

(** ** Ticket reference parser ([jira.service.ts]) *)

Module Regex.

(** The fragment of JavaScript regular expressions the parser uses: literal
    characters, a greedy [+] over a character class, and one capture
    group. *)
Inductive CharClass := UpperAZ | Digit.

Inductive Atom :=
| Lit (c : ascii)
| Plus (k : CharClass)
| GroupOpen
| GroupClose.

Definition in_class (k : CharClass) (c : ascii) : bool :=
  let n := nat_of_ascii c in
  match k with
  | UpperAZ => (65 <=? n)%nat && (n <=? 90)%nat
  | Digit => (48 <=? n)%nat && (n <=? 57)%nat
  end.

(** Characters consumed inside the group are pushed on the capture
    (kept in reverse). *)
Definition push (inside : bool) (c : ascii) (cap : list ascii) : list ascii :=
  if inside then c :: cap else cap.

(** Greedy [+]: consume one more character of the class, try to consume
    further, and fall back to the continuation when that fails. *)
Fixpoint plus_loop (k : CharClass) (inside : bool)
    (cont : list ascii → list ascii → option (list ascii))
    (cap s : list ascii) : option (list ascii) :=
  match s with
  | c :: s' =>
      if in_class k c then
        let cap' := push inside c cap in
        match plus_loop k inside cont cap' s' with
        | Some r => Some r
        | None => cont cap' s'
        end
      else None
  | [] => None
  end.

(** Backtracking match anchored at the head of [s]; the result is the
    text of capture group 1. *)
Fixpoint match_here (re : list Atom) (inside : bool)
    (cap s : list ascii) : option (list ascii) :=
  match re with
  | [] => Some (rev cap)
  | Lit c :: re' =>
      match s with
      | a :: s' =>
          if Ascii.eqb a c then match_here re' inside (push inside a cap) s'
          else None
      | [] => None
      end
  | Plus k :: re' => plus_loop k inside (match_here re' inside) cap s
  | GroupOpen :: re' => match_here re' true [] s
  | GroupClose :: re' => match_here re' false cap s
  end.

(** [String.prototype.match] without the [g] flag: the match that starts
    leftmost. *)
Fixpoint search (re : list Atom) (s : list ascii) : option (list ascii) :=
  match match_here re false [] s with
  | Some r => Some r
  | None =>
      match s with
      | [] => None
      | _ :: s' => search re s'
      end
  end.

End Regex.

Module JiraService.
Import Regex.

(** [/([A-Z]+-\d+)/] *)
Definition simple_key : list Atom :=
  [GroupOpen; Plus UpperAZ; Lit "-"; Plus Digit; GroupClose].

(** [/browse\/([A-Z]+-\d+)/] *)
Definition browse_url : list Atom :=
  (Lit <$> list_ascii_of_string "browse/") ++ simple_key.

Definition patterns : list (list Atom) := [simple_key; browse_url].

Fixpoint first_match (ps : list (list Atom)) (text : list ascii)
    : option (list ascii) :=
  match ps with
  | [] => None
  | p :: ps' =>
      match search p text with
      | Some m => Some m
      | None => first_match ps' text
      end
  end.

Definition extractTicketKey (text : string) : option string :=
  string_of_list_ascii <$> first_match patterns (list_ascii_of_string text).

End JiraService.

(** ** Data model ([types/index.ts]) *)

Module JiraComment.
Record t := mk { author : string; body : string; created : string }.
End JiraComment.

Module JiraTicket.
Record t := mk {
  key : string;
  summary : string;
  description : string;
  issueType : string;
  priority : string;
  status : string;
  assignee : option string;
  reporter : option string;
  created : string;
  updated : string;
  comments : option (list JiraComment.t);
  resolution : option string;
  customFields : option (gmap string string)
}.
End JiraTicket.

(** ['mac' | 'windows'], and ['mac' | 'windows' | 'both'] for a step. *)
Inductive ImageOs := mac | windows.
Inductive StepOs := only (os : ImageOs) | both.

Definition os_name (os : ImageOs) : string :=
  match os with mac => "mac" | windows => "windows" end.

Module KBAStep.
Record t := mk {
  stepNumber : Z;
  description : string;
  imagePrompt : option string;
  osType : option StepOs;
  codeSnippet : option string
}.
End KBAStep.

Module KBAContent.
Record t := mk {
  title : string;
  problem : string;
  solution : string;
  steps : list KBAStep.t;
  additionalNotes : option string;
  tags : list string
}.
End KBAContent.

Module GeneratedImage.
Record t := mk {
  stepNumber : Z;
  url : string;
  osType : ImageOs;
  prompt : string
}.
End GeneratedImage.

Module KBADraft.
Record t := mk {
  jiraTicket : JiraTicket.t;
  content : KBAContent.t;
  images : list GeneratedImage.t;
  confluencePageId : option string
}.
End KBADraft.

Inductive Stage :=
  initial | analyzing | asking_questions | generating | review | complete.

Global Instance Stage_eq_dec : EqDecision Stage.
Proof. solve_decision. Defined.

Module ConversationContext.
Record t := mk {
  threadTs : string;
  channel : string;
  userId : string;
  jiraTicket : option JiraTicket.t;
  kbaDraft : option KBADraft.t;
  stage : Stage;
  questionsAsked : list string;
  userAnswers : gmap string string
}.

(** Field assignments [context.f = v]. *)
Definition set_stage (v : Stage) (c : t) : t :=
  mk (threadTs c) (channel c) (userId c) (jiraTicket c) (kbaDraft c)
     v (questionsAsked c) (userAnswers c).
Definition set_questionsAsked (v : list string) (c : t) : t :=
  mk (threadTs c) (channel c) (userId c) (jiraTicket c) (kbaDraft c)
     (stage c) v (userAnswers c).
Definition set_userAnswers (v : gmap string string) (c : t) : t :=
  mk (threadTs c) (channel c) (userId c) (jiraTicket c) (kbaDraft c)
     (stage c) (questionsAsked c) v.
Definition set_kbaDraft (v : option KBADraft.t) (c : t) : t :=
  mk (threadTs c) (channel c) (userId c) (jiraTicket c) v
     (stage c) (questionsAsked c) (userAnswers c).
End ConversationContext.

(** JavaScript truthiness of an optional string: [undefined] and the empty
    string are falsy. *)
Definition truthy (o : option string) : bool :=
  match o with
  | Some (String _ _) => true
  | _ => false
  end.

Definition nl : string := String "010" EmptyString.
Definition dquote : string := String "034" EmptyString.

(** ** Outbound traffic *)

(** The chat messages of the workflow, one constructor per message template
    of [kba-generator.ts], carrying the interpolated values. *)
Inductive Message :=
| MsgAnalyzing
| MsgNoTicketKey
| MsgTicketFound (ticket : JiraTicket.t)
| MsgQuestions (questions : list string)
| MsgStartError (message : string)
| MsgAllAnswered
| MsgRemaining (remaining : nat)
| MsgGeneratingContent
| MsgGeneratingImages (count : nat)
| MsgGenerationError (message : string)
| MsgPreview (content : KBAContent.t) (imageCount : nat)
| MsgApprovalButtons (contextKey : string)
| MsgPublishing
| MsgPublished (pageUrl ticketKey : string)
| MsgPublishError (message : string)
| MsgDescribeChanges
| MsgCancelled.

(** The body of a [POST /content] request. *)
Module Page.
Record t := mk {
  title : string;
  spaceKey : string;
  body : string;
  labels : list string;
  ancestors : option string
}.
End Page.

Inductive Event :=
| PostMessage (channel threadTs : string) (m : Message)
| FilesUpload (channel threadTs : string) (image : GeneratedImage.t)
| GetTicket (ticketKey : string)
| GenerateClarifyingQuestions (ticket : JiraTicket.t)
| GenerateKBAContent (ticket : JiraTicket.t) (userAnswers : gmap string string)
| ImagesGenerate (stepNumber : Z) (os : ImageOs) (prompt : string)
| Delay (ms : N)
| PostContent (page : Page.t)
| Download (url : string)
| PostAttachment (pageId filename : string)
| SetTimeout (contextKey : string) (ms : N).

(** ** Exceptions, state and the environment *)

Inductive Result (A : Type) :=
| Ok (a : A)
| Err (message : string).
Arguments Ok {A} a.
Arguments Err {A} message.

(** The answers of the outside world; the first argument is the number of
    events logged before the call. *)
Record Env := {
  jiraHost : string;
  confluenceHost : string;
  spaceKey : string;
  parentPageId : string;
  jira_getTicket : nat → string → Result JiraTicket.t;
  openai_questions : nat → JiraTicket.t → Result (list string);
  openai_content : nat → JiraTicket.t → gmap string string → Result KBAContent.t;
  openai_image : nat → string → Result (option string);
  confluence_post_content : nat → Page.t → Result string;
  http_download : nat → string → Result string;
  confluence_post_attachment : nat → string → string → Result unit
}.

Record World := {
  contexts : gmap string ConversationContext.t;
  log : list Event
}.

(** Computations over a state [S] that may throw; the state reached when
    the exception is thrown is kept. *)
Definition M (S A : Type) : Type := S → Result A * S.

Definition ret {S A} (a : A) : M S A := λ s, (Ok a, s).
Definition throw {S A} (message : string) : M S A := λ s, (Err message, s).
Definition bind {S A B} (m : M S A) (k : A → M S B) : M S B :=
  λ s, match m s with
       | (Ok a, s') => k a s'
       | (Err e, s') => (Err e, s')
       end.
Definition try_catch {S A} (m : M S A) (handler : string → M S A) : M S A :=
  λ s, match m s with
       | (Ok a, s') => (Ok a, s')
       | (Err e, s') => handler e s'
       end.

Notation "'let*' x ':=' m 'in' k" := (bind m (λ x, k))
  (at level 10, x name, m at level 100, k at level 200).
Notation "m ';;' k" := (bind m (λ _, k))
  (at level 100, k at level 200, right associativity).

(** [for (const x of l) body] *)
Fixpoint for_each {S A} (l : list A) (body : A → M S unit) : M S unit :=
  match l with
  | [] => ret tt
  | x :: l' => body x ;; for_each l' body
  end.

(** A block with a local mutable variable (an array the block pushes on). *)
Definition with_local {S L A} (init : L) (m : M (S * L) A) : M S A :=
  λ s, match m (s, init) with (r, (s', _)) => (r, s') end.
Definition lift {S L A} (m : M S A) : M (S * L) A :=
  λ sl, match m sl.1 with (r, s') => (r, (s', sl.2)) end.
Definition get_local {S L} : M (S * L) L := λ sl, (Ok sl.2, sl).
Definition modify_local {S L} (f : L → L) : M (S * L) unit :=
  λ sl, (Ok tt, (sl.1, f sl.2)).

Definition now (w : World) : nat := length (log w).

(** A call whose result is not used. *)
Definition emit (e : Event) : M World unit :=
  λ w, (Ok tt, {| contexts := contexts w; log := e :: log w |}).

(** A call answered by the environment. *)
Definition external {A} (e : Event) (oracle : nat → Result A) : M World A :=
  λ w, (oracle (now w), {| contexts := contexts w; log := e :: log w |}).

(** ** Image generation ([openai.service.ts]) *)

Module OpenAIService.
Section WithEnv.
Context (env : Env).

Definition osStyles (osType : ImageOs) : string :=
  match osType with
  | mac => "macOS style interface with rounded corners, San Francisco font, light gray header with red/yellow/green traffic light buttons on the left, clean modern aesthetic"
  | windows => "Windows 11 style interface with rounded corners, Segoe UI font, white title bar with minimize/maximize/close buttons on the right, modern Fluent Design aesthetic"
  end.

Definition enhanceImagePrompt (basePrompt : string) (osType : ImageOs) : string :=
  basePrompt +:+ nl +:+ nl +:+ "Style: " +:+ osStyles osType +:+
  ". Photorealistic computer interface mockup, high quality, clean and professional appearance. No text unless absolutely necessary for UI clarity.".

(** [this.client.images.generate(...)]; the answer is [response.data[0].url]. *)
Definition images_generate (stepNumber : Z) (os : ImageOs) (prompt : string)
    : M World (option string) :=
  external (ImagesGenerate stepNumber os prompt) (λ t, openai_image env t prompt).

Definition generateKBAContent (ticket : JiraTicket.t)
    (userAnswers : gmap string string) : M World KBAContent.t :=
  external (GenerateKBAContent ticket userAnswers)
           (λ t, openai_content env t ticket userAnswers).

Definition generateClarifyingQuestions (ticket : JiraTicket.t)
    : M World (list string) :=
  external (GenerateClarifyingQuestions ticket) (λ t, openai_questions env t ticket).

(** The body of the loop over the steps in [generateImages]; [images] is
    the local array. *)
Definition renderStep (step : KBAStep.t) : M (World * list GeneratedImage.t) unit :=
  match KBAStep.imagePrompt step, KBAStep.osType step with
  | Some imagePrompt, Some osType =>
      if truthy (Some imagePrompt) then
        try_catch (
          let osTypes :=
            match osType with both => [mac; windows] | only os => [os] end in
          for_each osTypes (λ os,
            let enhancedPrompt := enhanceImagePrompt imagePrompt os in
            let* response :=
              lift (images_generate (KBAStep.stepNumber step) os enhancedPrompt) in
            match response with
            | Some (String _ _ as url) =>
                modify_local (λ images, images ++
                  [GeneratedImage.mk (KBAStep.stepNumber step) url os enhancedPrompt])
            | _ => ret tt
            end) ;;
          lift (emit (Delay 1000%N)))
        (λ error, ret tt)
      else ret tt
  | _, _ => ret tt
  end.

Definition generateImages (content : KBAContent.t)
    : M World (list GeneratedImage.t) :=
  with_local ([] : list GeneratedImage.t) (
    for_each (KBAContent.steps content) renderStep ;;
    get_local).

End WithEnv.
End OpenAIService.

(** ** Publishing ([confluence.service.ts]) *)

Module ConfluenceService.
Section WithEnv.
Context (env : Env).

(** [text.replace(/c/g, by)] for a single character [c]. *)
Fixpoint replaceAll (c : ascii) (by_ : string) (text : string) : string :=
  match text with
  | EmptyString => EmptyString
  | String a rest =>
      if Ascii.eqb a c then by_ +:+ replaceAll c by_ rest
      else String a (replaceAll c by_ rest)
  end.

Definition escapeHTML (text : string) : string :=
  replaceAll "010" "<br/>"
    (replaceAll "'" "&#39;"
      (replaceAll "034" "&quot;"
        (replaceAll ">" "&gt;"
          (replaceAll "<" "&lt;"
            (replaceAll "&" "&amp;" text))))).

(** The attachment file name of an image, as [uploadImages] builds it. *)
Definition attachmentFilename (image : GeneratedImage.t) : string :=
  "step-" +:+ pretty (GeneratedImage.stepNumber image) +:+ "-" +:+
  os_name (GeneratedImage.osType image) +:+ ".png".

(** One piece appended to the page body; a reference to an attachment is
    kept apart from the surrounding text. *)
Inductive Fragment :=
| Html (text : string)
| AttachmentImage (filename : string).

Definition render (f : Fragment) : string :=
  match f with
  | Html text => text
  | AttachmentImage filename =>
      "<p><ac:image><ri:attachment ri:filename=" +:+ dquote +:+ filename +:+
      dquote +:+ " /></ac:image></p>" +:+ nl
  end.

Definition stepImagesMarkup (step : KBAStep.t) (images : list GeneratedImage.t)
    : list Fragment :=
  let stepImages :=
    filter (λ img, GeneratedImage.stepNumber img = KBAStep.stepNumber step) images in
  stepImages ≫= λ image,
    [ Html ("<p><strong>" +:+
            match GeneratedImage.osType image with
            | mac => "macOS" | windows => "Windows" end +:+
            ":</strong></p>" +:+ nl);
      AttachmentImage ("step-" +:+ pretty (KBAStep.stepNumber step) +:+ "-" +:+
                       os_name (GeneratedImage.osType image) +:+ ".png") ].

Definition stepMarkup (images : list GeneratedImage.t) (step : KBAStep.t)
    : list Fragment :=
  [ Html ("<h3>Step " +:+ pretty (KBAStep.stepNumber step) +:+ "</h3>" +:+ nl);
    Html ("<p>" +:+ escapeHTML (KBAStep.description step) +:+ "</p>" +:+ nl) ] ++
  match KBAStep.codeSnippet step with
  | Some (String _ _ as codeSnippet) =>
      [ Html ("<ac:structured-macro ac:name=" +:+ dquote +:+ "code" +:+ dquote +:+ ">");
        Html ("<ac:plain-text-body><![CDATA[" +:+ codeSnippet +:+
              "]]></ac:plain-text-body>");
        Html ("</ac:structured-macro>" +:+ nl) ]
  | _ => []
  end ++
  stepImagesMarkup step images.

Definition generateConfluenceMarkup (content : KBAContent.t)
    (images : list GeneratedImage.t) (jiraKey : string) : list Fragment :=
  [ Html ("<p><strong>Related Jira Ticket:</strong> <a href=" +:+ dquote +:+
          jiraHost env +:+ "/browse/" +:+ jiraKey +:+ dquote +:+ ">" +:+
          jiraKey +:+ "</a></p>" +:+ nl);
    Html ("<h2>Problem</h2>" +:+ nl +:+ "<p>" +:+
          escapeHTML (KBAContent.problem content) +:+ "</p>" +:+ nl);
    Html ("<h2>Solution</h2>" +:+ nl +:+ "<p>" +:+
          escapeHTML (KBAContent.solution content) +:+ "</p>" +:+ nl);
    Html ("<h2>Step-by-Step Instructions</h2>" +:+ nl) ] ++
  (KBAContent.steps content ≫= stepMarkup images) ++
  match KBAContent.additionalNotes content with
  | Some (String _ _ as additionalNotes) =>
      [ Html ("<h2>Additional Notes</h2>" +:+ nl +:+ "<p>" +:+
              escapeHTML additionalNotes +:+ "</p>" +:+ nl) ]
  | _ => []
  end ++
  [ Html ("<p><strong>Tags:</strong> " +:+
          String.concat ", " (KBAContent.tags content) +:+ "</p>" +:+ nl) ].

Definition generateConfluenceHTML (content : KBAContent.t)
    (images : list GeneratedImage.t) (jiraKey : string) : string :=
  String.concat EmptyString (render <$> generateConfluenceMarkup content images jiraKey).

(** The attachment file names a page body refers to. *)
Definition referencedFilenames (markup : list Fragment) : list string :=
  markup ≫= λ f, match f with AttachmentImage filename => [filename] | Html _ => [] end.

(** The body of the loop in [uploadImages]. *)
Definition uploadImage (pageId : string) (image : GeneratedImage.t) : M World unit :=
  try_catch (
    let* imageResponse :=
      external (Download (GeneratedImage.url image))
               (λ t, http_download env t (GeneratedImage.url image)) in
    let filename := attachmentFilename image in
    external (PostAttachment pageId filename)
             (λ t, confluence_post_attachment env t pageId filename))
  (λ error, ret tt).

Definition uploadImages (pageId : string) (images : list GeneratedImage.t)
    : M World unit :=
  for_each images (uploadImage pageId).

(** The [page] object [createKBAPage] posts. *)
Definition kbaPage (content : KBAContent.t)
    (images : list GeneratedImage.t) (jiraKey : string) : Page.t :=
  let pageContent := generateConfluenceHTML content images jiraKey in
  Page.mk (KBAContent.title content) (spaceKey env) pageContent
          (KBAContent.tags content)
          (if truthy (Some (parentPageId env)) then Some (parentPageId env)
           else None).

Definition createKBAPage (content : KBAContent.t)
    (images : list GeneratedImage.t) (jiraKey : string) : M World string :=
  let page := kbaPage content images jiraKey in
  try_catch (
    let* pageId := external (PostContent page)
                            (λ t, confluence_post_content env t page) in
    let pageUrl := confluenceHost env +:+ "/wiki/spaces/" +:+ spaceKey env +:+
                   "/pages/" +:+ pageId in
    uploadImages pageId images ;;
    ret pageUrl)
  (λ error, throw ("Failed to create Confluence page: " +:+ error)).

End WithEnv.
End ConfluenceService.

(** ** The conversation workflow ([kba-generator.ts]) *)

(** The answers of [chat.postMessage]; the first argument is the number of
    events logged before the call. *)
Definition Chat : Type := nat → string → string → Message → Result unit.

(** The chat that delivers every message, and the chats that do. *)
Definition delivering : Chat := λ _ _ _ _, Ok tt.

Definition delivers (chat : Chat) : Prop :=
  ∀ t channel threadTs m, chat t channel threadTs m = Ok tt.

(** The class [KBAGeneratorWorkflow], over the answers of the chat. *)
Module Workflow.
Section WithEnv.
Context (env : Env) (chat : Chat).

(** The text of each chat message. *)
Definition previewText (content : KBAContent.t) (imageCount : nat) : string :=
  ":page_facing_up: *KBA Preview*" +:+ nl +:+ nl +:+
  "*Title:* " +:+ KBAContent.title content +:+ nl +:+ nl +:+
  "*Problem:*" +:+ nl +:+ KBAContent.problem content +:+ nl +:+ nl +:+
  "*Solution:*" +:+ nl +:+ KBAContent.solution content +:+ nl +:+ nl +:+
  "*Steps:*" +:+ nl +:+
  String.concat EmptyString
    ((λ step,
        pretty (KBAStep.stepNumber step) +:+ ". " +:+
        KBAStep.description step +:+ nl +:+
        match KBAStep.codeSnippet step with
        | Some (String _ _ as codeSnippet) =>
            "```" +:+ nl +:+ codeSnippet +:+ nl +:+ "```" +:+ nl
        | _ => EmptyString
        end) <$> KBAContent.steps content) +:+
  match KBAContent.additionalNotes content with
  | Some (String _ _ as additionalNotes) =>
      nl +:+ "*Additional Notes:*" +:+ nl +:+ additionalNotes +:+ nl
  | _ => EmptyString
  end +:+
  nl +:+ "*Tags:* " +:+ String.concat ", " (KBAContent.tags content) +:+ nl +:+
  nl +:+ "*Generated Images:* " +:+ pretty imageCount +:+
  " screenshot mockup(s)" +:+ nl.

Definition message_text (m : Message) : string :=
  match m with
  | MsgAnalyzing => ":mag: Analyzing Jira ticket..."
  | MsgNoTicketKey =>
      ":x: Could not extract Jira ticket key from the URL. Please provide a valid Jira ticket URL."
  | MsgTicketFound ticket =>
      ":white_check_mark: Found ticket: *" +:+ JiraTicket.key ticket +:+ " - " +:+
      JiraTicket.summary ticket +:+ "*" +:+ nl +:+ nl +:+
      "Status: " +:+ JiraTicket.status ticket +:+ nl +:+
      "Priority: " +:+ JiraTicket.priority ticket +:+ nl +:+ nl +:+
      ":brain: Analyzing ticket to determine what additional information is needed..."
  | MsgQuestions questions =>
      ":question: I need some additional information to create a comprehensive KBA:" +:+
      nl +:+ nl +:+
      String.concat nl (imap (λ i q, pretty (i + 1)%nat +:+ ". " +:+ q) questions) +:+
      nl +:+ nl +:+
      "Please answer these questions (you can answer them in one message or separately)."
  | MsgStartError message => ":x: Error: " +:+ message
  | MsgAllAnswered =>
      ":white_check_mark: Thank you! I have all the information I need." +:+ nl +:+ nl +:+
      ":robot_face: Generating KBA content..."
  | MsgRemaining remaining =>
      ":white_check_mark: Got it! " +:+ pretty remaining +:+ " more question(s) remaining."
  | MsgGeneratingContent => ":pencil: Generating KBA content..."
  | MsgGeneratingImages count =>
      ":art: Generating " +:+ pretty count +:+
      " screenshot mockup(s)... This may take a minute."
  | MsgGenerationError message => ":x: Error generating KBA: " +:+ message
  | MsgPreview content imageCount => previewText content imageCount
  | MsgApprovalButtons _ =>
      ":white_check_mark: KBA generated! Please review the content and images above."
  | MsgPublishing => ":rocket: Publishing KBA to Confluence..."
  | MsgPublished pageUrl ticketKey =>
      ":white_check_mark: *KBA successfully published!*" +:+ nl +:+ nl +:+
      "View it here: " +:+ pageUrl +:+ nl +:+ nl +:+
      "Jira Ticket: " +:+ jiraHost env +:+ "/browse/" +:+ ticketKey
  | MsgPublishError message => ":x: Error publishing to Confluence: " +:+ message
  | MsgDescribeChanges =>
      ":pencil: Please describe what changes you'd like me to make to the KBA."
  | MsgCancelled => ":x: KBA generation cancelled."
  end.

(** [this.contexts.get], [.set], [.delete]. *)
Definition getContext (contextKey : string)
    : M World (option ConversationContext.t) :=
  λ w, (Ok (contexts w !! contextKey), w).
Definition setContext (contextKey : string) (context : ConversationContext.t)
    : M World unit :=
  λ w, (Ok tt, {| contexts := <[contextKey := context]> (contexts w); log := log w |}).
Definition deleteContext (contextKey : string) : M World unit :=
  λ w, (Ok tt, {| contexts := delete contextKey (contexts w); log := log w |}).

(** [chat.postMessage] is awaited: a message the chat rejects is an
    exception of the method that sends it. *)
Definition sendMessage (channel threadTs : string) (m : Message) : M World unit :=
  external (PostMessage channel threadTs m) (λ t, chat t channel threadTs m).

(** [this.jiraService.getTicket(ticketKey)] *)
Definition getTicket (ticketKey : string) : M World JiraTicket.t :=
  external (GetTicket ticketKey) (λ t, jira_getTicket env t ticketKey).

(** The body of the loop over the images in [showPreview]: the upload is
    made inside a [try] whose handler only logs, so its failure changes
    nothing. *)
Definition uploadPreview (channel threadTs : string) (image : GeneratedImage.t)
    : M World unit :=
  try_catch (emit (FilesUpload channel threadTs image)) (λ error, ret tt).

(** The message with the buttons is posted by [chat.postMessage] like the
    others, outside any [try]. *)
Definition showPreview (contextKey : string) : M World unit :=
  let* c := getContext contextKey in
  match c with
  | None => ret tt
  | Some context =>
      match ConversationContext.kbaDraft context with
      | None => ret tt
      | Some kbaDraft =>
          let channel := ConversationContext.channel context in
          let threadTs := ConversationContext.threadTs context in
          let content := KBADraft.content kbaDraft in
          let images := KBADraft.images kbaDraft in
          sendMessage channel threadTs (MsgPreview content (length images)) ;;
          for_each images (uploadPreview channel threadTs) ;;
          sendMessage channel threadTs (MsgApprovalButtons contextKey)
      end
  end.

Definition generateKBA (contextKey : string) : M World unit :=
  let* c := getContext contextKey in
  match c with
  | None => ret tt
  | Some context =>
      match ConversationContext.jiraTicket context with
      | None => ret tt
      | Some jiraTicket =>
          try_catch (
            let context := ConversationContext.set_stage generating context in
            setContext contextKey context ;;
            let channel := ConversationContext.channel context in
            let threadTs := ConversationContext.threadTs context in
            let userAnswers := ConversationContext.userAnswers context in
            sendMessage channel threadTs MsgGeneratingContent ;;
            let* content := OpenAIService.generateKBAContent env jiraTicket userAnswers in
            let stepsWithImages :=
              filter (λ s, truthy (KBAStep.imagePrompt s) = true)
                     (KBAContent.steps content) in
            let* images :=
              if (0 <? length stepsWithImages)%nat then
                sendMessage channel threadTs
                            (MsgGeneratingImages (length stepsWithImages)) ;;
                OpenAIService.generateImages env content
              else ret [] in
            let context :=
              ConversationContext.set_kbaDraft
                (Some (KBADraft.mk jiraTicket content images None)) context in
            let context := ConversationContext.set_stage review context in
            setContext contextKey context ;;
            showPreview contextKey)
          (λ error,
            sendMessage (ConversationContext.channel context)
                        (ConversationContext.threadTs context)
                        (MsgGenerationError error) ;;
            deleteContext contextKey)
      end
  end.

(** [extractTicketKey] answers [null] or a non-empty key, so [!ticketKey]
    is the [None] case. *)
Definition startWorkflow (channel threadTs userId jiraUrl : string) : M World unit :=
  let contextKey := channel +:+ "-" +:+ threadTs in
  try_catch (
    sendMessage channel threadTs MsgAnalyzing ;;
    match JiraService.extractTicketKey jiraUrl with
    | None => sendMessage channel threadTs MsgNoTicketKey
    | Some ticketKey =>
        let* ticket := getTicket ticketKey in
        let context :=
          ConversationContext.mk threadTs channel userId (Some ticket) None
                                 analyzing [] ∅ in
        setContext contextKey context ;;
        sendMessage channel threadTs (MsgTicketFound ticket) ;;
        let* questions := OpenAIService.generateClarifyingQuestions env ticket in
        let context := ConversationContext.set_questionsAsked questions context in
        let context := ConversationContext.set_stage asking_questions context in
        setContext contextKey context ;;
        if (length questions =? 0)%nat then generateKBA contextKey
        else sendMessage channel threadTs (MsgQuestions questions)
    end)
  (λ error,
    sendMessage channel threadTs (MsgStartError error) ;;
    deleteContext contextKey).

Definition handleAnswer (channel threadTs userId answer : string) : M World unit :=
  let contextKey := channel +:+ "-" +:+ threadTs in
  let* c := getContext contextKey in
  match c with
  | None => ret tt
  | Some context =>
      if decide (ConversationContext.stage context ≠ asking_questions) then ret tt
      else
        let answerKey :=
          "answer_" +:+ pretty (size (ConversationContext.userAnswers context) + 1)%nat in
        let context :=
          ConversationContext.set_userAnswers
            (<[answerKey := answer]> (ConversationContext.userAnswers context))
            context in
        setContext contextKey context ;;
        if (length (ConversationContext.questionsAsked context) <=?
            size (ConversationContext.userAnswers context))%nat
        then
          sendMessage channel threadTs MsgAllAnswered ;;
          generateKBA contextKey
        else
          let remaining :=
            (length (ConversationContext.questionsAsked context) -
             size (ConversationContext.userAnswers context))%nat in
          sendMessage channel threadTs (MsgRemaining remaining)
  end.

Definition approveAndPublish (contextKey userId : string) : M World unit :=
  let* c := getContext contextKey in
  match c with
  | None => ret tt
  | Some context =>
      match ConversationContext.kbaDraft context with
      | None => ret tt
      | Some kbaDraft =>
          let channel := ConversationContext.channel context in
          let threadTs := ConversationContext.threadTs context in
          try_catch (
            sendMessage channel threadTs MsgPublishing ;;
            let* ticketKey :=
              match ConversationContext.jiraTicket context with
              | Some jiraTicket => ret (JiraTicket.key jiraTicket)
              | None => throw "Cannot read properties of undefined (reading 'key')"
              end in
            let* pageUrl :=
              ConfluenceService.createKBAPage env (KBADraft.content kbaDraft)
                                              (KBADraft.images kbaDraft) ticketKey in
            let context := ConversationContext.set_stage complete context in
            setContext contextKey context ;;
            sendMessage channel threadTs (MsgPublished pageUrl ticketKey) ;;
            emit (SetTimeout contextKey 60000%N))
          (λ error, sendMessage channel threadTs (MsgPublishError error))
      end
  end.

(** The callback of the timer set on publication. *)
Definition cleanup (contextKey : string) : M World unit :=
  deleteContext contextKey.

Definition requestChanges (contextKey : string) : M World unit :=
  let* c := getContext contextKey in
  match c with
  | None => ret tt
  | Some context =>
      sendMessage (ConversationContext.channel context)
                  (ConversationContext.threadTs context) MsgDescribeChanges ;;
      let context := ConversationContext.set_stage asking_questions context in
      setContext contextKey context
  end.

Definition cancelKBA (contextKey : string) : M World unit :=
  let* c := getContext contextKey in
  match c with
  | None => ret tt
  | Some context =>
      sendMessage (ConversationContext.channel context)
                  (ConversationContext.threadTs context) MsgCancelled ;;
      deleteContext contextKey
  end.

End WithEnv.
End Workflow.

(** The workflow when the chat delivers every message: the methods of
    [Workflow] at [delivering].  What is stated over this module describes
    the course of a call whose messages are posted. *)
Module KBAGeneratorWorkflow.
Section WithEnv.
Context (env : Env).

Definition getContext (contextKey : string)
    : M World (option ConversationContext.t) :=
  Workflow.getContext contextKey.
Definition setContext (contextKey : string) (context : ConversationContext.t)
    : M World unit :=
  Workflow.setContext contextKey context.
Definition deleteContext (contextKey : string) : M World unit :=
  Workflow.deleteContext contextKey.

Definition sendMessage (channel threadTs : string) (m : Message) : M World unit :=
  Workflow.sendMessage delivering channel threadTs m.

Definition getTicket (ticketKey : string) : M World JiraTicket.t :=
  Workflow.getTicket env ticketKey.

Definition uploadPreview (channel threadTs : string) (image : GeneratedImage.t)
    : M World unit :=
  Workflow.uploadPreview channel threadTs image.

Definition showPreview (contextKey : string) : M World unit :=
  Workflow.showPreview delivering contextKey.

Definition generateKBA (contextKey : string) : M World unit :=
  Workflow.generateKBA env delivering contextKey.

Definition startWorkflow (channel threadTs userId jiraUrl : string) : M World unit :=
  Workflow.startWorkflow env delivering channel threadTs userId jiraUrl.

Definition handleAnswer (channel threadTs userId answer : string) : M World unit :=
  Workflow.handleAnswer env delivering channel threadTs userId answer.

Definition approveAndPublish (contextKey userId : string) : M World unit :=
  Workflow.approveAndPublish env delivering contextKey userId.

Definition cleanup (contextKey : string) : M World unit :=
  Workflow.cleanup contextKey.

Definition requestChanges (contextKey : string) : M World unit :=
  Workflow.requestChanges delivering contextKey.

Definition cancelKBA (contextKey : string) : M World unit :=
  Workflow.cancelKBA delivering contextKey.

End WithEnv.
End KBAGeneratorWorkflow.

(** ** Vocabulary of the specification *)

Module Spec.
Import Regex.

(** The longest prefix of [s] made of characters of class [k]. *)
Fixpoint run (k : CharClass) (s : list ascii) : list ascii :=
  match s with
  | c :: s' => if in_class k c then c :: run k s' else []
  | [] => []
  end.

(** A ticket key: upper-case letters, a dash, digits. *)
Definition ticket_chars (k : list ascii) : Prop :=
  ∃ letters digits,
    k = letters ++ "-"%char :: digits ∧ letters ≠ [] ∧ digits ≠ [] ∧
    Forall (λ c, in_class UpperAZ c = true) letters ∧
    Forall (λ c, in_class Digit c = true) digits.

Definition ticket_pattern (k : string) : Prop :=
  ticket_chars (list_ascii_of_string k).

(** What a greedy match of [[A-Z]+-\d+] at the head of [s] consumes. *)
Definition match_key (s : list ascii) : option (list ascii) :=
  let letters := run UpperAZ s in
  match letters, drop (length letters) s with
  | _ :: _, dash :: rest =>
      if Ascii.eqb dash "-" then
        match run Digit rest with
        | [] => None
        | digits => Some (letters ++ dash :: digits)
        end
      else None
  | _, _ => None
  end.

End Spec.

(** ** Running the workflow *)

Definition exec {A} (m : M World A) (w : World) : World := (m w).2.

Definition empty_world : World := {| contexts := ∅; log := [] |}.

(** The entry points of the workflow: its public methods and the timer
    callback. *)
Inductive Op :=
| OpStart (channel threadTs userId jiraUrl : string)
| OpAnswer (channel threadTs userId answer : string)
| OpApprove (contextKey userId : string)
| OpRequestChanges (contextKey : string)
| OpCancel (contextKey : string)
| OpCleanup (contextKey : string).

Definition run_op (env : Env) (op : Op) : M World unit :=
  match op with
  | OpStart channel threadTs userId jiraUrl =>
      KBAGeneratorWorkflow.startWorkflow env channel threadTs userId jiraUrl
  | OpAnswer channel threadTs userId answer =>
      KBAGeneratorWorkflow.handleAnswer env channel threadTs userId answer
  | OpApprove contextKey userId =>
      KBAGeneratorWorkflow.approveAndPublish env contextKey userId
  | OpRequestChanges contextKey => KBAGeneratorWorkflow.requestChanges contextKey
  | OpCancel contextKey => KBAGeneratorWorkflow.cancelKBA contextKey
  | OpCleanup contextKey => KBAGeneratorWorkflow.cleanup contextKey
  end.

Fixpoint run_ops (env : Env) (ops : list Op) (w : World) : World :=
  match ops with
  | [] => w
  | op :: ops' => run_ops env ops' (exec (run_op env op) w)
  end.

(** Answer messages arriving one after the other in a thread. *)
Definition submitAnswers (env : Env) (channel threadTs userId : string)
    (answers : list string) : World → World :=
  run_ops env (OpAnswer channel threadTs userId <$> answers).

Definition is_generation (e : Event) : bool :=
  match e with GenerateKBAContent _ _ => true | _ => false end.

Definition is_render (e : Event) : bool :=
  match e with ImagesGenerate _ _ _ => true | _ => false end.

Definition is_post (e : Event) : bool :=
  match e with PostMessage _ _ _ => true | _ => false end.

(** What is sent out between the answer of content generation and the end
    of the review preview. *)
Definition is_draft_traffic (e : Event) : bool :=
  match e with
  | ImagesGenerate _ _ _ | Delay _ | FilesUpload _ _ _
  | PostMessage _ _ (MsgGeneratingImages _)
  | PostMessage _ _ (MsgPreview _ _)
  | PostMessage _ _ (MsgApprovalButtons _) => true
  | _ => false
  end.

(** The world after more events were logged. *)
Definition extend (w : World) (events : list Event) : World :=
  {| contexts := contexts w; log := events ++ log w |}.

(** How often content generation was requested. *)
Definition generation_calls (l : list Event) : nat :=
  length (filter (λ e, is_generation e = true) l).

(** No two render requests follow each other without an event in between. *)
Fixpoint paced (l : list Event) : bool :=
  match l with
  | [] => true
  | e :: rest =>
      match rest with
      | e' :: _ => negb (is_render e && is_render e') && paced rest
      | [] => true
      end
  end.

(** The answer slots filled so far are [answer_1 .. answer_n]. *)
Definition answer_slots (userAnswers : gmap string string) : Prop :=
  ∀ i : nat, (size userAnswers < i)%nat →
             userAnswers !! ("answer_" +:+ pretty i) = None.

(** The bound of the data model on one context, and on all of them. *)
Definition answers_within_questions (context : ConversationContext.t) : Prop :=
  (size (ConversationContext.userAnswers context) ≤
   length (ConversationContext.questionsAsked context))%nat.

Definition answers_bounded (w : World) : Prop :=
  ∀ contextKey context,
    contexts w !! contextKey = Some context →
    ConversationContext.stage context = asking_questions →
    answers_within_questions context.

(** Every stored context carries its ticket, and the bound holds. *)
Definition workflow_invariant (w : World) : Prop :=
  (∀ contextKey context,
     contexts w !! contextKey = Some context →
     is_Some (ConversationContext.jiraTicket context)) ∧
  answers_bounded w.

(** The context [startWorkflow] stores once the questions are known. *)
Definition asking (channel threadTs userId : string) (ticket : JiraTicket.t)
    (questions : list string) : ConversationContext.t :=
  ConversationContext.mk threadTs channel userId (Some ticket) None
                         asking_questions questions ∅.

(** The ways in which [startWorkflow] can fail, with the answers of the
    collaborators that make it so. *)
Inductive StartFailure :=
| ParseFailure
| FetchFailure (ticketKey message : string)
| QuestionsFailure (ticketKey : string) (ticket : JiraTicket.t) (message : string)
| GenerationFailure (ticketKey : string) (ticket : JiraTicket.t) (message : string).

Definition start_fails (env : Env) (w : World) (jiraUrl : string)
    (f : StartFailure) : Prop :=
  match f with
  | ParseFailure => JiraService.extractTicketKey jiraUrl = None
  | FetchFailure ticketKey message =>
      JiraService.extractTicketKey jiraUrl = Some ticketKey ∧
      jira_getTicket env (S (now w)) ticketKey = Err message
  | QuestionsFailure ticketKey ticket message =>
      JiraService.extractTicketKey jiraUrl = Some ticketKey ∧
      jira_getTicket env (S (now w)) ticketKey = Ok ticket ∧
      openai_questions env (3 + now w) ticket = Err message
  | GenerationFailure ticketKey ticket message =>
      JiraService.extractTicketKey jiraUrl = Some ticketKey ∧
      jira_getTicket env (S (now w)) ticketKey = Ok ticket ∧
      openai_questions env (3 + now w) ticket = Ok [] ∧
      openai_content env (5 + now w) ticket ∅ = Err message
  end.

(** The message that reports a failed start to the user. *)
Definition failure_report (f : StartFailure) : Message :=
  match f with
  | ParseFailure => MsgNoTicketKey
  | FetchFailure _ message | QuestionsFailure _ _ message => MsgStartError message
  | GenerationFailure _ _ message => MsgGenerationError message
  end.

(** Messages that ask the user for answers or wait for more of them. *)
Definition asks_for_answers (e : Event) : bool :=
  match e with
  | PostMessage _ _ (MsgQuestions _) | PostMessage _ _ (MsgRemaining _) => true
  | _ => false
  end.

Definition is_upload_traffic (e : Event) : bool :=
  match e with Download _ | PostAttachment _ _ => true | _ => false end.

(** The attachments uploaded, oldest first. *)
Definition uploadedFilenames (l : list Event) : list string :=
  rev l ≫= λ e, match e with PostAttachment _ filename => [filename] | _ => [] end.

(** The image record pushed for a render that answered [response]. *)
Definition rendered (step : KBAStep.t) (os : ImageOs) (imagePrompt : string)
    (response : option string) : list GeneratedImage.t :=
  match response with
  | Some (String _ _ as url) =>
      [GeneratedImage.mk (KBAStep.stepNumber step) url os
                         (OpenAIService.enhanceImagePrompt imagePrompt os)]
  | _ => []
  end.

(** Every image download and every attachment upload succeeds. *)
Definition reliable_uploads (env : Env) : Prop :=
  (∀ t url, ∃ data, http_download env t url = Ok data) ∧
  (∀ t pageId filename, confluence_post_attachment env t pageId filename = Ok tt).

(** ** Sample data *)

Module Sample.

Definition ticket : JiraTicket.t :=
  JiraTicket.mk "TECH-456" "VPN drops" "The VPN client disconnects." "Bug"
                "High" "Done" None None "2024-01-01" "2024-01-02"
                (Some []) None None.

Definition step1 : KBAStep.t :=
  KBAStep.mk 1 "Open the network settings" (Some "A network settings window")
             (Some both) None.
Definition step2 : KBAStep.t :=
  KBAStep.mk 2 "Restart the VPN client" None None (Some "vpn restart").

Definition content : KBAContent.t :=
  KBAContent.mk "How to fix VPN drops" "The VPN drops." "Restart the client."
                [step1; step2] None ["vpn"].

(** An environment in which every call succeeds; question generation
    answers [questions]. *)
Definition env_ok (questions : list string) : Env :=
  {| jiraHost := "https://host";
     confluenceHost := "https://wiki";
     spaceKey := "ORCAS";
     parentPageId := EmptyString;
     jira_getTicket := λ _ _, Ok ticket;
     openai_questions := λ _ _, Ok questions;
     openai_content := λ _ _ _, Ok content;
     openai_image := λ _ _, Ok (Some "https://img/1.png");
     confluence_post_content := λ _ _, Ok "4711";
     http_download := λ _ _, Ok "PNG";
     confluence_post_attachment := λ _ _ _, Ok tt |}.

(** Variants of [env_ok] with one failing collaborator. *)
Definition with_image (env : Env) (f : nat → string → Result (option string)) : Env :=
  {| jiraHost := jiraHost env; confluenceHost := confluenceHost env;
     spaceKey := spaceKey env; parentPageId := parentPageId env;
     jira_getTicket := jira_getTicket env;
     openai_questions := openai_questions env;
     openai_content := openai_content env;
     openai_image := f;
     confluence_post_content := confluence_post_content env;
     http_download := http_download env;
     confluence_post_attachment := confluence_post_attachment env |}.

Definition with_getTicket (env : Env) (f : nat → string → Result JiraTicket.t) : Env :=
  {| jiraHost := jiraHost env; confluenceHost := confluenceHost env;
     spaceKey := spaceKey env; parentPageId := parentPageId env;
     jira_getTicket := f;
     openai_questions := openai_questions env;
     openai_content := openai_content env;
     openai_image := openai_image env;
     confluence_post_content := confluence_post_content env;
     http_download := http_download env;
     confluence_post_attachment := confluence_post_attachment env |}.

Definition with_post_content (env : Env) (f : nat → Page.t → Result string) : Env :=
  {| jiraHost := jiraHost env; confluenceHost := confluenceHost env;
     spaceKey := spaceKey env; parentPageId := parentPageId env;
     jira_getTicket := jira_getTicket env;
     openai_questions := openai_questions env;
     openai_content := openai_content env;
     openai_image := openai_image env;
     confluence_post_content := f;
     http_download := http_download env;
     confluence_post_attachment := confluence_post_attachment env |}.

Definition with_download (env : Env) (f : nat → string → Result string) : Env :=
  {| jiraHost := jiraHost env; confluenceHost := confluenceHost env;
     spaceKey := spaceKey env; parentPageId := parentPageId env;
     jira_getTicket := jira_getTicket env;
     openai_questions := openai_questions env;
     openai_content := openai_content env;
     openai_image := openai_image env;
     confluence_post_content := confluence_post_content env;
     http_download := f;
     confluence_post_attachment := confluence_post_attachment env |}.

(** The first render request fails, later ones succeed. *)
Definition env_first_render_fails : Env :=
  with_image (env_ok [])
    (λ t _, if (t =? 0)%nat then Err "rate limit exceeded"
            else Ok (Some "https://img/1.png")).

(** Image downloads fail (the image location has expired). *)
Definition env_download_fails : Env :=
  with_download (env_ok []) (λ _ _, Err "403").

(** The page creation fails when it is the sixteenth call, and succeeds
    otherwise. *)
Definition env_publish_fails_once : Env :=
  with_post_content (env_ok [])
    (λ t _, if (t =? 15)%nat then Err "503" else Ok "4711").

(** The ticket fetch fails. *)
Definition env_ticket_not_found : Env :=
  with_getTicket (env_ok []) (λ _ _, Err "Jira ticket TECH-456 not found").

Definition image1 : GeneratedImage.t :=
  GeneratedImage.mk 1 "https://img/1.png" mac "A network settings window".

(** A thread in which the bot was asked about the sample ticket. *)
Definition started (questions : list string) : World :=
  exec (KBAGeneratorWorkflow.startWorkflow (env_ok questions) "C1" "100.1" "U1"
          "https://host/browse/TECH-456") empty_world.

(** The conversation about a ticket without questions, under review. *)
Definition review_context : ConversationContext.t :=
  Eval vm_compute in
    default (asking "C1" "100.1" "U1" ticket [])
            (contexts (started []) !! "C1-100.1").

Definition review_draft : KBADraft.t :=
  Eval vm_compute in
    default (KBADraft.mk ticket content [] None)
            (ConversationContext.kbaDraft review_context).

(** The question generation fails. *)
Definition env_no_questions : Env :=
  {| jiraHost := jiraHost (env_ok []); confluenceHost := confluenceHost (env_ok []);
     spaceKey := spaceKey (env_ok []); parentPageId := parentPageId (env_ok []);
     jira_getTicket := jira_getTicket (env_ok []);
     openai_questions := λ _ _, Err "429 Too Many Requests";
     openai_content := openai_content (env_ok []);
     openai_image := openai_image (env_ok []);
     confluence_post_content := confluence_post_content (env_ok []);
     http_download := http_download (env_ok []);
     confluence_post_attachment := confluence_post_attachment (env_ok []) |}.

(** A chat that rejects the messages sent as the events number [ts] and
    delivers the others. *)
Definition rejecting (ts : list nat) : Chat :=
  λ t _ _ _,
    if bool_decide (t ∈ ts) then Err "An API error occurred: ratelimited"
    else Ok tt.

(** One question, answered; changes requested; feedback given; changes
    requested again. *)
Definition two_change_requests : list Op :=
  [ OpStart "C1" "100.1" "U1" "https://host/browse/TECH-456";
    OpAnswer "C1" "100.1" "U1" "It affects mac users";
    OpRequestChanges "C1-100.1";
    OpAnswer "C1" "100.1" "U1" "Please shorten step 2";
    OpRequestChanges "C1-100.1" ].

(** The conversation these operations leave behind. *)
Definition reopened_context : ConversationContext.t :=
  Eval vm_compute in
    default (asking "C1" "100.1" "U1" ticket ["Q1"])
            (contexts (run_ops (env_ok ["Q1"]) two_change_requests empty_world)
               !! "C1-100.1").

End Sample.

(** ** Further methods of the services *)

(** [haystack.includes(needle)] *)
Fixpoint includes (haystack needle : string) : bool :=
  String.prefix needle haystack ||
  match haystack with
  | EmptyString => false
  | String _ rest => includes rest needle
  end.

(** [isValidJiraUrl] of [jira.service.ts]. *)
Definition isValidJiraUrl (env : Env) (url : string) : bool :=
  includes url (jiraHost env) && includes url "/browse/".

(** [getPageUrl] of [confluence.service.ts]. *)
Definition getPageUrl (env : Env) (pageId : string) : string :=
  confluenceHost env +:+ "/wiki/spaces/" +:+ spaceKey env +:+ "/pages/" +:+ pageId.

(** ** The Slack listeners ([index.ts]) *)

Module SlackApp.

(** The fields of the events and of the action payload the listeners
    read. *)
Module MessageEvent.
Record t := mk {
  subtype : option string;
  text : option string;
  channel : string;
  ts : string;
  thread_ts : option string;
  user : string
}.
End MessageEvent.

Module MentionEvent.
Record t := mk {
  text : option string;
  channel : string;
  ts : string;
  thread_ts : option string;
  user : string
}.
End MentionEvent.

Module Action.
Record t := mk {
  type : string;
  value : option string
}.
End Action.

(** [body.user.id], [body.channel!.id!] and [body.message!.ts] are read
    as the listeners assert them to be there. *)
Module ActionBody.
Record t := mk {
  type : string;
  actions : list Action.t;
  user_id : string;
  channel_id : string;
  message_ts : string
}.
End ActionBody.

(** What the listeners send themselves: [say], [ack] and
    [client.chat.update]. *)
Inductive Reply :=
| Say (threadTs text : string)
| Ack
| ChatUpdate (channel ts text blockText : string).

(** [a || b] on an optional string and a string. *)
Definition or_else (a : option string) (b : string) : string :=
  match a with
  | Some (String _ _ as s) => s
  | _ => b
  end.

Definition greeting (userId : string) : string :=
  ":wave: Hi <@" +:+ userId +:+
  ">! I'll help you create a KBA from this Jira ticket.".

Definition usage (userId : string) : string :=
  ":wave: Hi <@" +:+ userId +:+
  ">! To create a KBA, please mention me with a Jira ticket URL or key." +:+
  nl +:+ nl +:+
  "Example: `@KBA Bot https://theguarantors.atlassian.net/browse/PROJ-123`".

Section WithEnv.
Context (env : Env).
Import KBAGeneratorWorkflow.

(** The listeners run over the world of the workflow and the replies they
    sent themselves, newest first. *)
Definition reply (r : Reply) : M (World * list Reply) unit :=
  modify_local (λ replies, r :: replies).

(** [app.message]; [extractTicketKey] answers [null] or a non-empty key. *)
Definition onMessage (message : MessageEvent.t) : M (World * list Reply) unit :=
  if truthy (MessageEvent.subtype message) ||
     negb (truthy (MessageEvent.text message))
  then ret tt
  else
    let text := default EmptyString (MessageEvent.text message) in
    let channel := MessageEvent.channel message in
    let threadTs := or_else (MessageEvent.thread_ts message) (MessageEvent.ts message) in
    let userId := MessageEvent.user message in
    let hasJiraUrl := includes text (jiraHost env) && includes text "/browse/" in
    let ticketKey := JiraService.extractTicketKey text in
    if hasJiraUrl || bool_decide (is_Some ticketKey) then
      let contextKey := channel +:+ "-" +:+ threadTs in
      let* context := lift (getContext contextKey) in
      match context with
      | None =>
          reply (Say threadTs (greeting userId)) ;;
          lift (startWorkflow env channel threadTs userId text)
      | Some context =>
          if decide (ConversationContext.stage context = asking_questions)
          then lift (handleAnswer env channel threadTs userId text)
          else ret tt
      end
    else
      let contextKey := channel +:+ "-" +:+ threadTs in
      let* context := lift (getContext contextKey) in
      match context with
      | Some context =>
          if decide (ConversationContext.stage context = asking_questions)
          then lift (handleAnswer env channel threadTs userId text)
          else ret tt
      | None => ret tt
      end.

(** [app.event('app_mention')] *)
Definition onAppMention (event : MentionEvent.t) : M (World * list Reply) unit :=
  if negb (truthy (MentionEvent.text event)) then ret tt
  else
    let text := default EmptyString (MentionEvent.text event) in
    let channel := MentionEvent.channel event in
    let threadTs := or_else (MentionEvent.thread_ts event) (MentionEvent.ts event) in
    let userId := MentionEvent.user event in
    match JiraService.extractTicketKey text with
    | Some ticketKey =>
        reply (Say threadTs (greeting userId)) ;;
        lift (startWorkflow env channel threadTs userId text)
    | None => reply (Say threadTs (usage userId))
    end.

(** The three button listeners differ in the texts of the update and in
    the method of the workflow they call. *)
Definition onAction (text blockText : string)
    (method : string → string → M World unit) (body : ActionBody.t)
    : M (World * list Reply) unit :=
  reply Ack ;;
  if negb (String.eqb (ActionBody.type body) "block_actions") then ret tt
  else
    match ActionBody.actions body with
    | [] => throw "Cannot read properties of undefined (reading 'type')"
    | action :: _ =>
        if negb (String.eqb (Action.type action) "button") ||
           negb (truthy (Action.value action))
        then ret tt
        else
          let contextKey := default EmptyString (Action.value action) in
          let userId := ActionBody.user_id body in
          reply (ChatUpdate (ActionBody.channel_id body) (ActionBody.message_ts body)
                            text blockText) ;;
          lift (method contextKey userId)
    end.

(** [app.action('approve_kba')], [('request_changes')], [('cancel_kba')] *)
Definition onApprove : ActionBody.t → M (World * list Reply) unit :=
  onAction ":hourglass: Publishing KBA to Confluence..."
           ":hourglass: Publishing KBA to Confluence..."
           (λ contextKey userId, approveAndPublish env contextKey userId).

Definition onRequestChanges : ActionBody.t → M (World * list Reply) unit :=
  onAction "Waiting for change requests..."
           ":pencil: Waiting for your feedback..."
           (λ contextKey _, requestChanges contextKey).

Definition onCancel : ActionBody.t → M (World * list Reply) unit :=
  onAction "KBA generation cancelled"
           ":x: KBA generation cancelled"
           (λ contextKey _, cancelKBA contextKey).

End WithEnv.
End SlackApp.

(** ** Further vocabulary *)

(** The thread a message belongs to, and the key of its conversation. *)
Definition thread_of (message : SlackApp.MessageEvent.t) : string :=
  SlackApp.or_else (SlackApp.MessageEvent.thread_ts message)
                   (SlackApp.MessageEvent.ts message).

Definition key_of (message : SlackApp.MessageEvent.t) : string :=
  SlackApp.MessageEvent.channel message +:+ "-" +:+ thread_of message.

(** The click on a button of the review message. *)
Definition click (contextKey userId channel ts : string) : SlackApp.ActionBody.t :=
  SlackApp.ActionBody.mk "block_actions"
                         [SlackApp.Action.mk "button" (Some contextKey)]
                         userId channel ts.

(** The characters [escapeHTML] replaces, and what one pass over the text
    puts in the place of a character. *)
Definition special_char (c : ascii) : bool :=
  Ascii.eqb c "&" || Ascii.eqb c "<" || Ascii.eqb c ">" ||
  Ascii.eqb c "034" || Ascii.eqb c "'" || Ascii.eqb c "010".

Definition escapeChar (c : ascii) : string :=
  if Ascii.eqb c "&" then "&amp;"
  else if Ascii.eqb c "<" then "&lt;"
  else if Ascii.eqb c ">" then "&gt;"
  else if Ascii.eqb c "034" then "&quot;"
  else if Ascii.eqb c "'" then "&#39;"
  else if Ascii.eqb c "010" then "<br/>"
  else String c EmptyString.

(** Reads the six replacements back. *)
Fixpoint unescapeHTML (s : string) : string :=
  match s with
  | String "&" (String "a" (String "m" (String "p" (String ";" rest)))) =>
      String "&" (unescapeHTML rest)
  | String "&" (String "l" (String "t" (String ";" rest))) =>
      String "<" (unescapeHTML rest)
  | String "&" (String "g" (String "t" (String ";" rest))) =>
      String ">" (unescapeHTML rest)
  | String "&" (String "q" (String "u" (String "o" (String "t" (String ";" rest))))) =>
      String "034" (unescapeHTML rest)
  | String "&" (String "#" (String "3" (String "9" (String ";" rest)))) =>
      String "'" (unescapeHTML rest)
  | String "<" (String "b" (String "r" (String "/" (String ">" rest)))) =>
      String "010" (unescapeHTML rest)
  | String c rest => String c (unescapeHTML rest)
  | EmptyString => EmptyString
  end.

(** Texts made of characters that need no escape and of the six
    replacements. *)
Inductive escaped : string → Prop :=
| escaped_nil : escaped EmptyString
| escaped_plain c s : special_char c = false → escaped s → escaped (String c s)
| escaped_token t s :
    t ∈ ["&amp;"; "&lt;"; "&gt;"; "&quot;"; "&#39;"; "<br/>"] →
    escaped s → escaped (t +:+ s).

Fixpoint string_forallb (p : ascii → bool) (s : string) : bool :=
  match s with
  | EmptyString => true
  | String c s' => p c && string_forallb p s'
  end.

Definition starts_with_digit (s : string) : bool :=
  match s with
  | String c _ => Regex.in_class Regex.Digit c
  | EmptyString => false
  end.

(** A character that can stand in no ticket key. *)
Definition stop_char (c : ascii) : bool :=
  negb (Regex.in_class Regex.UpperAZ c) && negb (Regex.in_class Regex.Digit c) &&
  negb (Ascii.eqb c "-").

(** The context an entry point works on. *)
Definition op_key (op : Op) : string :=
  match op with
  | OpStart channel threadTs _ _ | OpAnswer channel threadTs _ _ =>
      channel +:+ "-" +:+ threadTs
  | OpApprove contextKey _ | OpRequestChanges contextKey
  | OpCancel contextKey | OpCleanup contextKey => contextKey
  end.

(** A context as the entry points leave it behind: stored under the key
    of its thread, with its ticket, in a stage that waits for the user,
    and with the draft of its own ticket once there is one. *)
Definition at_rest (contextKey : string) (context : ConversationContext.t) : Prop :=
  contextKey = ConversationContext.channel context +:+ "-" +:+
               ConversationContext.threadTs context ∧
  is_Some (ConversationContext.jiraTicket context) ∧
  (∀ kbaDraft, ConversationContext.kbaDraft context = Some kbaDraft →
     ConversationContext.jiraTicket context = Some (KBADraft.jiraTicket kbaDraft)) ∧
  match ConversationContext.stage context with
  | asking_questions => True
  | review | complete => is_Some (ConversationContext.kbaDraft context)
  | initial | analyzing | generating => False
  end.

Definition all_at_rest (w : World) : Prop :=
  ∀ contextKey context, contexts w !! contextKey = Some context →
                        at_rest contextKey context.

(** The answer slots hold the answers in the order of their arrival. *)
Definition slots_hold (answers : list string) (userAnswers : gmap string string)
    : Prop :=
  size userAnswers = length answers ∧
  ∀ i answer, answers !! i = Some answer →
              userAnswers !! ("answer_" +:+ pretty (S i)) = Some answer.

(** The render requests [generateImages] makes for a bundle when none of
    them fails: step number, platform and prompt, in order. *)
Definition renderOf (image : GeneratedImage.t) : Z * ImageOs * string :=
  (GeneratedImage.stepNumber image, GeneratedImage.osType image,
   GeneratedImage.prompt image).

Definition plannedStep (step : KBAStep.t) : list (Z * ImageOs * string) :=
  match KBAStep.imagePrompt step, KBAStep.osType step with
  | Some imagePrompt, Some osType =>
      if truthy (Some imagePrompt) then
        (λ os, (KBAStep.stepNumber step, os,
                OpenAIService.enhanceImagePrompt imagePrompt os)) <$>
        match osType with both => [mac; windows] | only os => [os] end
      else []
  | _, _ => []
  end.

Definition plannedRenders (content : KBAContent.t) : list (Z * ImageOs * string) :=
  KBAContent.steps content ≫= plannedStep.

(** Every render request is answered with the location of an image. *)
Definition renders_answer (env : Env) : Prop :=
  ∀ t prompt, ∃ c url, openai_image env t prompt = Ok (Some (String c url)).

(** The image locations fetched, oldest first. *)
Definition downloadsAttempted (l : list Event) : list string :=
  rev l ≫= λ e, match e with Download url => [url] | _ => [] end.

(** ** Running the workflow over a chat *)

(** The entry points, over the answers of the chat.  A call that throws
    leaves the state it had reached; the next call starts from it. *)
Definition run_op_over (env : Env) (chat : Chat) (op : Op) : M World unit :=
  match op with
  | OpStart channel threadTs userId jiraUrl =>
      Workflow.startWorkflow env chat channel threadTs userId jiraUrl
  | OpAnswer channel threadTs userId answer =>
      Workflow.handleAnswer env chat channel threadTs userId answer
  | OpApprove contextKey userId =>
      Workflow.approveAndPublish env chat contextKey userId
  | OpRequestChanges contextKey => Workflow.requestChanges chat contextKey
  | OpCancel contextKey => Workflow.cancelKBA chat contextKey
  | OpCleanup contextKey => Workflow.cleanup contextKey
  end.

Fixpoint run_ops_over (env : Env) (chat : Chat) (ops : list Op) (w : World)
    : World :=
  match ops with
  | [] => w
  | op :: ops' => run_ops_over env chat ops' (exec (run_op_over env chat op) w)
  end.

Definition submitAnswers_over (env : Env) (chat : Chat)
    (channel threadTs userId : string) (answers : list string) : World → World :=
  run_ops_over env chat (OpAnswer channel threadTs userId <$> answers).

Definition is_change_request (contextKey : string) (op : Op) : bool :=
  match op with
  | OpRequestChanges k => bool_decide (k = contextKey)
  | _ => false
  end.

(** How often changes were requested for a context. *)
Definition change_requests (contextKey : string) (ops : list Op) : nat :=
  length (filter (λ op, is_change_request contextKey op = true) ops).

(** A context with at most [r] answers more than questions; while it waits
    for answers, one less. *)
Definition excess_within (r : nat) (context : ConversationContext.t) : Prop :=
  let answers := size (ConversationContext.userAnswers context) in
  let questions := length (ConversationContext.questionsAsked context) in
  match ConversationContext.stage context with
  | asking_questions => (answers < questions + r)%nat
  | _ => (answers ≤ questions + r)%nat
  end.

Definition excess_invariant (allowed : string → nat) (w : World) : Prop :=
  ∀ contextKey context,
    contexts w !! contextKey = Some context →
    is_Some (ConversationContext.jiraTicket context) ∧
    excess_within (allowed contextKey) context.

(** A context as a call can leave it behind, also one that was cut short
    by a message the chat rejected. *)
Definition kept (contextKey : string) (context : ConversationContext.t) : Prop :=
  contextKey = ConversationContext.channel context +:+ "-" +:+
               ConversationContext.threadTs context ∧
  is_Some (ConversationContext.jiraTicket context) ∧
  (∀ kbaDraft, ConversationContext.kbaDraft context = Some kbaDraft →
     ConversationContext.jiraTicket context = Some (KBADraft.jiraTicket kbaDraft)) ∧
  match ConversationContext.stage context with
  | initial => False
  | review | complete => is_Some (ConversationContext.kbaDraft context)
  | asking_questions | analyzing | generating => True
  end.

Definition all_kept (w : World) : Prop :=
  ∀ contextKey context, contexts w !! contextKey = Some context →
                        kept contextKey context.

(** [m] keeps what holds of the stored contexts. *)
Definition keeps {A} (m : M World A) : Prop :=
  ∀ w, all_kept w → all_kept (m w).2.

(** Letters of either case. *)
Definition is_letter (c : ascii) : bool :=
  Regex.in_class Regex.UpperAZ c ||
  ((97 <=? nat_of_ascii c)%nat && (nat_of_ascii c <=? 122)%nat).

(** Letters, a dash, digits, when the letters may be of either case. *)
Definition letters_dash_digits (k : string) : Prop :=
  ∃ letters digits,
    list_ascii_of_string k = letters ++ "-"%char :: digits ∧
    letters ≠ [] ∧ digits ≠ [] ∧
    Forall (λ c, is_letter c = true) letters ∧
    Forall (λ c, Regex.in_class Regex.Digit c = true) digits.

(** * Properties *)

(** ** The ticket reference parser *)

Section Parser.
Import Regex Spec JiraService.

Lemma run_in_class k s : Forall (λ c, in_class k c = true) (run k s).
Proof.
  induction s as [|c s IH]; simpl; [constructor|].
  destruct (in_class k c) eqn:E; constructor; auto.
Qed.

Lemma run_prefix k s : s = run k s ++ drop (length (run k s)) s.
Proof.
  induction s as [|c s IH]; simpl; [done|].
  destruct (in_class k c); simpl; [by f_equal | done].
Qed.

Lemma run_app k l r :
  Forall (λ c, in_class k c = true) l → run k (l ++ r) = l ++ run k r.
Proof.
  induction 1 as [|c l Hc _ IH]; simpl; [done|]. by rewrite Hc, IH.
Qed.

Lemma dash_not_upper : in_class UpperAZ "-" = false.
Proof. reflexivity. Qed.

Lemma upper_not_dash c : in_class UpperAZ c = true → Ascii.eqb c "-" = false.
Proof.
  intros H. destruct (Ascii.eqb_spec c "-") as [->|]; [|done].
  by rewrite dash_not_upper in H.
Qed.

(** The greedy digit loop followed by the end of the group. *)
Lemma digits_loop cont cap s :
  (∀ cap' s', cont cap' s' = Some (rev cap')) →
  plus_loop Digit true cont cap s =
  match run Digit s with
  | [] => None
  | digits => Some (rev cap ++ digits)
  end.
Proof.
  intros Hcont. revert cap.
  induction s as [|c s IH]; intros cap; cbn [plus_loop run]; [done|].
  destruct (in_class Digit c) eqn:E; [|done].
  rewrite IH, Hcont. cbn [push rev].
  destruct (run Digit s); [done|]. by rewrite <- app_assoc.
Qed.

Lemma after_letters cap s :
  match_here [Lit "-"; Plus Digit; GroupClose] true cap s =
  match s with
  | dash :: rest =>
      if Ascii.eqb dash "-" then
        match run Digit rest with
        | [] => None
        | digits => Some (rev cap ++ dash :: digits)
        end
      else None
  | [] => None
  end.
Proof.
  destruct s as [|d rest]; [done|]. cbn [match_here].
  destruct (Ascii.eqb d "-"); [|done].
  rewrite digits_loop by done. cbn [push rev].
  destruct (run Digit rest); [done|]. by rewrite <- app_assoc.
Qed.

(** The greedy letter loop followed by the rest of the pattern: giving a
    letter back never helps, because the next character must be the
    dash. *)
Lemma letters_loop cap s :
  plus_loop UpperAZ true
    (match_here [Lit "-"; Plus Digit; GroupClose] true) cap s =
  (rev cap ++.) <$> match_key s.
Proof.
  revert cap. induction s as [|c s IH]; intros cap; [done|].
  cbn [plus_loop]. unfold match_key. cbn [run].
  destruct (in_class UpperAZ c) eqn:E; [|done].
  rewrite IH, after_letters. unfold match_key. cbn [length drop push rev].
  destruct (run UpperAZ s) as [|l ls] eqn:Hrun.
  - (* the run of letters ends here *)
    cbn [length drop fmap option_fmap option_map].
    destruct s as [|d s']; [done|]. cbn [drop].
    destruct (Ascii.eqb d "-") eqn:Hd; [|done].
    destruct (run Digit s'); [done|].
    cbn [fmap option_fmap option_map]. by rewrite <- !app_assoc.
  - (* more letters follow, so the character after [c] is no dash *)
    assert (∃ d s', s = d :: s' ∧ Ascii.eqb d "-" = false)
      as (d & s' & -> & Hd).
    { destruct s as [|d s']; [done|]. exists d, s'. split; [done|].
      cbn [run] in Hrun. destruct (in_class UpperAZ d) eqn:Hd; [|done].
      by apply upper_not_dash. }
    rewrite Hd. cbn [length].
    destruct (drop (S (length ls)) (d :: s')) as [|d' rest]; [done|].
    destruct (Ascii.eqb d' "-"); [|done].
    destruct (run Digit rest); [done|].
    cbn [fmap option_fmap option_map]. by rewrite <- !app_assoc.
Qed.

Lemma match_here_simple_key s :
  match_here simple_key false [] s = match_key s.
Proof.
  unfold simple_key. cbn [match_here]. rewrite letters_loop.
  by destruct (match_key s).
Qed.

Lemma match_key_sound s k :
  match_key s = Some k → ticket_chars k ∧ ∃ post, s = k ++ post.
Proof.
  unfold match_key. intros H.
  pose proof (run_prefix UpperAZ s) as Hs.
  pose proof (run_in_class UpperAZ s) as Hup.
  destruct (run UpperAZ s) as [|l ls] eqn:Hrun; [done|].
  destruct (drop (length (l :: ls)) s) as [|dash rest]; [done|].
  destruct (Ascii.eqb_spec dash "-") as [->|]; [|done].
  pose proof (run_prefix Digit rest) as Hrest.
  pose proof (run_in_class Digit rest) as Hdig.
  destruct (run Digit rest) as [|d ds] eqn:Hrun'; [done|].
  injection H as <-. split.
  - by exists (l :: ls), (d :: ds).
  - exists (drop (length (d :: ds)) rest).
    rewrite Hs at 1. rewrite Hrest at 1. simpl. f_equal.
    by rewrite <- app_assoc.
Qed.

(** If a key starts at the head of [s], the greedy match finds one there,
    at least as long. *)
Lemma match_key_complete s k' post' :
  ticket_chars k' → s = k' ++ post' →
  ∃ k, match_key s = Some k ∧ (length k' ≤ length k)%nat.
Proof.
  intros (ls & ds & -> & Hls & Hds & Hup & Hdig) ->.
  assert (Hrun : run UpperAZ ((ls ++ "-"%char :: ds) ++ post') = ls).
  { rewrite <- app_assoc, (run_app _ _ _ Hup). cbn [app run].
    by rewrite dash_not_upper, app_nil_r. }
  unfold match_key. rewrite Hrun.
  destruct ls as [|l ls]; [done|].
  rewrite <- app_assoc, drop_app_length.
  change (("-"%char :: ds) ++ post') with ("-"%char :: (ds ++ post')).
  cbn [Ascii.eqb Bool.eqb andb]. rewrite (run_app _ _ _ Hdig).
  destruct ds as [|d ds]; [done|]. cbn [app].
  eexists; split; [done|]. simpl. rewrite !length_app. simpl.
  rewrite length_app. lia.
Qed.

Lemma search_Some re s k :
  search re s = Some k →
  ∃ pre s', s = pre ++ s' ∧ match_here re false [] s' = Some k ∧
    ∀ pre2 s2, s = pre2 ++ s2 → (length pre2 < length pre)%nat →
               match_here re false [] s2 = None.
Proof.
  induction s as [|c s IH]; cbn [search].
  - destruct (match_here re false [] []) eqn:E; [|done].
    intros [= ->]. exists [], []. repeat split; [done|].
    intros ? ? _ Hlt. simpl in Hlt. lia.
  - destruct (match_here re false [] (c :: s)) eqn:E.
    + intros [= ->]. exists [], (c :: s). repeat split; [done|].
      intros ? ? _ Hlt. simpl in Hlt. lia.
    + intros (pre & s' & -> & Hm & Hfirst)%IH.
      exists (c :: pre), s'. repeat split; [done|].
      intros [|c2 pre2] s2 Heq Hlt.
      * simpl in Heq. by subst s2.
      * injection Heq as -> Heq. apply (Hfirst pre2); [done|]. simpl in Hlt. lia.
Qed.

Lemma search_None re s :
  search re s = None →
  ∀ pre s', s = pre ++ s' → match_here re false [] s' = None.
Proof.
  induction s as [|c s IH]; cbn [search].
  - destruct (match_here re false [] []) eqn:E; [done|].
    intros _ pre s' Heq. symmetry in Heq.
    apply app_eq_nil in Heq as [_ ->]. done.
  - destruct (match_here re false [] (c :: s)) eqn:E; [done|].
    intros H [|c2 pre] s' Heq.
    + simpl in Heq. by subst s'.
    + injection Heq as -> Heq. by apply (IH H pre).
Qed.

(** A match of the second pattern contains a match of the first. *)
Lemma browse_url_contains_key s k :
  match_here browse_url false [] s = Some k →
  ∃ s', s = list_ascii_of_string "browse/" ++ s' ∧
        match_here simple_key false [] s' = Some k.
Proof.
  unfold browse_url. cbn [list_ascii_of_string fmap list_fmap app].
  intros H.
  repeat (destruct s as [|? s]; [done|]; cbn [match_here push] in H;
          match type of H with
          | context [Ascii.eqb ?a ?c] =>
              destruct (Ascii.eqb_spec a c) as [->|]; [|done]
          end).
  by exists s.
Qed.

(** The second pattern never decides: it can only match where the first
    one already did. *)
Lemma first_match_simple_key s :
  first_match patterns s = search simple_key s.
Proof.
  unfold patterns. cbn [first_match].
  destruct (search simple_key s) eqn:E1; [done|].
  destruct (search browse_url s) eqn:E2; [|done].
  apply search_Some in E2 as (pre & s' & -> & Hm & _).
  apply browse_url_contains_key in Hm as (s'' & -> & Hm).
  rewrite (search_None _ _ E1 (pre ++ list_ascii_of_string "browse/") s'') in Hm;
    [done | by rewrite <- app_assoc].
Qed.

Lemma list_ascii_of_string_app a b :
  list_ascii_of_string (a +:+ b) = list_ascii_of_string a ++ list_ascii_of_string b.
Proof. induction a as [|c a IH]; simpl; [done | by rewrite IH]. Qed.

Lemma string_length_list s : String.length s = length (list_ascii_of_string s).
Proof. induction s as [|c s IH]; simpl; [done | by rewrite IH]. Qed.

Lemma string_of_list_ascii_app a b :
  string_of_list_ascii (a ++ b) = string_of_list_ascii a +:+ string_of_list_ascii b.
Proof. induction a as [|c a IH]; simpl; [done | by rewrite IH]. Qed.

(** C7, as the code has it.  For every text, [extractTicketKey] returns
    the first substring of the form upper-case letters (A to Z), dash,
    digits: the occurrence that
    starts leftmost and, there, the longest one, wherever it stands in the
    text (bare, or behind [browse/] in a URL).  When the text holds no
    such substring it returns the no-match result.  The function is total:
    it answers one or the other on every text. *)
Theorem extractTicketKey_first_match (text : string) :
  match extractTicketKey text with
  | Some k =>
      ticket_pattern k ∧
      ∃ pre post, text = pre +:+ k +:+ post ∧
        ∀ pre' k' post', text = pre' +:+ k' +:+ post' → ticket_pattern k' →
          (String.length pre ≤ String.length pre')%nat ∧
          (String.length pre' = String.length pre →
           (String.length k' ≤ String.length k)%nat)
  | None =>
      ∀ pre' k' post', text = pre' +:+ k' +:+ post' → ¬ ticket_pattern k'
  end.
Proof.
  unfold extractTicketKey, ticket_pattern. rewrite first_match_simple_key.
  destruct (search simple_key (list_ascii_of_string text)) as [k|] eqn:E;
    cbn [fmap option_fmap option_map].
  - apply search_Some in E as (pre & s' & Htext & Hm & Hfirst).
    rewrite match_here_simple_key in Hm.
    destruct (match_key_sound _ _ Hm) as [Hk [post ->]].
    rewrite list_ascii_of_string_of_list_ascii. split; [done|].
    exists (string_of_list_ascii pre), (string_of_list_ascii post). split.
    { rewrite <- !string_of_list_ascii_app, <- Htext.
      by rewrite string_of_list_ascii_of_string. }
    intros pre' k' post' Heq Hk'.
    apply (f_equal list_ascii_of_string) in Heq.
    rewrite !list_ascii_of_string_app in Heq.
    rewrite !string_length_list, list_ascii_of_string_of_list_ascii.
    destruct (decide (length (list_ascii_of_string pre') < length pre)%nat) as [Hlt|Hge].
    { specialize (Hfirst _ _ Heq Hlt).
      rewrite match_here_simple_key in Hfirst.
      destruct (match_key_complete _ _ (list_ascii_of_string post') Hk' eq_refl)
        as (? & Hsome & _).
      by rewrite Hfirst in Hsome. }
    split; [lia|]. intros Hlen.
    rewrite Htext in Heq.
    apply app_inj_1 in Heq as [_ Heq]; [|done].
    destruct (match_key_complete _ _ _ Hk' Heq) as (k2 & Hsome & Hle).
    rewrite Hm in Hsome. injection Hsome as <-.
    by rewrite list_ascii_of_string_of_list_ascii.
  - intros pre' k' post' Heq Hk'.
    apply (f_equal list_ascii_of_string) in Heq.
    rewrite !list_ascii_of_string_app in Heq.
    pose proof (search_None _ _ E _ _ Heq) as Hnone.
    rewrite match_here_simple_key in Hnone.
    destruct (match_key_complete _ _ (list_ascii_of_string post') Hk' eq_refl)
        as (? & Hsome & _).
    by rewrite Hnone in Hsome.
Qed.

End Parser.

(** ** Image generation and preview never fail *)

Lemma log_prefix_cons (e : Event) r events l :
  r = events ++ l → e :: r = (e :: events) ++ l.
Proof. by intros ->. Qed.

(** Solves [e1 :: .. :: en :: l = ?events ++ l]. *)
Ltac logged :=
  repeat first [ exact (eq_refl : _ = [] ++ _) | apply log_prefix_cons ].

(** Reads the methods of [Workflow] at [delivering] as the methods of
    [KBAGeneratorWorkflow]. *)
Ltac refold :=
  repeat match goal with
  | |- context [Workflow.generateKBA ?e delivering ?k] =>
      change (Workflow.generateKBA e delivering k)
        with (KBAGeneratorWorkflow.generateKBA e k)
  | |- context [Workflow.generateKBA ?e (λ _ _ _ _, Ok tt) ?k] =>
      change (Workflow.generateKBA e (λ _ _ _ _, Ok tt) k)
        with (KBAGeneratorWorkflow.generateKBA e k)
  | |- context [Workflow.showPreview delivering ?k] =>
      change (Workflow.showPreview delivering k)
        with (KBAGeneratorWorkflow.showPreview k)
  | |- context [Workflow.showPreview (λ _ _ _ _, Ok tt) ?k] =>
      change (Workflow.showPreview (λ _ _ _ _, Ok tt) k)
        with (KBAGeneratorWorkflow.showPreview k)
  | |- context [Workflow.uploadPreview ?c ?t] =>
      change (Workflow.uploadPreview c t)
        with (KBAGeneratorWorkflow.uploadPreview c t)
  end.

(** Unfolds the monad and the primitive calls, leaving the oracles. *)
Ltac mstep :=
  cbv beta iota zeta delta
    [bind ret throw try_catch with_local lift get_local modify_local
     emit external now
     KBAGeneratorWorkflow.getContext KBAGeneratorWorkflow.setContext
     KBAGeneratorWorkflow.deleteContext KBAGeneratorWorkflow.sendMessage
     KBAGeneratorWorkflow.getTicket
     Workflow.getContext Workflow.setContext Workflow.deleteContext
     Workflow.sendMessage Workflow.getTicket delivering
     OpenAIService.generateKBAContent
     OpenAIService.generateClarifyingQuestions OpenAIService.images_generate
     ConversationContext.set_stage ConversationContext.set_questionsAsked
     ConversationContext.set_userAnswers ConversationContext.set_kbaDraft];
  cbn [contexts log fst snd length
       ConversationContext.threadTs ConversationContext.channel
       ConversationContext.userId ConversationContext.jiraTicket
       ConversationContext.kbaDraft ConversationContext.stage
       ConversationContext.questionsAsked ConversationContext.userAnswers];
  refold.

Tactic Notation "mstep" "in" hyp(H) :=
  cbv beta iota zeta delta
    [bind ret throw try_catch with_local lift get_local modify_local
     emit external now
     KBAGeneratorWorkflow.getContext KBAGeneratorWorkflow.setContext
     KBAGeneratorWorkflow.deleteContext KBAGeneratorWorkflow.sendMessage
     KBAGeneratorWorkflow.getTicket
     Workflow.getContext Workflow.setContext Workflow.deleteContext
     Workflow.sendMessage Workflow.getTicket delivering
     OpenAIService.generateKBAContent
     OpenAIService.generateClarifyingQuestions OpenAIService.images_generate
     ConversationContext.set_stage ConversationContext.set_questionsAsked
     ConversationContext.set_userAnswers ConversationContext.set_kbaDraft] in H;
  cbn [contexts log fst snd length
       ConversationContext.threadTs ConversationContext.channel
       ConversationContext.userId ConversationContext.jiraTicket
       ConversationContext.kbaDraft ConversationContext.stage
       ConversationContext.questionsAsked ConversationContext.userAnswers] in H.

Section Drafting.
Context (env : Env).
Import OpenAIService KBAGeneratorWorkflow.

Lemma extend_extend w events1 events2 :
  extend (extend w events1) events2 = extend w (events2 ++ events1).
Proof. unfold extend. cbn [contexts log]. by rewrite app_assoc. Qed.

Lemma extend_nil w : extend w [] = w.
Proof. by destruct w. Qed.

Lemma renderStep_runs step w images :
  ∃ images' events,
    renderStep env step (w, images) = (Ok tt, (extend w events, images')) ∧
    Forall (λ e, is_draft_traffic e = true) events.
Proof.
  unfold renderStep.
  destruct (KBAStep.imagePrompt step) as [[|c prompt]|],
           (KBAStep.osType step) as [[os|]|];
    try (exists images, []; by rewrite extend_nil);
    cbn [truthy for_each];
    unfold try_catch, bind, lift, images_generate, external, emit, ret, modify_local;
    cbn [fst snd contexts log].
  - (* one platform *)
    destruct (openai_image env (now w) _) as [[[|c' url]|]|e];
      cbn [fst snd contexts log];
      eexists _, _; (split; [unfold extend; do 3 f_equal; logged|]);
      repeat constructor.
  - (* both platforms *)
    destruct (openai_image env (now w) _) as [[[|c1 url1]|]|e1];
      cbn [fst snd contexts log];
      try (destruct (openai_image env (now _) _) as [[[|c2 url2]|]|e2]);
      cbn [fst snd contexts log];
      eexists _, _; (split; [unfold extend; do 3 f_equal; logged|]);
      repeat constructor.
Qed.

Lemma renderSteps_run steps w images :
  ∃ images' events,
    for_each steps (renderStep env) (w, images) =
      (Ok tt, (extend w events, images')) ∧
    Forall (λ e, is_draft_traffic e = true) events.
Proof.
  revert w images. induction steps as [|step steps IH]; intros w images.
  - exists images, []. by rewrite extend_nil.
  - cbn [for_each]. unfold bind at 1.
    destruct (renderStep_runs step w images) as (images1 & events1 & -> & H1).
    destruct (IH (extend w events1) images1) as (images2 & events2 & -> & H2).
    exists images2, (events2 ++ events1). rewrite extend_extend.
    split; [done | by apply Forall_app].
Qed.

(** [generateImages] returns on every bundle and whatever the renders
    answer; it touches no context. *)
Lemma generateImages_runs content w :
  ∃ images events,
    generateImages env content w = (Ok images, extend w events) ∧
    Forall (λ e, is_draft_traffic e = true) events.
Proof.
  unfold generateImages, with_local, bind.
  destruct (renderSteps_run (KBAContent.steps content) w [])
    as (images & events & -> & H).
  by exists images, events.
Qed.

Lemma uploadPreviews_run channel threadTs images w :
  for_each images (uploadPreview channel threadTs) w =
  (Ok tt, extend w (rev (FilesUpload channel threadTs <$> images))).
Proof.
  revert w. induction images as [|image images IH]; intros w.
  - by rewrite extend_nil.
  - cbn [for_each]. unfold bind at 1, uploadPreview at 1, Workflow.uploadPreview, try_catch, emit.
    rewrite IH. unfold extend. cbn [contexts log fmap list_fmap rev].
    by rewrite <- app_assoc.
Qed.

Lemma showPreview_runs contextKey w context kbaDraft :
  contexts w !! contextKey = Some context →
  ConversationContext.kbaDraft context = Some kbaDraft →
  ∃ events,
    showPreview contextKey w = (Ok tt, extend w events) ∧
    Forall (λ e, is_draft_traffic e = true) events.
Proof.
  intros Hc Hd. unfold showPreview, Workflow.showPreview, bind, getContext,
    Workflow.getContext. rewrite Hc, Hd.
  unfold Workflow.sendMessage, external, delivering. refold.
  rewrite uploadPreviews_run.
  set (channel := ConversationContext.channel context).
  set (threadTs := ConversationContext.threadTs context).
  set (images := KBADraft.images kbaDraft).
  exists (PostMessage channel threadTs (MsgApprovalButtons contextKey) ::
          rev (FilesUpload channel threadTs <$> images) ++
          [PostMessage channel threadTs
             (MsgPreview (KBADraft.content kbaDraft) (length images))]).
  split.
  - unfold extend. cbn [contexts log]. do 2 f_equal.
    rewrite <- app_comm_cons. f_equal. by rewrite <- app_assoc.
  - constructor; [done|]. apply Forall_app. split; [|by repeat constructor].
    apply Forall_rev, Forall_fmap, Forall_forall. by intros.
Qed.

(** Content generation: a failure of the content call discards the
    context; otherwise the draft is attached and the context reaches the
    review stage, whatever the image renders answer. *)
Lemma generateKBA_runs contextKey w context ticket :
  contexts w !! contextKey = Some context →
  ConversationContext.jiraTicket context = Some ticket →
  let channel := ConversationContext.channel context in
  let threadTs := ConversationContext.threadTs context in
  let userAnswers := ConversationContext.userAnswers context in
  match openai_content env (S (now w)) ticket userAnswers with
  | Err e =>
      generateKBA env contextKey w =
      (Ok tt,
       {| contexts := delete contextKey (contexts w);
          log := PostMessage channel threadTs (MsgGenerationError e) ::
                 GenerateKBAContent ticket userAnswers ::
                 PostMessage channel threadTs MsgGeneratingContent :: log w |})
  | Ok content =>
      ∃ images events,
        generateKBA env contextKey w =
        (Ok tt,
         {| contexts :=
              <[contextKey :=
                  ConversationContext.set_stage review
                    (ConversationContext.set_kbaDraft
                       (Some (KBADraft.mk ticket content images None))
                       (ConversationContext.set_stage generating context))]>
                (contexts w);
            log := events ++
                   GenerateKBAContent ticket userAnswers ::
                   PostMessage channel threadTs MsgGeneratingContent :: log w |}) ∧
        Forall (λ e, is_draft_traffic e = true) events
  end.
Proof.
  intros Hc Ht. cbv zeta.
  unfold generateKBA, Workflow.generateKBA. mstep. rewrite Hc, Ht. mstep.
  set (channel := ConversationContext.channel context).
  set (threadTs := ConversationContext.threadTs context).
  destruct (openai_content env (S (length (log w))) ticket _) as [content|e].
  - destruct (0 <? _)%nat.
    + match goal with
      | |- context [generateImages env ?c ?W] =>
          destruct (generateImages_runs c W) as (images & events & -> & Hev)
      end.
      mstep.
      match goal with
      | |- context [showPreview contextKey ?W] =>
          edestruct (showPreview_runs contextKey W) as (events' & -> & Hev');
            [cbn [contexts]; apply lookup_insert_eq | reflexivity | ]
      end.
      unfold extend. mstep.
      exists images,
        (events' ++ events ++
         [PostMessage channel threadTs
            (MsgGeneratingImages
               (length (filter (λ s, truthy (KBAStep.imagePrompt s) = true)
                               (KBAContent.steps content))))]).
      split.
      * rewrite insert_insert_eq. by rewrite <- !app_assoc.
      * repeat (apply Forall_app; split); [done | done | by repeat constructor].
    + mstep.
      match goal with
      | |- context [showPreview contextKey ?W] =>
          edestruct (showPreview_runs contextKey W) as (events' & -> & Hev');
            [cbn [contexts]; apply lookup_insert_eq | reflexivity | ]
      end.
      unfold extend. mstep.
      exists [], events'. split; [|done].
      by rewrite insert_insert_eq.
  - mstep. by rewrite delete_insert_eq.
Qed.

Lemma generateKBA_returns contextKey w :
  ∃ w', generateKBA env contextKey w = (Ok tt, w').
Proof.
  destruct (contexts w !! contextKey) as [context|] eqn:Hc.
  - destruct (ConversationContext.jiraTicket context) as [ticket|] eqn:Ht.
    + pose proof (generateKBA_runs contextKey w context ticket Hc Ht) as H.
      cbv zeta in H. destruct (openai_content env _ ticket _).
      * destruct H as (? & ? & -> & _). by eexists.
      * rewrite H. by eexists.
    + exists w. unfold generateKBA, Workflow.generateKBA. mstep. by rewrite Hc, Ht.
  - exists w. unfold generateKBA, Workflow.generateKBA. mstep. by rewrite Hc.
Qed.

End Drafting.

(** ** Counting generation requests *)

Lemma generation_calls_app l1 l2 :
  generation_calls (l1 ++ l2) = (generation_calls l1 + generation_calls l2)%nat.
Proof. unfold generation_calls. by rewrite filter_app, length_app. Qed.

Lemma generation_calls_draft_traffic events :
  Forall (λ e, is_draft_traffic e = true) events → generation_calls events = 0%nat.
Proof.
  unfold generation_calls. induction 1 as [|e events He _ IH]; [done|].
  rewrite filter_cons. destruct (decide (is_generation e = true)) as [Hg|]; [|done].
  by destruct e.
Qed.

Lemma generation_calls_post channel threadTs m l :
  generation_calls (PostMessage channel threadTs m :: l) = generation_calls l.
Proof. done. Qed.

(** ** Collecting answers *)

Section Answers.
Context (env : Env).
Import KBAGeneratorWorkflow.

Lemma answer_slots_empty : answer_slots ∅.
Proof. intros i _. apply lookup_empty. Qed.

Lemma answer_slots_fresh userAnswers :
  answer_slots userAnswers →
  userAnswers !! ("answer_" +:+ pretty (size userAnswers + 1)%nat) = None.
Proof. intros H. apply H. lia. Qed.

Lemma answer_slots_insert userAnswers answer :
  answer_slots userAnswers →
  let userAnswers' :=
    <["answer_" +:+ pretty (size userAnswers + 1)%nat := answer]> userAnswers in
  size userAnswers' = S (size userAnswers) ∧ answer_slots userAnswers'.
Proof.
  intros H. cbv zeta.
  assert (Hsize : size (<["answer_" +:+ pretty (size userAnswers + 1)%nat := answer]>
                          userAnswers) = S (size userAnswers)).
  { by apply map_size_insert_None, answer_slots_fresh. }
  split; [done|]. intros i Hi. rewrite Hsize in Hi.
  rewrite lookup_insert_ne; [apply H; lia|].
  intros Heq%String.app_inj%(inj pretty). lia.
Qed.

(** An answer event for a thread without a conversation in the
    asking-questions stage changes nothing and sends nothing. *)
Lemma handleAnswer_ignored channel threadTs userId answer w :
  (∀ context, contexts w !! (channel +:+ "-" +:+ threadTs) = Some context →
              ConversationContext.stage context ≠ asking_questions) →
  handleAnswer env channel threadTs userId answer w = (Ok tt, w).
Proof.
  intros H. unfold handleAnswer, Workflow.handleAnswer. mstep.
  destruct (contexts w !! _) as [context|] eqn:Hc; [|done].
  destruct (decide _) as [|Hstage]; [done|]. destruct Hstage. by apply H.
Qed.

(** An answer that leaves questions open is stored in the next slot. *)
Lemma handleAnswer_waiting channel threadTs userId answer w context :
  let contextKey := channel +:+ "-" +:+ threadTs in
  let userAnswers := ConversationContext.userAnswers context in
  let questionsAsked := ConversationContext.questionsAsked context in
  contexts w !! contextKey = Some context →
  ConversationContext.stage context = asking_questions →
  answer_slots userAnswers →
  (S (size userAnswers) < length questionsAsked)%nat →
  handleAnswer env channel threadTs userId answer w =
  (Ok tt,
   {| contexts :=
        <[contextKey :=
            ConversationContext.set_userAnswers
              (<["answer_" +:+ pretty (size userAnswers + 1)%nat := answer]> userAnswers)
              context]> (contexts w);
      log := PostMessage channel threadTs
               (MsgRemaining (length questionsAsked - S (size userAnswers))) ::
             log w |}).
Proof.
  intros contextKey userAnswers questionsAsked Hc Hstage Hslots Hlt.
  subst contextKey userAnswers questionsAsked.
  unfold handleAnswer, Workflow.handleAnswer. mstep. rewrite Hc.
  destruct (decide _) as [Hne|_]; [done|].
  destruct (answer_slots_insert _ answer Hslots) as [-> _].
  destruct (Nat.leb_spec (length (ConversationContext.questionsAsked context))
                         (S (size (ConversationContext.userAnswers context))));
    [lia|done].
Qed.

(** The answer that fills the last open slot starts generation, once. *)
Lemma handleAnswer_completes channel threadTs userId answer w context ticket :
  let contextKey := channel +:+ "-" +:+ threadTs in
  let userAnswers := ConversationContext.userAnswers context in
  let questionsAsked := ConversationContext.questionsAsked context in
  contexts w !! contextKey = Some context →
  ConversationContext.stage context = asking_questions →
  ConversationContext.jiraTicket context = Some ticket →
  answer_slots userAnswers →
  (length questionsAsked ≤ S (size userAnswers))%nat →
  let w' := exec (handleAnswer env channel threadTs userId answer) w in
  generation_calls (log w') = S (generation_calls (log w)) ∧
  (∀ context', contexts w' !! contextKey = Some context' →
     ConversationContext.stage context' = review ∧
     size (ConversationContext.userAnswers context') = S (size userAnswers)) ∧
  (∀ other, other ≠ contextKey → contexts w' !! other = contexts w !! other).
Proof.
  intros contextKey userAnswers questionsAsked Hc Hstage Ht Hslots Hle.
  subst userAnswers questionsAsked.
  unfold exec, handleAnswer, Workflow.handleAnswer. mstep. fold contextKey. rewrite Hc.
  destruct (decide _) as [Hne|_]; [done|].
  destruct (answer_slots_insert _ answer Hslots) as [Hsize _].
  rewrite Hsize.
  destruct (Nat.leb_spec (length (ConversationContext.questionsAsked context))
                         (S (size (ConversationContext.userAnswers context))));
    [|lia].
  mstep.
  match goal with
  | |- context [generateKBA env contextKey ?W] =>
      pose proof (generateKBA_runs env contextKey W _ ticket
                    (lookup_insert_eq _ _ _) Ht) as Hgen
  end.
  cbv zeta in Hgen. mstep in Hgen.
  destruct (openai_content env _ ticket _) as [content|e].
  - destruct Hgen as (images & events & -> & Hev). cbn [snd contexts log].
    split; [|split].
    + by rewrite generation_calls_app, (generation_calls_draft_traffic _ Hev).
    + intros context'. rewrite lookup_insert_eq. by intros [= <-].
    + intros other Hother. by rewrite !lookup_insert_ne.
  - rewrite Hgen. cbn [snd contexts log]. split; [|split].
    + done.
    + intros context'. by rewrite lookup_delete_eq.
    + intros other Hother. by rewrite lookup_delete_ne, lookup_insert_ne.
Qed.

Lemma run_ops_app ops1 ops2 w :
  run_ops env (ops1 ++ ops2) w = run_ops env ops2 (run_ops env ops1 w).
Proof. revert w. induction ops1 as [|op ops1 IH]; intros w; [done|]. apply IH. Qed.

Lemma submitAnswers_app channel threadTs userId answers1 answers2 w :
  submitAnswers env channel threadTs userId (answers1 ++ answers2) w =
  submitAnswers env channel threadTs userId answers2
    (submitAnswers env channel threadTs userId answers1 w).
Proof. unfold submitAnswers. by rewrite fmap_app, run_ops_app. Qed.

Lemma submitAnswers_ignored channel threadTs userId answers w :
  (∀ context, contexts w !! (channel +:+ "-" +:+ threadTs) = Some context →
              ConversationContext.stage context ≠ asking_questions) →
  submitAnswers env channel threadTs userId answers w = w.
Proof.
  intros H. induction answers as [|answer answers IH]; [done|].
  unfold submitAnswers. cbn [fmap list_fmap run_ops run_op]. unfold exec.
  by rewrite handleAnswer_ignored.
Qed.

(** While questions stay open, every answer is stored and nothing is
    generated. *)
Lemma submitAnswers_waiting channel threadTs userId answers :
  let contextKey := channel +:+ "-" +:+ threadTs in
  ∀ w context,
    contexts w !! contextKey = Some context →
    ConversationContext.stage context = asking_questions →
    answer_slots (ConversationContext.userAnswers context) →
    (size (ConversationContext.userAnswers context) + length answers <
     length (ConversationContext.questionsAsked context))%nat →
    let w' := submitAnswers env channel threadTs userId answers w in
    generation_calls (log w') = generation_calls (log w) ∧
    ∃ context',
      contexts w' !! contextKey = Some context' ∧
      ConversationContext.stage context' = asking_questions ∧
      answer_slots (ConversationContext.userAnswers context') ∧
      size (ConversationContext.userAnswers context') =
        (size (ConversationContext.userAnswers context) + length answers)%nat ∧
      ConversationContext.questionsAsked context' =
        ConversationContext.questionsAsked context ∧
      ConversationContext.jiraTicket context' =
        ConversationContext.jiraTicket context.
Proof.
  intros contextKey. induction answers as [|answer answers IH];
    intros w context Hc Hstage Hslots Hlt; cbv zeta.
  - split; [done|]. exists context. rewrite Nat.add_0_r. done.
  - cbn [length] in Hlt.
    unfold submitAnswers. cbn [fmap list_fmap run_ops run_op]. unfold exec.
    rewrite (handleAnswer_waiting channel threadTs userId answer w context
               Hc Hstage Hslots) by lia.
    cbn [snd]. fold contextKey.
    destruct (answer_slots_insert _ answer Hslots) as [Hsize Hslots'].
    match goal with
    | |- context [run_ops env _ ?W] =>
        edestruct (IH W) as (Hcalls & context' & Hc' & Hstage' & Hs' & Hn' & Hq' & Ht');
          [ cbn [contexts]; apply lookup_insert_eq
          | exact Hstage
          | exact Hslots'
          | cbn [ConversationContext.set_userAnswers
                 ConversationContext.userAnswers
                 ConversationContext.questionsAsked];
            rewrite Hsize; lia
          | ]
    end.
    fold (submitAnswers env channel threadTs userId answers).
    split.
    + rewrite Hcalls. done.
    + exists context'. repeat split; try done.
      rewrite Hn'. cbn [ConversationContext.set_userAnswers
                        ConversationContext.userAnswers length].
      rewrite Hsize. lia.
Qed.

(** The answers of a conversation over the chat that delivers.  Take a
    conversation waiting for the answers to its N >= 1 clarifying
    questions.  While fewer than N answers were submitted,
    content generation has not been requested and every submission sits in
    the answer set.  The N-th answer requests content generation, exactly
    once; what is left of the conversation is then under review with
    exactly N answers.  Further answer messages are not accepted: they
    leave the world as it is.  An answer for a thread that has no
    conversation, or whose conversation is not in the asking-questions
    stage, changes nothing and sends nothing. *)
Lemma delivered_answers_generate_once
    channel threadTs userId w context ticket (answers extra : list string) :
  let contextKey := channel +:+ "-" +:+ threadTs in
  let submit := submitAnswers env channel threadTs userId in
  contexts w !! contextKey = Some context →
  ConversationContext.stage context = asking_questions →
  ConversationContext.userAnswers context = ∅ →
  ConversationContext.jiraTicket context = Some ticket →
  length answers = length (ConversationContext.questionsAsked context) →
  (1 ≤ length answers)%nat →
  (∀ n, (n < length answers)%nat →
     generation_calls (log (submit (take n answers) w)) =
       generation_calls (log w) ∧
     ∃ context',
       contexts (submit (take n answers) w) !! contextKey = Some context' ∧
       ConversationContext.stage context' = asking_questions ∧
       size (ConversationContext.userAnswers context') = n) ∧
  generation_calls (log (submit answers w)) = S (generation_calls (log w)) ∧
  (∀ context',
     contexts (submit answers w) !! contextKey = Some context' →
     ConversationContext.stage context' = review ∧
     size (ConversationContext.userAnswers context') = length answers) ∧
  submit (answers ++ extra) w = submit answers w ∧
  (∀ w0 answer,
     (∀ context0, contexts w0 !! contextKey = Some context0 →
                  ConversationContext.stage context0 ≠ asking_questions) →
     handleAnswer env channel threadTs userId answer w0 = (Ok tt, w0)).
Proof.
  intros contextKey submit Hc Hstage Hempty Ht Hlen Hpos.
  assert (Hslots : answer_slots (ConversationContext.userAnswers context))
    by (rewrite Hempty; apply answer_slots_empty).
  assert (Hsize0 : size (ConversationContext.userAnswers context) = 0%nat)
    by (by rewrite Hempty, map_size_empty).
  assert (Hprefix : ∀ n, (n < length answers)%nat →
    generation_calls (log (submit (take n answers) w)) = generation_calls (log w) ∧
    ∃ context',
      contexts (submit (take n answers) w) !! contextKey = Some context' ∧
      ConversationContext.stage context' = asking_questions ∧
      answer_slots (ConversationContext.userAnswers context') ∧
      size (ConversationContext.userAnswers context') = n ∧
      ConversationContext.questionsAsked context' =
        ConversationContext.questionsAsked context ∧
      ConversationContext.jiraTicket context' = Some ticket).
  { intros n Hn.
    destruct (submitAnswers_waiting channel threadTs userId (take n answers)
                w context Hc Hstage Hslots)
      as (Hcalls & context' & Hc' & Hstage' & Hs' & Hn' & Hq' & Ht').
    { rewrite length_take. lia. }
    split; [done|]. exists context'. repeat split; try done.
    - rewrite Hn', length_take. lia.
    - by rewrite Ht'. }
  (* the last answer *)
  destruct (Hprefix (length answers - 1)%nat ltac:(lia))
    as (Hcalls & context1 & Hc1 & Hstage1 & Hslots1 & Hsize1 & Hq1 & Ht1).
  assert (Hsplit : ∃ last, answers = take (length answers - 1) answers ++ [last]).
  { destruct (drop (length answers - 1) answers) as [|last [|? ?]] eqn:Hdrop.
    - apply (f_equal length) in Hdrop. rewrite length_drop in Hdrop. simpl in Hdrop. lia.
    - exists last. by rewrite <- Hdrop, take_drop.
    - apply (f_equal length) in Hdrop. rewrite length_drop in Hdrop. simpl in Hdrop. lia. }
  destruct Hsplit as [last Hsplit].
  assert (Hfinal : submit answers w =
    exec (handleAnswer env channel threadTs userId last)
         (submit (take (length answers - 1) answers) w)).
  { rewrite Hsplit at 1. unfold submit. by rewrite submitAnswers_app. }
  destruct (handleAnswer_completes channel threadTs userId last _ context1 ticket
              Hc1 Hstage1 Ht1 Hslots1) as (Hgen & Hreview & _).
  { rewrite Hq1, Hsize1. lia. }
  rewrite <- Hfinal in Hgen, Hreview.
  split; [|split; [|split; [|split]]].
  - intros n Hn. destruct (Hprefix n Hn) as (? & context' & ? & ? & ? & ? & ?).
    split; [done|]. by exists context'.
  - by rewrite Hgen, Hcalls.
  - intros context' Hc'. destruct (Hreview context' Hc') as [? Hn].
    split; [done|]. rewrite Hn, Hsize1. lia.
  - unfold submit. rewrite submitAnswers_app. apply submitAnswers_ignored.
    intros context' Hc'. destruct (Hreview context' Hc') as [-> _]. done.
  - intros w0 answer Hnot. by apply handleAnswer_ignored.
Qed.

End Answers.

(** ** Starting a conversation *)

Section Start.
Context (env : Env).
Import KBAGeneratorWorkflow.

(** What [startWorkflow] does, by the answers of the collaborators. *)
Lemma startWorkflow_runs channel threadTs userId jiraUrl w :
  let contextKey := channel +:+ "-" +:+ threadTs in
  let post := PostMessage channel threadTs in
  match JiraService.extractTicketKey jiraUrl with
  | None =>
      startWorkflow env channel threadTs userId jiraUrl w =
      (Ok tt, {| contexts := contexts w;
                 log := post MsgNoTicketKey :: post MsgAnalyzing :: log w |})
  | Some ticketKey =>
      match jira_getTicket env (S (now w)) ticketKey with
      | Err e =>
          startWorkflow env channel threadTs userId jiraUrl w =
          (Ok tt, {| contexts := delete contextKey (contexts w);
                     log := post (MsgStartError e) :: GetTicket ticketKey ::
                            post MsgAnalyzing :: log w |})
      | Ok ticket =>
          let fetched :=
            post (MsgTicketFound ticket) :: GetTicket ticketKey ::
            post MsgAnalyzing :: log w in
          match openai_questions env (3 + now w) ticket with
          | Err e =>
              startWorkflow env channel threadTs userId jiraUrl w =
              (Ok tt, {| contexts := delete contextKey (contexts w);
                         log := post (MsgStartError e) ::
                                GenerateClarifyingQuestions ticket :: fetched |})
          | Ok questions =>
              let asked :=
                {| contexts :=
                     <[contextKey := asking channel threadTs userId ticket questions]>
                       (contexts w);
                   log := GenerateClarifyingQuestions ticket :: fetched |} in
              match questions with
              | [] =>
                  startWorkflow env channel threadTs userId jiraUrl w =
                  generateKBA env contextKey asked
              | _ :: _ =>
                  startWorkflow env channel threadTs userId jiraUrl w =
                  (Ok tt, {| contexts := contexts asked;
                             log := post (MsgQuestions questions) :: log asked |})
              end
          end
      end
  end.
Proof.
  cbv zeta. unfold startWorkflow, Workflow.startWorkflow. mstep.
  destruct (JiraService.extractTicketKey jiraUrl) as [ticketKey|]; [|done].
  mstep.
  destruct (jira_getTicket env _ ticketKey) as [ticket|e]; [|done].
  destruct (openai_questions env _ ticket) as [questions|e].
  - destruct questions as [|q questions]; cbn [length Nat.eqb]; mstep.
    + rewrite insert_insert_eq. unfold asking.
      match goal with
      | |- context [generateKBA env ?k ?W] =>
          destruct (generateKBA_returns env k W) as [w' ->]
      end.
      done.
    + by rewrite insert_insert_eq.
  - mstep. by rewrite delete_insert_eq.
Qed.

Lemma draft_traffic_asks_nothing events :
  Forall (λ e, is_draft_traffic e = true) events →
  Forall (λ e, asks_for_answers e = false) events.
Proof.
  intros H. eapply Forall_impl; [exact H|].
  intros [? ? []| | | | | | | | | |]; done.
Qed.

(** Over a chat that delivers, a start that fails leaves no conversation
    behind.  When no
    ticket key can be parsed from the text, the user is told so and the
    stored contexts are what they were.  When the ticket fetch, the
    question generation or (for a ticket without questions) the content
    generation fails, the failure is reported with its reason and the
    context of the thread is removed.  In every case a thread that had no
    context before the start has none after it. *)
Lemma startWorkflow_fails_closed channel threadTs userId jiraUrl w f :
  start_fails env w jiraUrl f →
  let contextKey := channel +:+ "-" +:+ threadTs in
  let w' := exec (startWorkflow env channel threadTs userId jiraUrl) w in
  head (log w') = Some (PostMessage channel threadTs (failure_report f)) ∧
  contexts w' =
    match f with
    | ParseFailure => contexts w
    | _ => delete contextKey (contexts w)
    end ∧
  (contexts w !! contextKey = None → contexts w' !! contextKey = None).
Proof.
  intros Hf contextKey w'.
  assert (Hmain :
    head (log w') = Some (PostMessage channel threadTs (failure_report f)) ∧
    contexts w' =
      match f with
      | ParseFailure => contexts w
      | _ => delete contextKey (contexts w)
      end).
  { subst w'. unfold exec.
    pose proof (startWorkflow_runs channel threadTs userId jiraUrl w) as Hrun.
    cbv zeta in Hrun. fold contextKey in Hrun.
    destruct f as [|ticketKey e|ticketKey ticket e|ticketKey ticket e];
      cbn [start_fails] in Hf.
    - rewrite Hf in Hrun. by rewrite Hrun.
    - destruct Hf as [Hk He]. rewrite Hk, He in Hrun. by rewrite Hrun.
    - destruct Hf as (Hk & Ht & He). rewrite Hk, Ht, He in Hrun. by rewrite Hrun.
    - destruct Hf as (Hk & Ht & Hq & He). rewrite Hk, Ht, Hq in Hrun.
      rewrite Hrun. unfold asking.
      match goal with
      | |- context [generateKBA env contextKey ?W] =>
          pose proof (generateKBA_runs env contextKey W _ ticket
                        (lookup_insert_eq _ _ _) eq_refl) as Hgen
      end.
      cbv zeta in Hgen. mstep in Hgen.
      change (S (S (S (S (S (length (log w))))))) with (5 + now w)%nat in Hgen.
      rewrite He in Hgen. rewrite Hgen. cbn [snd log contexts head failure_report].
      by rewrite delete_insert_eq. }
  destruct Hmain as [Hreport Hcontexts]. repeat split; [done|done|].
  intros Hnone. rewrite Hcontexts. destruct f; [done|..];
    apply lookup_delete_eq.
Qed.

(** C8.  When question generation answers with no question, the start
    goes on to content generation at once: the request for the content is
    the next call after the one for the questions, nothing the start sends
    asks for answers or reports open questions, and the conversation, if it
    survives generation, is under review when the start returns and not
    waiting in the asking-questions stage. *)
Theorem zero_questions_generate_immediately
    channel threadTs userId jiraUrl w ticketKey ticket :
  JiraService.extractTicketKey jiraUrl = Some ticketKey →
  jira_getTicket env (S (now w)) ticketKey = Ok ticket →
  openai_questions env (3 + now w) ticket = Ok [] →
  let contextKey := channel +:+ "-" +:+ threadTs in
  let post := PostMessage channel threadTs in
  let w' := exec (startWorkflow env channel threadTs userId jiraUrl) w in
  ∃ events,
    log w' =
      events ++
      [ GenerateKBAContent ticket ∅; post MsgGeneratingContent;
        GenerateClarifyingQuestions ticket; post (MsgTicketFound ticket);
        GetTicket ticketKey; post MsgAnalyzing ] ++ log w ∧
    Forall (λ e, asks_for_answers e = false) events ∧
    (∀ context, contexts w' !! contextKey = Some context →
                ConversationContext.stage context = review).
Proof.
  intros Hk Ht Hq contextKey post w'. subst w'. unfold exec.
  pose proof (startWorkflow_runs channel threadTs userId jiraUrl w) as Hrun.
  cbv zeta in Hrun. fold contextKey post in Hrun.
  rewrite Hk, Ht, Hq in Hrun. rewrite Hrun. unfold asking.
  match goal with
  | |- context [generateKBA env contextKey ?W] =>
      pose proof (generateKBA_runs env contextKey W _ ticket
                    (lookup_insert_eq _ _ _) eq_refl) as Hgen
  end.
  cbv zeta in Hgen. mstep in Hgen.
  destruct (openai_content env _ ticket ∅) as [content|e].
  - destruct Hgen as (images & events & -> & Hev).
    exists events. cbn [snd log contexts]. repeat split.
    + by apply draft_traffic_asks_nothing.
    + intros context. rewrite lookup_insert_eq. by intros [= <-].
  - rewrite Hgen. exists [post (MsgGenerationError e)].
    cbn [snd log contexts]. repeat split.
    + by repeat constructor.
    + intros context. by rewrite lookup_delete_eq.
Qed.

End Start.

(** ** Publishing *)

Section Publishing.
Context (env : Env).
Import ConfluenceService KBAGeneratorWorkflow.

Lemma uploadedFilenames_app l1 l2 :
  uploadedFilenames (l1 ++ l2) = uploadedFilenames l2 ++ uploadedFilenames l1.
Proof. unfold uploadedFilenames. by rewrite rev_app_distr, bind_app. Qed.

(** An image is uploaded under its attachment file name, or not at all. *)
Lemma uploadImage_runs pageId image w :
  ∃ events,
    uploadImage env pageId image w = (Ok tt, extend w events) ∧
    Forall (λ e, is_upload_traffic e = true) events ∧
    (uploadedFilenames events = [attachmentFilename image] ∨
     uploadedFilenames events = []) ∧
    (reliable_uploads env →
     uploadedFilenames events = [attachmentFilename image]).
Proof.
  unfold uploadImage. mstep.
  destruct (http_download env (length (log w)) _) as [data|e] eqn:Hd.
  - destruct (confluence_post_attachment env _ pageId _) as [[]|e] eqn:Ha;
      (eexists; split; [unfold extend; do 2 f_equal; logged|]);
      (split; [by repeat constructor|]); (split; [by left|done]).
  - (eexists; split; [unfold extend; do 2 f_equal; logged|]).
    split; [by repeat constructor|]. split; [by right|].
    intros [Hdown _]. destruct (Hdown (length (log w)) (GeneratedImage.url image)).
    congruence.
Qed.

Lemma uploadImages_runs pageId images w :
  ∃ events,
    uploadImages env pageId images w = (Ok tt, extend w events) ∧
    Forall (λ e, is_upload_traffic e = true) events ∧
    uploadedFilenames events ⊆ attachmentFilename <$> images ∧
    (reliable_uploads env →
     uploadedFilenames events = attachmentFilename <$> images).
Proof.
  unfold uploadImages. revert w.
  induction images as [|image images IH]; intros w.
  - exists []. by rewrite extend_nil.
  - cbn [for_each]. unfold bind at 1.
    destruct (uploadImage_runs pageId image w) as (ev1 & -> & H1 & Hsub1 & Hall1).
    destruct (IH (extend w ev1)) as (ev2 & -> & H2 & Hsub2 & Hall2).
    exists (ev2 ++ ev1). rewrite extend_extend, uploadedFilenames_app.
    split; [done|]. split; [by apply Forall_app|]. split.
    + cbn [fmap list_fmap]. intros filename [Hin|Hin]%elem_of_app.
      * destruct Hsub1 as [Heq|Heq]; rewrite Heq in Hin.
        -- apply list_elem_of_singleton in Hin as ->. apply list_elem_of_here.
        -- by apply elem_of_nil in Hin.
      * apply list_elem_of_further. by apply Hsub2.
    + intros Hrel. by rewrite Hall1, Hall2.
Qed.

(** The page creation decides alone whether [createKBAPage] fails. *)
Lemma createKBAPage_runs content images jiraKey w :
  let page := kbaPage env content images jiraKey in
  match confluence_post_content env (now w) page with
  | Err e =>
      createKBAPage env content images jiraKey w =
      (Err ("Failed to create Confluence page: " +:+ e),
       extend w [PostContent page])
  | Ok pageId =>
      ∃ events,
        createKBAPage env content images jiraKey w =
        (Ok (confluenceHost env +:+ "/wiki/spaces/" +:+ spaceKey env +:+
             "/pages/" +:+ pageId),
         extend w (events ++ [PostContent page])) ∧
        Forall (λ e, is_upload_traffic e = true) events
  end.
Proof.
  cbv zeta. unfold createKBAPage. mstep.
  destruct (confluence_post_content env _ _) as [pageId|e]; [|done].
  match goal with
  | |- context [uploadImages env pageId images ?W] =>
      destruct (uploadImages_runs pageId images W) as (events & -> & Hev & _)
  end.
  exists events. split; [|done]. unfold extend. cbn [contexts log].
  by rewrite <- app_assoc.
Qed.

(** What an approval does to a conversation that has a draft. *)
Lemma approveAndPublish_runs contextKey userId w context kbaDraft ticket :
  contexts w !! contextKey = Some context →
  ConversationContext.kbaDraft context = Some kbaDraft →
  ConversationContext.jiraTicket context = Some ticket →
  let post := PostMessage (ConversationContext.channel context)
                          (ConversationContext.threadTs context) in
  let page := kbaPage env (KBADraft.content kbaDraft) (KBADraft.images kbaDraft)
                      (JiraTicket.key ticket) in
  match confluence_post_content env (S (now w)) page with
  | Err e =>
      approveAndPublish env contextKey userId w =
      (Ok tt,
       {| contexts := contexts w;
          log := post (MsgPublishError ("Failed to create Confluence page: " +:+ e)) ::
                 PostContent page :: post MsgPublishing :: log w |})
  | Ok pageId =>
      ∃ events,
        approveAndPublish env contextKey userId w =
        (Ok tt,
         {| contexts :=
              <[contextKey := ConversationContext.set_stage complete context]>
                (contexts w);
            log := SetTimeout contextKey 60000 ::
                   post (MsgPublished
                           (confluenceHost env +:+ "/wiki/spaces/" +:+ spaceKey env +:+
                            "/pages/" +:+ pageId)
                           (JiraTicket.key ticket)) ::
                   events ++ PostContent page :: post MsgPublishing :: log w |}) ∧
        Forall (λ e, is_upload_traffic e = true) events
  end.
Proof.
  intros Hc Hd Ht. cbv zeta. unfold approveAndPublish, Workflow.approveAndPublish. mstep.
  rewrite Hc, Hd, Ht. mstep.
  match goal with
  | |- context [createKBAPage env ?c ?i ?k ?W] =>
      pose proof (createKBAPage_runs c i k W) as Hrun
  end.
  cbv zeta in Hrun. mstep in Hrun.
  destruct (confluence_post_content env _ _) as [pageId|e].
  - destruct Hrun as (events & -> & Hev). unfold extend. mstep.
    exists events. split; [|done]. by rewrite <- app_assoc.
  - rewrite Hrun. unfold extend. by mstep.
Qed.

Lemma generation_calls_upload_traffic events :
  Forall (λ e, is_upload_traffic e = true) events → generation_calls events = 0%nat.
Proof.
  unfold generation_calls. induction 1 as [|e events He _ IH]; [done|].
  rewrite filter_cons. destruct (decide (is_generation e = true)) as [Hg|]; [|done].
  by destruct e.
Qed.

(** C5.  Take a conversation under review, with its draft.  When the page
    creation of an approval fails, the failure is reported, every context
    is kept as it was (so the conversation is still under review with the
    same draft), and a second approval is accepted: it requests the page
    creation again, requests no content generation, and completes the
    conversation when the page creation then succeeds.  A failure of
    content generation, in contrast, removes the context. *)
Theorem approval_failure_keeps_context
    contextKey userId userId' w context kbaDraft ticket e :
  let post := PostMessage (ConversationContext.channel context)
                          (ConversationContext.threadTs context) in
  let page := kbaPage env (KBADraft.content kbaDraft) (KBADraft.images kbaDraft)
                      (JiraTicket.key ticket) in
  contexts w !! contextKey = Some context →
  ConversationContext.stage context = review →
  ConversationContext.kbaDraft context = Some kbaDraft →
  ConversationContext.jiraTicket context = Some ticket →
  confluence_post_content env (S (now w)) page = Err e →
  let w1 := exec (approveAndPublish env contextKey userId) w in
  let w2 := exec (approveAndPublish env contextKey userId') w1 in
  contexts w1 = contexts w ∧
  log w1 = post (MsgPublishError ("Failed to create Confluence page: " +:+ e)) ::
           PostContent page :: post MsgPublishing :: log w ∧
  (∃ events, log w2 = events ++ PostContent page :: post MsgPublishing :: log w1 ∧
             generation_calls events = 0%nat) ∧
  generation_calls (log w2) = generation_calls (log w) ∧
  (∀ pageId, confluence_post_content env (S (now w1)) page = Ok pageId →
     contexts w2 !! contextKey =
       Some (ConversationContext.set_stage complete context)) ∧
  (∀ w0 context0 ticket0 e0,
     contexts w0 !! contextKey = Some context0 →
     ConversationContext.jiraTicket context0 = Some ticket0 →
     openai_content env (S (now w0)) ticket0
                    (ConversationContext.userAnswers context0) = Err e0 →
     contexts (exec (generateKBA env contextKey) w0) !! contextKey = None).
Proof.
  intros post page Hc Hstage Hd Ht Hfail w1 w2.
  pose proof (approveAndPublish_runs contextKey userId w context kbaDraft ticket
                Hc Hd Ht) as H1.
  cbv zeta in H1. fold post page in H1. rewrite Hfail in H1.
  assert (Hw1 : w1 =
    {| contexts := contexts w;
       log := post (MsgPublishError ("Failed to create Confluence page: " +:+ e)) ::
              PostContent page :: post MsgPublishing :: log w |})
    by (subst w1; unfold exec; by rewrite H1).
  assert (Hc1 : contexts w1 !! contextKey = Some context) by (by rewrite Hw1).
  pose proof (approveAndPublish_runs contextKey userId' w1 context kbaDraft ticket
                Hc1 Hd Ht) as H2.
  cbv zeta in H2. fold post page in H2.
  assert (Hsecond :
    (∃ events, log w2 = events ++ PostContent page :: post MsgPublishing :: log w1 ∧
               generation_calls events = 0%nat) ∧
    (∀ pageId, confluence_post_content env (S (now w1)) page = Ok pageId →
       contexts w2 !! contextKey =
         Some (ConversationContext.set_stage complete context))).
  { subst w2. unfold exec.
    destruct (confluence_post_content env (S (now w1)) page) as [pageId|e2].
    - destruct H2 as (events & -> & Hev). cbn [snd log contexts]. split.
      + eexists (_ :: _ :: events). split; [done|].
        unfold generation_calls. rewrite !filter_cons. cbn [is_generation].
        by apply generation_calls_upload_traffic.
      + intros ? _. apply lookup_insert_eq.
    - rewrite H2. cbn [snd log contexts]. split; [by eexists [_]|done]. }
  destruct Hsecond as [(events & Hlog2 & Hnone) Hdone].
  repeat split.
  - by rewrite Hw1.
  - by rewrite Hw1.
  - by exists events.
  - rewrite Hlog2, generation_calls_app, Hnone, Hw1. done.
  - done.
  - intros w0 context0 ticket0 e0 Hc0 Ht0 He0.
    pose proof (generateKBA_runs env contextKey w0 context0 ticket0 Hc0 Ht0) as Hgen.
    cbv zeta in Hgen. rewrite He0 in Hgen. unfold exec. rewrite Hgen.
    apply lookup_delete_eq.
Qed.

(** C10.  An approval for a thread key that has no context, or whose
    context has no draft, returns without touching the contexts and
    without sending anything; so do a change request and a cancellation for
    a thread key that has no context. *)
Theorem unknown_context_is_noop contextKey userId w :
  (∀ context, contexts w !! contextKey = Some context →
              ConversationContext.kbaDraft context = None) →
  approveAndPublish env contextKey userId w = (Ok tt, w) ∧
  (contexts w !! contextKey = None →
   requestChanges contextKey w = (Ok tt, w) ∧
   cancelKBA contextKey w = (Ok tt, w)).
Proof.
  intros H. split.
  - unfold approveAndPublish, Workflow.approveAndPublish. mstep.
    destruct (contexts w !! contextKey) as [context|]; [|done].
    by rewrite (H context eq_refl).
  - intros Hnone. unfold requestChanges, Workflow.requestChanges, cancelKBA, Workflow.cancelKBA. mstep. by rewrite Hnone.
Qed.

End Publishing.

(** ** The bound on the answers *)

Section Invariant.
Context (env : Env).
Import KBAGeneratorWorkflow.

Lemma invariant_insert contextKey context w l :
  workflow_invariant w →
  is_Some (ConversationContext.jiraTicket context) →
  (ConversationContext.stage context = asking_questions →
   answers_within_questions context) →
  workflow_invariant
    {| contexts := <[contextKey := context]> (contexts w); log := l |}.
Proof.
  intros [Hticket Hbound] Ht Hb. split.
  - intros k c. cbn [contexts]. rewrite lookup_insert.
    case_decide; [intros [= <-]; done | apply Hticket].
  - intros k c. cbn [contexts]. rewrite lookup_insert.
    case_decide; [intros [= <-]; done | apply Hbound].
Qed.

Lemma invariant_delete contextKey w l :
  workflow_invariant w →
  workflow_invariant {| contexts := delete contextKey (contexts w); log := l |}.
Proof.
  intros [Hticket Hbound]. split; intros k c; cbn [contexts];
    rewrite lookup_delete; case_decide; try done; [apply Hticket | apply Hbound].
Qed.

Lemma invariant_log w l :
  workflow_invariant w →
  workflow_invariant {| contexts := contexts w; log := l |}.
Proof. by intros [Hticket Hbound]. Qed.

(** Generation leaves the context under review or removes it. *)
Lemma generateKBA_invariant contextKey context l w :
  workflow_invariant w →
  is_Some (ConversationContext.jiraTicket context) →
  workflow_invariant
    (exec (generateKBA env contextKey)
          {| contexts := <[contextKey := context]> (contexts w); log := l |}).
Proof.
  intros Hinv [ticket Ht]. unfold exec.
  match goal with
  | |- context [generateKBA env contextKey ?W] =>
      pose proof (generateKBA_runs env contextKey W context ticket
                    (lookup_insert_eq _ _ _) Ht) as Hgen
  end.
  cbv zeta in Hgen.
  destruct (openai_content env _ ticket _) as [content|e].
  - destruct Hgen as (images & events & -> & _). cbn [snd contexts].
    rewrite insert_insert_eq. apply invariant_insert; [done| |done].
    cbn. by rewrite Ht.
  - rewrite Hgen. cbn [snd contexts]. rewrite delete_insert_eq.
    by apply invariant_delete.
Qed.

Lemma startWorkflow_invariant channel threadTs userId jiraUrl w :
  workflow_invariant w →
  workflow_invariant (exec (startWorkflow env channel threadTs userId jiraUrl) w).
Proof.
  intros Hinv. unfold exec.
  pose proof (startWorkflow_runs env channel threadTs userId jiraUrl w) as Hrun.
  cbv zeta in Hrun.
  destruct (JiraService.extractTicketKey jiraUrl) as [ticketKey|];
    [|rewrite Hrun; by apply invariant_log].
  destruct (jira_getTicket env _ ticketKey) as [ticket|e];
    [|rewrite Hrun; by apply invariant_delete].
  destruct (openai_questions env _ ticket) as [[|q questions]|e];
    rewrite Hrun.
  - by apply generateKBA_invariant.
  - cbn [snd contexts]. apply invariant_insert; [done|done|].
    intros _. unfold answers_within_questions. cbn.
    rewrite map_size_empty. lia.
  - by apply invariant_delete.
Qed.

Lemma handleAnswer_invariant channel threadTs userId answer w :
  workflow_invariant w →
  workflow_invariant (exec (handleAnswer env channel threadTs userId answer) w).
Proof.
  intros Hinv. unfold exec, handleAnswer, Workflow.handleAnswer. mstep.
  destruct (contexts w !! _) as [context|] eqn:Hc; [|done].
  destruct (decide _) as [|_]; [done|]. mstep.
  destruct (Nat.leb_spec (length (ConversationContext.questionsAsked context))
              (size (<["answer_" +:+ pretty
                         (size (ConversationContext.userAnswers context) + 1)%nat
                       := answer]> (ConversationContext.userAnswers context))))
    as [Hle|Hlt]; mstep.
  - match goal with
    | |- context [generateKBA env ?k {| contexts := <[_ := ?c]> _; log := ?l |}] =>
        apply (generateKBA_invariant k c l w Hinv)
    end.
    cbn. by apply (proj1 Hinv _ _ Hc).
  - apply invariant_insert; [done| |].
    + cbn. by apply (proj1 Hinv _ _ Hc).
    + intros _. unfold answers_within_questions. cbn. lia.
Qed.

Lemma approveAndPublish_invariant contextKey userId w :
  workflow_invariant w →
  workflow_invariant (exec (approveAndPublish env contextKey userId) w).
Proof.
  intros Hinv. unfold exec.
  destruct (contexts w !! contextKey) as [context|] eqn:Hc;
    [|unfold approveAndPublish, Workflow.approveAndPublish; mstep; by rewrite Hc].
  destruct (ConversationContext.kbaDraft context) as [kbaDraft|] eqn:Hd;
    [|unfold approveAndPublish, Workflow.approveAndPublish; mstep; by rewrite Hc, Hd].
  destruct (proj1 Hinv _ _ Hc) as [ticket Ht].
  pose proof (approveAndPublish_runs env contextKey userId w context kbaDraft
                ticket Hc Hd Ht) as Hrun.
  cbv zeta in Hrun.
  destruct (confluence_post_content env _ _) as [pageId|e].
  - destruct Hrun as (events & -> & _). cbn [snd].
    apply invariant_insert; [done| |done]. cbn. by rewrite Ht.
  - rewrite Hrun. by apply invariant_log.
Qed.

Lemma invariant_step op w :
  workflow_invariant w →
  (∀ contextKey context,
     op = OpRequestChanges contextKey →
     contexts w !! contextKey = Some context →
     answers_within_questions context) →
  workflow_invariant (exec (run_op env op) w).
Proof.
  intros Hinv Hsafe.
  destruct op as [channel threadTs userId jiraUrl|channel threadTs userId answer
                 |contextKey userId|contextKey|contextKey|contextKey];
    cbn [run_op].
  - by apply startWorkflow_invariant.
  - by apply handleAnswer_invariant.
  - by apply approveAndPublish_invariant.
  - unfold exec, requestChanges, Workflow.requestChanges. mstep.
    destruct (contexts w !! contextKey) as [context|] eqn:Hc; [|done]. mstep.
    apply invariant_insert; [done| |].
    + cbn. by apply (proj1 Hinv _ _ Hc).
    + intros _. by apply (Hsafe contextKey context).
  - unfold exec, cancelKBA, Workflow.cancelKBA. mstep.
    destruct (contexts w !! contextKey) as [context|] eqn:Hc; [|done]. mstep.
    by apply invariant_delete.
  - unfold exec, cleanup, Workflow.cleanup. mstep. by apply invariant_delete.
Qed.

End Invariant.

(** ** The render requests of a bundle *)

Section Rendering.
Context (env : Env).
Import OpenAIService.

(** For a bundle of two steps in which only the first carries an image
    prompt, for both platforms, and when neither render request fails,
    [generateImages] issues exactly two render requests, for step 1 on mac
    and then for step 1 on windows, one right after the other, and none
    for step 2; one delay of 1000 ms follows the second request. *)
Lemma generateImages_both_platforms
    content step1 step2 imagePrompt response1 response2 w :
  KBAContent.steps content = [step1; step2] →
  KBAStep.imagePrompt step1 = Some imagePrompt →
  truthy (Some imagePrompt) = true →
  KBAStep.osType step1 = Some both →
  truthy (KBAStep.imagePrompt step2) = false →
  openai_image env (now w) (enhanceImagePrompt imagePrompt mac) = Ok response1 →
  openai_image env (S (now w)) (enhanceImagePrompt imagePrompt windows) =
    Ok response2 →
  generateImages env content w =
  (Ok (rendered step1 mac imagePrompt response1 ++
       rendered step1 windows imagePrompt response2),
   {| contexts := contexts w;
      log := [ Delay 1000;
               ImagesGenerate (KBAStep.stepNumber step1) windows
                              (enhanceImagePrompt imagePrompt windows);
               ImagesGenerate (KBAStep.stepNumber step1) mac
                              (enhanceImagePrompt imagePrompt mac) ] ++ log w |}).
Proof.
  intros Hsteps Hprompt Htruthy Hos Hnone Hmac Hwindows. unfold now in *.
  unfold generateImages. rewrite Hsteps. cbn [for_each].
  unfold renderStep. rewrite Hprompt, Hos, Htruthy.
  destruct (KBAStep.imagePrompt step2) as [[|c2 prompt2]|];
    try discriminate Hnone;
    destruct (KBAStep.osType step2) as [[os2|]|];
    cbn [truthy for_each]; mstep; rewrite Hmac;
    destruct response1 as [[|c1 url1]|]; mstep; rewrite Hwindows;
    destruct response2 as [[|c3 url3]|]; done.
Qed.

End Rendering.

(** ** Attachment names in the page body and in the uploads *)

Section Attachments.
Context (env : Env).
Import ConfluenceService.

Lemma referencedFilenames_app markup1 markup2 :
  referencedFilenames (markup1 ++ markup2) =
  referencedFilenames markup1 ++ referencedFilenames markup2.
Proof. unfold referencedFilenames. apply bind_app. Qed.

(** The body names an image of a step as [uploadImages] names it. *)
Lemma referenced_stepImages step images :
  referencedFilenames (stepImagesMarkup step images) =
  attachmentFilename <$>
    filter (λ img, GeneratedImage.stepNumber img = KBAStep.stepNumber step) images.
Proof.
  unfold stepImagesMarkup.
  induction images as [|image images IH]; [done|].
  rewrite filter_cons. case_decide as Hn; [|done].
  cbn [mbind list_bind fmap list_fmap]. rewrite referencedFilenames_app, IH.
  unfold attachmentFilename. by rewrite Hn.
Qed.

Lemma referenced_step images step :
  referencedFilenames (stepMarkup images step) =
  attachmentFilename <$>
    filter (λ img, GeneratedImage.stepNumber img = KBAStep.stepNumber step) images.
Proof.
  unfold stepMarkup. rewrite !referencedFilenames_app, referenced_stepImages.
  by destruct (KBAStep.codeSnippet step) as [[|? ?]|].
Qed.

Lemma referenced_markup content images jiraKey :
  referencedFilenames (generateConfluenceMarkup env content images jiraKey) =
  KBAContent.steps content ≫= λ step,
    attachmentFilename <$>
      filter (λ img, GeneratedImage.stepNumber img = KBAStep.stepNumber step) images.
Proof.
  unfold generateConfluenceMarkup. rewrite !referencedFilenames_app.
  assert (Hsteps : ∀ steps,
    referencedFilenames (steps ≫= stepMarkup images) =
    steps ≫= λ step, attachmentFilename <$>
      filter (λ img, GeneratedImage.stepNumber img = KBAStep.stepNumber step) images).
  { induction steps as [|step steps IH]; [done|].
    cbn [mbind list_bind]. by rewrite referencedFilenames_app, referenced_step, IH. }
  rewrite Hsteps.
  destruct (KBAContent.additionalNotes content) as [[|? ?]|];
    cbn; by rewrite app_nil_r.
Qed.

Lemma append_cons c (x y : string) : String c x +:+ y = String c (x +:+ y).
Proof. reflexivity. Qed.

Lemma append_nil (x : string) : x +:+ EmptyString = x.
Proof. induction x as [|c x IH]; [done|]. by rewrite append_cons, IH. Qed.

Lemma append_assoc (a b c : string) : (a +:+ b) +:+ c = a +:+ (b +:+ c).
Proof. induction a as [|x a IH]; [done|]. by rewrite !append_cons, IH. Qed.

Lemma concat_cons (x : string) xs :
  String.concat EmptyString (x :: xs) = x +:+ String.concat EmptyString xs.
Proof. destruct xs as [|y ys]; [|done]. cbn. by rewrite append_nil. Qed.

(** Every fragment of the markup is a piece of the page body. *)
Lemma fragment_in_html f (markup : list Fragment) :
  f ∈ markup →
  ∃ before after,
    String.concat EmptyString (render <$> markup) = before +:+ render f +:+ after.
Proof.
  induction 1 as [f markup|f g markup _ (before & after & IH)];
    cbn [fmap list_fmap]; rewrite concat_cons.
  - by exists EmptyString, (String.concat EmptyString (render <$> markup)).
  - exists (render g +:+ before), after. by rewrite IH, append_assoc.
Qed.

Lemma referenced_fragment filename (markup : list Fragment) :
  filename ∈ referencedFilenames markup ↔ AttachmentImage filename ∈ markup.
Proof.
  unfold referencedFilenames. rewrite list_elem_of_bind. split.
  - intros ([text|name] & Hin & Hf); [by apply elem_of_nil in Hin|].
    apply list_elem_of_singleton in Hin as ->. done.
  - intros Hf. exists (AttachmentImage filename). split; [|done].
    by apply list_elem_of_singleton.
Qed.

(** C9, as the code has it.  [uploadImages] posts an image under the
    name [step-<stepNumber>-<platform>.png]; the page body refers to
    attachments by exactly the names of the images whose step number is
    that of a step of the content, and each such reference stands in the
    body as an attachment tag with that name.  Only names of images are
    ever uploaded.  When every download and every attachment upload
    succeeds, the uploaded names are the names of all images, so every
    reference of the body resolves to an uploaded attachment of the same
    name. *)
Theorem attachment_names_agree content images jiraKey pageId w :
  let markup := generateConfluenceMarkup env content images jiraKey in
  let html := generateConfluenceHTML env content images jiraKey in
  (∀ image,
     attachmentFilename image =
     "step-" +:+ pretty (GeneratedImage.stepNumber image) +:+ "-" +:+
     os_name (GeneratedImage.osType image) +:+ ".png") ∧
  (∀ filename,
     filename ∈ referencedFilenames markup ↔
     ∃ step image,
       step ∈ KBAContent.steps content ∧ image ∈ images ∧
       GeneratedImage.stepNumber image = KBAStep.stepNumber step ∧
       filename = attachmentFilename image) ∧
  (∀ filename,
     filename ∈ referencedFilenames markup →
     ∃ before after,
       html = before +:+ render (AttachmentImage filename) +:+ after) ∧
  ∃ events,
    uploadImages env pageId images w = (Ok tt, extend w events) ∧
    uploadedFilenames events ⊆ attachmentFilename <$> images ∧
    (reliable_uploads env →
     uploadedFilenames events = attachmentFilename <$> images ∧
     ∀ filename, filename ∈ referencedFilenames markup →
                 filename ∈ uploadedFilenames events).
Proof.
  cbv zeta.
  assert (Hrefs : ∀ filename,
    filename ∈ referencedFilenames
                 (generateConfluenceMarkup env content images jiraKey) ↔
    ∃ step image,
      step ∈ KBAContent.steps content ∧ image ∈ images ∧
      GeneratedImage.stepNumber image = KBAStep.stepNumber step ∧
      filename = attachmentFilename image).
  { intros filename. rewrite referenced_markup, list_elem_of_bind. split.
    - intros (step & (image & -> & [Hn Hin]%list_elem_of_filter)%list_elem_of_fmap
              & Hstep).
      by exists step, image.
    - intros (step & image & Hstep & Hin & Hn & ->). exists step. split; [|done].
      apply list_elem_of_fmap. exists image. split; [done|].
      by apply list_elem_of_filter. }
  split; [done|]. split; [done|]. split.
  - intros filename Hin%referenced_fragment. by apply fragment_in_html.
  - destruct (uploadImages_runs env pageId images w)
      as (events & Hrun & _ & Hsub & Hall).
    exists events. split; [done|]. split; [done|].
    intros Hrel. split; [by apply Hall|].
    intros filename (step & image & _ & Hin & _ & ->)%Hrefs.
    rewrite (Hall Hrel). apply list_elem_of_fmap. by exists image.
Qed.

End Attachments.

(** ** Scenarios *)

Section Scenarios.
Import Sample.

Example extract_browse_url :
  JiraService.extractTicketKey "https://host/browse/TECH-456" = Some "TECH-456".
Proof. reflexivity. Qed.

Example extract_bare_key :
  JiraService.extractTicketKey "please document PROJ-123, thanks" = Some "PROJ-123".
Proof. reflexivity. Qed.

Example extract_leftmost_longest :
  JiraService.extractTicketKey "xAB-12-CD-3" = Some "AB-12".
Proof. reflexivity. Qed.

Example extract_no_key :
  JiraService.extractTicketKey "nothing to see here - 42" = None.
Proof. reflexivity. Qed.

Example extract_lower_case :
  JiraService.extractTicketKey "proj-123" = None.
Proof. reflexivity. Qed.

(** C7, counterexample: a key written in lower case is letters, a dash and
    digits, and the parser finds no key in it, bare or in an address. *)
Lemma lower_case_key_is_no_match :
  letters_dash_digits "proj-123" ∧
  JiraService.extractTicketKey "proj-123" = None ∧
  JiraService.extractTicketKey "https://host/browse/tech-456" = None.
Proof.
  split; [|split; reflexivity].
  exists (list_ascii_of_string "proj"), (list_ascii_of_string "123").
  split; [reflexivity|]. split; [discriminate|]. split; [discriminate|].
  split; repeat constructor.
Qed.

(** C1, counterexample: two questions, two answers, a change request and
    one more message.  The message is stored as the third answer of the
    same answer set and content generation is requested a second time. *)
Lemma feedback_is_one_more_answer :
  let w := run_ops (env_ok ["Q1"; "Q2"])
             [ OpStart "C1" "100.1" "U1" "https://host/browse/TECH-456";
               OpAnswer "C1" "100.1" "U1" "It affects mac users";
               OpAnswer "C1" "100.1" "U1" "Since Monday";
               OpRequestChanges "C1-100.1";
               OpAnswer "C1" "100.1" "U1" "Please shorten step 2" ]
             empty_world in
  ∃ context,
    contexts w !! "C1-100.1" = Some context ∧
    length (ConversationContext.questionsAsked context) = 2%nat ∧
    size (ConversationContext.userAnswers context) = 3%nat ∧
    ConversationContext.userAnswers context !! "answer_3" =
      Some "Please shorten step 2" ∧
    generation_calls (log w) = 2%nat.
Proof. vm_compute. eexists. repeat split. Qed.

(** The acknowledgement of an answer that the chat rejects leaves the
    conversation waiting with the answer stored: the next message is
    stored as well, without any change request. *)
Lemma rejected_acknowledgement_breaks_bound :
  let w := run_ops_over (env_ok ["Q1"]) (rejecting [5; 6])
             [ OpStart "C1" "100.1" "U1" "https://host/browse/TECH-456";
               OpAnswer "C1" "100.1" "U1" "It affects mac users";
               OpAnswer "C1" "100.1" "U1" "Are you there?" ]
             empty_world in
  ∃ context,
    contexts w !! "C1-100.1" = Some context ∧
    length (ConversationContext.questionsAsked context) = 1%nat ∧
    ConversationContext.stage context = asking_questions ∧
    size (ConversationContext.userAnswers context) = 2%nat.
Proof. vm_compute. eexists. repeat split. Qed.

(** Two answers to two questions: one remaining-count message, then
    generation. *)
Example one_message_is_one_answer :
  head (log (submitAnswers (env_ok ["Q1"; "Q2"]) "C1" "100.1" "U1"
               ["answer to both"] (started ["Q1"; "Q2"]))) =
  Some (PostMessage "C1" "100.1" (MsgRemaining 1)).
Proof. vm_compute. reflexivity. Qed.

(** C2, counterexample: after a regeneration from feedback, a second
    change request puts a context with two answers to one question back
    into the asking-questions stage. *)
Lemma request_changes_breaks_bound :
  ¬ answers_bounded (run_ops (env_ok ["Q1"]) two_change_requests empty_world).
Proof.
  intros Hbound.
  assert (∃ context,
    contexts (run_ops (env_ok ["Q1"]) two_change_requests empty_world)
      !! "C1-100.1" = Some context ∧
    ConversationContext.stage context = asking_questions ∧
    size (ConversationContext.userAnswers context) = 2%nat ∧
    length (ConversationContext.questionsAsked context) = 1%nat)
    as (context & Hc & Hstage & Hsize & Hlen).
  { vm_compute. eexists. repeat split. }
  specialize (Hbound _ _ Hc Hstage). unfold answers_within_questions in Hbound.
  lia.
Qed.

(** C3, on the code as it is.  For the bundle of the claim, one step for
    both platforms and one step without prompt, two render requests are
    made, and they follow each other with no delay in between: the delay
    that is to keep the requests apart is awaited once, after both. *)
Lemma both_platforms_not_paced :
  length (filter (λ e, is_render e = true)
            (log (exec (OpenAIService.generateImages (env_ok []) content)
                       empty_world))) = 2%nat ∧
  paced (log (exec (OpenAIService.generateImages (env_ok []) content)
                   empty_world)) = false.
Proof. vm_compute. done. Qed.

(** C4, on the code as it is.  When the render for mac of a step
    tagged for both platforms fails, the render for windows of that step is
    not requested, although it would have succeeded: the step ends up with
    no image and only one request was made. *)
Theorem failed_render_skips_sibling :
  openai_image env_first_render_fails 1
    (OpenAIService.enhanceImagePrompt "A network settings window" windows) =
    Ok (Some "https://img/1.png") ∧
  OpenAIService.generateImages env_first_render_fails content empty_world =
  (Ok [],
   {| contexts := ∅;
      log := [ImagesGenerate 1 mac
                (OpenAIService.enhanceImagePrompt "A network settings window" mac)] |}).
Proof. split; reflexivity. Qed.

(** C9, counterexample: when the download of an image fails, the page
    body refers to its attachment, and no attachment is uploaded. *)
Lemma failed_download_leaves_reference :
  ConfluenceService.referencedFilenames
    (ConfluenceService.generateConfluenceMarkup env_download_fails content
       [image1] "TECH-456") = ["step-1-mac.png"] ∧
  PostContent (ConfluenceService.kbaPage env_download_fails content [image1]
                 "TECH-456")
    ∈ log (exec (ConfluenceService.createKBAPage env_download_fails content
                   [image1] "TECH-456") empty_world) ∧
  uploadedFilenames
    (log (exec (ConfluenceService.createKBAPage env_download_fails content
                  [image1] "TECH-456") empty_world)) = [].
Proof.
  split; [by vm_compute|]. split; [|by vm_compute].
  vm_compute. apply list_elem_of_further, list_elem_of_here.
Qed.

(** *** Instances of the theorems *)

Lemma zero_questions_generate_immediately_witness :
  ∃ events,
    log (started []) =
      events ++
      [ GenerateKBAContent ticket ∅;
        PostMessage "C1" "100.1" MsgGeneratingContent;
        GenerateClarifyingQuestions ticket;
        PostMessage "C1" "100.1" (MsgTicketFound ticket);
        GetTicket "TECH-456"; PostMessage "C1" "100.1" MsgAnalyzing ] ++ [] ∧
    Forall (λ e, asks_for_answers e = false) events ∧
    (∀ context, contexts (started []) !! "C1-100.1" = Some context →
                ConversationContext.stage context = review).
Proof.
  apply (zero_questions_generate_immediately (env_ok []) "C1" "100.1" "U1"
           "https://host/browse/TECH-456" empty_world "TECH-456" ticket);
    reflexivity.
Defined.

Lemma unknown_context_is_noop_witness :
  KBAGeneratorWorkflow.approveAndPublish (env_ok ["Q1"]) "C1-100.1" "U1"
    (started ["Q1"]) = (Ok tt, started ["Q1"]) ∧
  (contexts (started ["Q1"]) !! "C9-1.0" = None →
   KBAGeneratorWorkflow.requestChanges "C9-1.0" (started ["Q1"]) =
     (Ok tt, started ["Q1"]) ∧
   KBAGeneratorWorkflow.cancelKBA "C9-1.0" (started ["Q1"]) =
     (Ok tt, started ["Q1"])).
Proof.
  split.
  - apply (unknown_context_is_noop (env_ok ["Q1"]) "C1-100.1" "U1" (started ["Q1"])).
    intros context Hc. vm_compute in Hc. by injection Hc as <-.
  - apply (unknown_context_is_noop (env_ok ["Q1"]) "C9-1.0" "U1" (started ["Q1"])).
    intros context Hc. vm_compute in Hc. discriminate.
Defined.

Lemma approval_failure_keeps_context_witness :
  contexts (exec (KBAGeneratorWorkflow.approveAndPublish env_publish_fails_once
                    "C1-100.1" "U1") (started [])) = contexts (started []) ∧
  ConversationContext.stage <$>
    contexts (exec (KBAGeneratorWorkflow.approveAndPublish env_publish_fails_once
                      "C1-100.1" "U2")
               (exec (KBAGeneratorWorkflow.approveAndPublish env_publish_fails_once
                        "C1-100.1" "U1") (started []))) !! "C1-100.1" =
    Some complete.
Proof.
  destruct (approval_failure_keeps_context env_publish_fails_once
              "C1-100.1" "U1" "U2" (started []) review_context review_draft
              ticket "503")
    as (Hkept & _ & _ & _ & Hretry & _);
    [by vm_compute | by vm_compute | by vm_compute | by vm_compute
    | by vm_compute |].
  split; [exact Hkept|].
  rewrite (Hretry "4711") by (by vm_compute). reflexivity.
Defined.

Lemma attachment_names_agree_witness :
  reliable_uploads (env_ok []) ∧
  ∃ events,
    ConfluenceService.uploadImages (env_ok []) "4711" [image1] empty_world =
      (Ok tt, extend empty_world events) ∧
    uploadedFilenames events = ["step-1-mac.png"] ∧
    ∀ filename,
      filename ∈ ConfluenceService.referencedFilenames
                   (ConfluenceService.generateConfluenceMarkup (env_ok []) content
                      [image1] "TECH-456") →
      filename ∈ uploadedFilenames events.
Proof.
  assert (Hrel : reliable_uploads (env_ok [])) by (split; intros; by eexists).
  split; [exact Hrel|].
  destruct (attachment_names_agree (env_ok []) content [image1] "TECH-456"
              "4711" empty_world)
    as (_ & _ & _ & events & Hrun & _ & Hall).
  destruct (Hall Hrel) as [Hnames Hresolve].
  exists events. repeat split; [exact Hrun | exact Hnames | exact Hresolve].
Defined.

End Scenarios.

(** * Further properties *)

(** ** Escaping of the page text *)

Section Escaping.
Import ConfluenceService.

Lemma replaceAll_app c by_ a b :
  replaceAll c by_ (a +:+ b) = replaceAll c by_ a +:+ replaceAll c by_ b.
Proof.
  induction a as [|x a IH]; [done|]. cbn [replaceAll]. rewrite append_cons. cbn [replaceAll].
  destruct (Ascii.eqb x c); rewrite IH; [by rewrite append_assoc | done].
Qed.

Lemma escapeHTML_append a b : escapeHTML (a +:+ b) = escapeHTML a +:+ escapeHTML b.
Proof. unfold escapeHTML. by rewrite !replaceAll_app. Qed.

Lemma escapeHTML_single c : escapeHTML (String c EmptyString) = escapeChar c.
Proof. destruct c as [[] [] [] [] [] [] [] []]; reflexivity. Qed.

Lemma unescape_char c rest : unescapeHTML (escapeChar c +:+ rest) = String c (unescapeHTML rest).
Proof. destruct c as [[] [] [] [] [] [] [] []]; reflexivity. Qed.

Lemma escapeHTML_cons c s : escapeHTML (String c s) = escapeChar c +:+ escapeHTML s.
Proof.
  change (String c s) with (String c EmptyString +:+ s).
  by rewrite escapeHTML_append, escapeHTML_single.
Qed.

(** X1. The six replacements of [escapeHTML], made one after the other
    over the whole text, come to one pass over the text that puts for
    each character its own replacement: no replacement is escaped again
    by a later one. *)
Theorem escapeHTML_one_pass text :
  escapeHTML text =
  String.concat EmptyString (escapeChar <$> list_ascii_of_string text).
Proof.
  induction text as [|c text IH]; [done|].
  cbn [list_ascii_of_string fmap list_fmap].
  by rewrite escapeHTML_cons, concat_cons, IH.
Qed.

Lemma escapeChar_cases c :
  (special_char c = false ∧ escapeChar c = String c EmptyString) ∨
  (special_char c = true ∧
   escapeChar c ∈ ["&amp;"; "&lt;"; "&gt;"; "&quot;"; "&#39;"; "<br/>"]).
Proof.
  destruct c as [[] [] [] [] [] [] [] []];
    first [ left; split; reflexivity
          | right; split; [reflexivity|]; repeat first [apply list_elem_of_here | apply list_elem_of_further] ].
Qed.

(** X2. An escaped text is made of characters that need no escape and of
    the six replacements [&amp;], [&lt;], [&gt;], [&quot;], [&#39;] and
    [<br/>]: none of the characters [escapeHTML] replaces is left in it
    outside a replacement. *)
Theorem escapeHTML_escaped text : escaped (escapeHTML text).
Proof.
  induction text as [|c text IH]; [constructor|].
  rewrite escapeHTML_cons.
  destruct (escapeChar_cases c) as [[Hc ->]|[_ Ht]].
  - by apply escaped_plain.
  - by apply escaped_token.
Qed.

Lemma unescape_escape text : unescapeHTML (escapeHTML text) = text.
Proof.
  induction text as [|c text IH]; [done|].
  by rewrite escapeHTML_cons, unescape_char, IH.
Qed.

(** X3. [escapeHTML] loses nothing: texts that are escaped to the same
    text are the same. *)
Theorem escapeHTML_inj a b : escapeHTML a = escapeHTML b → a = b.
Proof. intros H. by rewrite <- (unescape_escape a), H, unescape_escape. Qed.

Lemma length_append (a b : string) :
  String.length (a +:+ b) = (String.length a + String.length b)%nat.
Proof. induction a as [|c a IH]; [done|]. rewrite append_cons. cbn. by rewrite IH. Qed.

Lemma escapeChar_length c :
  (special_char c = false ∧ String.length (escapeChar c) = 1%nat) ∨
  (special_char c = true ∧ (4 ≤ String.length (escapeChar c))%nat).
Proof.
  destruct c as [[] [] [] [] [] [] [] []];
    first [ left; split; reflexivity | right; split; [reflexivity|cbn; lia] ].
Qed.

Lemma escapeHTML_length text :
  (String.length text ≤ String.length (escapeHTML text))%nat.
Proof.
  induction text as [|c text IH]; [done|].
  rewrite escapeHTML_cons, length_append. cbn [String.length].
  destruct (escapeChar_length c) as [[_ ->]|[_ ?]]; lia.
Qed.

(** X4. [escapeHTML] leaves a text as it is exactly when the text holds
    none of [&], [<], [>], the double quote, the single quote and the
    line feed. *)
Theorem escapeHTML_unchanged_iff text :
  escapeHTML text = text ↔ string_forallb (λ c, negb (special_char c)) text = true.
Proof.
  induction text as [|c text IH]; [done|].
  rewrite escapeHTML_cons. cbn [string_forallb].
  destruct (escapeChar_cases c) as [[Hc Hesc]|[Hc Ht]]; rewrite Hc; cbn [negb andb].
  - rewrite Hesc, append_cons. change (EmptyString +:+ escapeHTML text) with (escapeHTML text).
    rewrite <- IH. split.
    + by intros [= ->].
    + by intros ->.
  - split; [|done]. intros Heq. apply (f_equal String.length) in Heq.
    rewrite length_append in Heq. cbn [String.length] in Heq.
    pose proof (escapeHTML_length text).
    destruct (escapeChar_length c) as [[? _]|[_ ?]]; [congruence|lia].
Qed.

End Escaping.

(** ** More on the ticket reference parser *)

Section References.
Import Regex Spec JiraService.

Lemma run_stop k s c r : in_class k c = false → run k (s ++ c :: r) = run k s.
Proof.
  intros Hc. induction s as [|x s IH]; cbn [app run]; [by rewrite Hc|].
  destruct (in_class k x); [by rewrite IH|done].
Qed.

Lemma match_key_exact letters digits post :
  letters ≠ [] → digits ≠ [] →
  Forall (λ c, in_class UpperAZ c = true) letters →
  Forall (λ c, in_class Digit c = true) digits →
  match_key (letters ++ "-"%char :: digits ++ post) =
  Some (letters ++ "-"%char :: digits ++ run Digit post).
Proof.
  intros Hl Hd Hup Hdig. unfold match_key.
  assert (Hrun : run UpperAZ (letters ++ "-"%char :: digits ++ post) = letters).
  { rewrite (run_app _ _ _ Hup). cbn [run]. by rewrite dash_not_upper, app_nil_r. }
  rewrite Hrun. destruct letters as [|l ls]; [done|].
  rewrite drop_app_length. cbn [Ascii.eqb Bool.eqb andb].
  rewrite (run_app _ _ _ Hdig). by destruct digits.
Qed.

Lemma run_length k s : (length (run k s) ≤ length s)%nat.
Proof. induction s as [|c s IH]; cbn [run length]; [lia|]. destruct (in_class k c); cbn [length]; lia. Qed.

Lemma match_key_stop s c r : stop_char c = true → match_key (s ++ c :: r) = match_key s.
Proof.
  unfold stop_char. intros [[Hup Hdig]%andb_prop Hdash]%andb_prop.
  apply negb_true_iff in Hup, Hdig, Hdash.
  unfold match_key. rewrite (run_stop _ _ _ _ Hup).
  pose proof (run_length UpperAZ s) as Hlen.
  pose proof (run_prefix UpperAZ s) as Hs.
  destruct (run UpperAZ s) as [|l ls]; [done|].
  rewrite drop_app_le by done.
  destruct (drop (length (l :: ls)) s) as [|d rest]; cbn [app].
  - by rewrite Hdash.
  - destruct (Ascii.eqb d "-"); [|done]. by rewrite (run_stop _ _ _ _ Hdig).
Qed.

Lemma search_stop s c r :
  stop_char c = true → search simple_key s = None →
  search simple_key (s ++ c :: r) = search simple_key r.
Proof.
  intros Hc. induction s as [|x s IH]; cbn [app search].
  - intros _. rewrite match_here_simple_key.
    change (c :: r) with ([] ++ c :: r). by rewrite match_key_stop.
  - rewrite !match_here_simple_key.
    change (x :: s ++ c :: r) with ((x :: s) ++ c :: r). rewrite (match_key_stop _ _ _ Hc).
    destruct (match_key (x :: s)); [done|]. apply IH.
Qed.

Lemma search_self k post :
  ticket_chars k → run Digit post = [] → search simple_key (k ++ post) = Some k.
Proof.
  intros (letters & digits & -> & Hl & Hd & Hup & Hdig) Hpost.
  destruct letters as [|l ls]; [done|].
  cbn [app search]. rewrite match_here_simple_key.
  change (l :: (ls ++ "-"%char :: digits) ++ post)
    with (((l :: ls) ++ "-"%char :: digits) ++ post).
  rewrite <- app_assoc. cbn [app].
  change (l :: ls ++ "-"%char :: digits ++ post)
    with ((l :: ls) ++ "-"%char :: digits ++ post).
  rewrite match_key_exact by done. by rewrite Hpost, app_nil_r.
Qed.

Lemma extract_None_search text :
  extractTicketKey text = None ↔ search simple_key (list_ascii_of_string text) = None.
Proof.
  unfold extractTicketKey. rewrite first_match_simple_key.
  by destruct (search simple_key _).
Qed.

Lemma starts_with_digit_run post :
  starts_with_digit post = false → run Digit (list_ascii_of_string post) = [].
Proof. destruct post as [|c post]; [done|]. cbn. by intros ->. Qed.

(** X5. A text that begins with a ticket key, one or more upper-case
    letters, a dash and one or more digits, and goes on with anything but
    a digit, yields that key. *)
Theorem extractTicketKey_of_key k post :
  ticket_pattern k → starts_with_digit post = false →
  extractTicketKey (k +:+ post) = Some k.
Proof.
  intros Hk Hpost. unfold extractTicketKey.
  rewrite first_match_simple_key, list_ascii_of_string_app.
  rewrite search_self; [|done|by apply starts_with_digit_run].
  cbn. by rewrite string_of_list_ascii_of_string.
Qed.

(** X6. The search for a key does not reach across a character that can
    stand in no key (anything but an upper-case letter, a digit and the
    dash): when the text before such a character holds no key, the key of
    the whole text is the key of what follows the character. *)
Theorem extractTicketKey_after_stop before c rest :
  extractTicketKey before = None → stop_char c = true →
  extractTicketKey (before +:+ String c rest) = extractTicketKey rest.
Proof.
  intros Hnone%extract_None_search Hc. unfold extractTicketKey.
  rewrite !first_match_simple_key, list_ascii_of_string_app. cbn [list_ascii_of_string].
  by rewrite search_stop.
Qed.

Lemma prefix_append n b : String.prefix n (n +:+ b) = true.
Proof.
  induction n as [|c n IH]; [by destruct b|].
  rewrite append_cons. cbn [String.prefix].
  destruct (ascii_dec c c); [done|congruence].
Qed.

Lemma includes_here n b : includes (n +:+ b) n = true.
Proof. destruct (n +:+ b) eqn:E; cbn [includes]; rewrite <- E, prefix_append; done. Qed.

Lemma includes_append a h n : includes h n = true → includes (a +:+ h) n = true.
Proof.
  intros H. induction a as [|c a IH]; [done|].
  rewrite append_cons. cbn [includes]. rewrite IH. apply orb_true_r.
Qed.

(** X7. The address of a ticket, the Jira host followed by [/browse/]
    and the key, is a valid Jira URL for [isValidJiraUrl], and
    [extractTicketKey] reads the key back from it, when the host itself
    holds nothing that reads as a key. *)
Theorem browse_url_round_trip (env : Env) k :
  ticket_pattern k →
  extractTicketKey (jiraHost env) = None →
  isValidJiraUrl env (jiraHost env +:+ "/browse/" +:+ k) = true ∧
  extractTicketKey (jiraHost env +:+ "/browse/" +:+ k) = Some k.
Proof.
  intros Hk Hhost. split.
  - unfold isValidJiraUrl. rewrite includes_here. cbn [andb].
    apply includes_append, includes_here.
  - apply extract_None_search in Hhost.
    unfold extractTicketKey.
    rewrite first_match_simple_key, !list_ascii_of_string_app.
    change (list_ascii_of_string "/browse/")
      with ("/"%char :: list_ascii_of_string "browse" ++ ["/"%char]).
    cbn [app].
    rewrite search_stop by done.
    rewrite <- app_assoc. cbn [app].
    rewrite search_stop by done.
    rewrite <- (app_nil_r (list_ascii_of_string k)).
    rewrite search_self by done. cbn.
    by rewrite string_of_list_ascii_of_string.
Qed.

End References.

(** ** What an entry point touches *)

Section Frame.
Context (env : Env).
Import KBAGeneratorWorkflow.

Lemma generateKBA_frame contextKey w other :
  other ≠ contextKey →
  contexts (exec (generateKBA env contextKey) w) !! other = contexts w !! other.
Proof.
  intros Hne. unfold exec.
  destruct (contexts w !! contextKey) as [context|] eqn:Hc;
    [|unfold generateKBA, Workflow.generateKBA; mstep; by rewrite Hc].
  destruct (ConversationContext.jiraTicket context) as [ticket|] eqn:Ht;
    [|unfold generateKBA, Workflow.generateKBA; mstep; by rewrite Hc, Ht].
  pose proof (generateKBA_runs env contextKey w context ticket Hc Ht) as Hrun.
  cbv zeta in Hrun. destruct (openai_content env _ ticket _).
  - destruct Hrun as (images & events & -> & _). cbn [snd contexts].
    by rewrite lookup_insert_ne.
  - rewrite Hrun. cbn [snd contexts]. by rewrite lookup_delete_ne.
Qed.

Lemma approveAndPublish_contexts contextKey userId w :
  contexts (exec (approveAndPublish env contextKey userId) w) = contexts w ∨
  ∃ context,
    contexts w !! contextKey = Some context ∧
    is_Some (ConversationContext.kbaDraft context) ∧
    contexts (exec (approveAndPublish env contextKey userId) w) =
      <[contextKey := ConversationContext.set_stage complete context]> (contexts w).
Proof.
  unfold exec.
  destruct (contexts w !! contextKey) as [context|] eqn:Hc;
    [|left; unfold approveAndPublish, Workflow.approveAndPublish; mstep; by rewrite Hc].
  destruct (ConversationContext.kbaDraft context) as [kbaDraft|] eqn:Hd;
    [|left; unfold approveAndPublish, Workflow.approveAndPublish; mstep; by rewrite Hc, Hd].
  destruct (ConversationContext.jiraTicket context) as [ticket|] eqn:Ht;
    [|left; unfold approveAndPublish, Workflow.approveAndPublish; mstep; by rewrite Hc, Hd, Ht].
  pose proof (approveAndPublish_runs env contextKey userId w context kbaDraft ticket
                Hc Hd Ht) as Hrun.
  cbv zeta in Hrun. destruct (confluence_post_content env _ _).
  - destruct Hrun as (events & -> & _). right. exists context.
    split; [done|]. split; [by rewrite Hd|done].
  - rewrite Hrun. by left.
Qed.

(** X8. An entry point of the workflow reads and writes the context of
    its own thread only: the context stored under any other key is after
    the call what it was before. *)
Theorem operations_touch_their_thread_only op w other :
  other ≠ op_key op →
  contexts (exec (run_op env op) w) !! other = contexts w !! other.
Proof.
  intros Hne.
  destruct op as [channel threadTs userId jiraUrl|channel threadTs userId answer
                 |contextKey userId|contextKey|contextKey|contextKey];
    cbn [run_op op_key] in *.
  - pose proof (startWorkflow_runs env channel threadTs userId jiraUrl w) as Hrun.
    cbv zeta in Hrun.
    destruct (JiraService.extractTicketKey jiraUrl) as [ticketKey|];
      [|unfold exec; by rewrite Hrun].
    destruct (jira_getTicket env _ ticketKey) as [ticket|e];
      [|unfold exec; rewrite Hrun; cbn [snd contexts]; by rewrite lookup_delete_ne].
    destruct (openai_questions env _ ticket) as [[|q questions]|e];
      unfold exec; rewrite Hrun.
    + match goal with
      | |- contexts (generateKBA env ?k ?W).2 !! _ = _ =>
          etrans; [apply (generateKBA_frame k W other Hne)|]
      end.
      cbn [contexts]. by rewrite lookup_insert_ne.
    + cbn [snd contexts]. by rewrite lookup_insert_ne.
    + cbn [snd contexts]. by rewrite lookup_delete_ne.
  - unfold exec, handleAnswer, Workflow.handleAnswer. mstep.
    destruct (contexts w !! _) as [context|] eqn:Hc; [|done].
    destruct (decide _) as [|_]; [done|]. mstep.
    destruct (_ <=? _)%nat; mstep.
    + match goal with
      | |- contexts (generateKBA env ?k ?W).2 !! _ = _ =>
          etrans; [apply (generateKBA_frame k W other Hne)|]
      end.
      cbn [contexts]. by rewrite lookup_insert_ne.
    + by rewrite lookup_insert_ne.
  - destruct (approveAndPublish_contexts contextKey userId w)
      as [->|(context & _ & _ & ->)]; [done|]. by rewrite lookup_insert_ne.
  - unfold exec, requestChanges, Workflow.requestChanges. mstep.
    destruct (contexts w !! contextKey); [|done]. mstep. by rewrite lookup_insert_ne.
  - unfold exec, cancelKBA, Workflow.cancelKBA. mstep.
    destruct (contexts w !! contextKey); [|done]. mstep. by rewrite lookup_delete_ne.
  - unfold exec, cleanup, Workflow.cleanup. mstep. by rewrite lookup_delete_ne.
Qed.

End Frame.

(** ** The contexts between two calls *)

Section Rest.
Context (env : Env).
Import KBAGeneratorWorkflow.

Lemma rest_insert contextKey context w l :
  all_at_rest w → at_rest contextKey context →
  all_at_rest {| contexts := <[contextKey := context]> (contexts w); log := l |}.
Proof.
  intros Hw Hc k c. cbn [contexts]. rewrite lookup_insert.
  case_decide as Hk; [intros [= <-]; by subst k | apply Hw].
Qed.

Lemma rest_delete contextKey w l :
  all_at_rest w →
  all_at_rest {| contexts := delete contextKey (contexts w); log := l |}.
Proof.
  intros Hw k c. cbn [contexts]. rewrite lookup_delete.
  case_decide; [done | apply Hw].
Qed.

Lemma rest_log w l : all_at_rest w → all_at_rest {| contexts := contexts w; log := l |}.
Proof. done. Qed.

Lemma generateKBA_rest contextKey context l w :
  all_at_rest w →
  contextKey = ConversationContext.channel context +:+ "-" +:+
               ConversationContext.threadTs context →
  is_Some (ConversationContext.jiraTicket context) →
  all_at_rest
    (exec (generateKBA env contextKey)
          {| contexts := <[contextKey := context]> (contexts w); log := l |}).
Proof.
  intros Hw Hkey [ticket Ht]. unfold exec.
  match goal with
  | |- context [generateKBA env contextKey ?W] =>
      pose proof (generateKBA_runs env contextKey W context ticket
                    (lookup_insert_eq _ _ _) Ht) as Hgen
  end.
  cbv zeta in Hgen.
  destruct (openai_content env _ ticket _) as [content|e].
  - destruct Hgen as (images & events & -> & _). cbn [snd contexts].
    rewrite insert_insert_eq. apply rest_insert; [done|].
    repeat split; cbn; [done|by rewrite Ht| |by eexists].
    intros ? [= <-]. by rewrite Ht.
  - rewrite Hgen. cbn [snd contexts]. rewrite delete_insert_eq.
    by apply rest_delete.
Qed.

Lemma run_op_rest op w : all_at_rest w → all_at_rest (exec (run_op env op) w).
Proof.
  intros Hw.
  destruct op as [channel threadTs userId jiraUrl|channel threadTs userId answer
                 |contextKey userId|contextKey|contextKey|contextKey];
    cbn [run_op].
  - unfold exec.
    pose proof (startWorkflow_runs env channel threadTs userId jiraUrl w) as Hrun.
    cbv zeta in Hrun.
    destruct (JiraService.extractTicketKey jiraUrl) as [ticketKey|];
      [|rewrite Hrun; by apply rest_log].
    destruct (jira_getTicket env _ ticketKey) as [ticket|e];
      [|rewrite Hrun; by apply rest_delete].
    destruct (openai_questions env _ ticket) as [[|q questions]|e]; rewrite Hrun.
    + by apply generateKBA_rest.
    + cbn [snd contexts]. apply rest_insert; [done|]. by repeat split.
    + by apply rest_delete.
  - unfold exec, handleAnswer, Workflow.handleAnswer. mstep.
    destruct (contexts w !! _) as [context|] eqn:Hc; [|done].
    destruct (decide _) as [|_]; [done|]. mstep.
    destruct (Hw _ _ Hc) as (Hkey & Ht & Hd & Hs).
    destruct (_ <=? _)%nat; mstep.
    + match goal with
      | |- context [generateKBA env ?k {| contexts := <[_ := ?c]> _; log := ?l |}] =>
          apply (generateKBA_rest k c l w Hw)
      end; done.
    + apply rest_insert; [done|]. by repeat split.
  - destruct (approveAndPublish_contexts env contextKey userId w)
      as [Heq|(context & Hc & Hdraft & Heq)].
    + intros k c. rewrite Heq. apply Hw.
    + intros k c. rewrite Heq.
      destruct (Hw _ _ Hc) as (Hkey & Ht & Hd & Hs).
      rewrite lookup_insert. case_decide as Hk; [|apply Hw].
      intros [= <-]. subst k. by repeat split.
  - unfold exec, requestChanges, Workflow.requestChanges. mstep.
    destruct (contexts w !! contextKey) as [context|] eqn:Hc; [|done]. mstep.
    destruct (Hw _ _ Hc) as (Hkey & Ht & Hd & Hs).
    apply rest_insert; [done|]. by repeat split.
  - unfold exec, cancelKBA, Workflow.cancelKBA. mstep.
    destruct (contexts w !! contextKey) as [context|] eqn:Hc; [|done]. mstep.
    by apply rest_delete.
  - unfold exec, cleanup, Workflow.cleanup. mstep. by apply rest_delete.
Qed.

Lemma rest_run_ops ops w : all_at_rest w → all_at_rest (run_ops env ops w).
Proof.
  revert w. induction ops as [|op ops IH]; intros w Hw; [done|].
  cbn [run_ops]. by apply IH, run_op_rest.
Qed.

End Rest.

(** ** From the answers to the draft *)

Section Order.
Context (env : Env).
Import KBAGeneratorWorkflow.

Lemma slots_hold_insert answers userAnswers answer :
  answer_slots userAnswers → slots_hold answers userAnswers →
  slots_hold (answers ++ [answer])
    (<["answer_" +:+ pretty (size userAnswers + 1)%nat := answer]> userAnswers).
Proof.
  intros Hslots [Hsize Hget].
  destruct (answer_slots_insert userAnswers answer Hslots) as [Hsize' _].
  split; [rewrite Hsize', length_app; cbn; lia|].
  intros i a Hi. rewrite Nat.add_1_r, Hsize.
  destruct (decide (i = length answers)) as [->|Hne].
  - rewrite lookup_app_r, Nat.sub_diag in Hi by lia. injection Hi as <-.
    apply lookup_insert_eq.
  - assert (i < length answers)%nat as Hlt.
    { apply lookup_lt_Some in Hi. rewrite length_app in Hi. cbn in Hi. lia. }
    rewrite lookup_app_l in Hi by done.
    rewrite lookup_insert_ne; [by apply Hget|].
    intros Heq%String.app_inj%(inj pretty). lia.
Qed.

Lemma submitAnswers_slots channel threadTs userId answers :
  let contextKey := channel +:+ "-" +:+ threadTs in
  ∀ earlier w context,
    contexts w !! contextKey = Some context →
    ConversationContext.stage context = asking_questions →
    answer_slots (ConversationContext.userAnswers context) →
    slots_hold earlier (ConversationContext.userAnswers context) →
    (length earlier + length answers <
     length (ConversationContext.questionsAsked context))%nat →
    ∃ context',
      contexts (submitAnswers env channel threadTs userId answers w) !! contextKey =
        Some context' ∧
      ConversationContext.stage context' = asking_questions ∧
      answer_slots (ConversationContext.userAnswers context') ∧
      slots_hold (earlier ++ answers) (ConversationContext.userAnswers context') ∧
      ConversationContext.questionsAsked context' =
        ConversationContext.questionsAsked context ∧
      ConversationContext.jiraTicket context' =
        ConversationContext.jiraTicket context.
Proof.
  intros contextKey. induction answers as [|answer answers IH];
    intros earlier w context Hc Hstage Hslots Hhold Hlt.
  - exists context. by rewrite app_nil_r.
  - cbn [length] in Hlt.
    unfold submitAnswers. cbn [fmap list_fmap run_ops run_op]. unfold exec.
    rewrite (handleAnswer_waiting env channel threadTs userId answer w context
               Hc Hstage Hslots) by (destruct Hhold as [-> _]; lia).
    cbn [snd]. fold contextKey.
    destruct (answer_slots_insert _ answer Hslots) as [Hsize Hslots'].
    match goal with
    | |- context [run_ops env _ ?W] =>
        edestruct (IH (earlier ++ [answer]) W)
          as (context' & Hc' & Hstage' & Hs' & Hh' & Hq' & Ht');
          [ cbn [contexts]; apply lookup_insert_eq
          | exact Hstage
          | exact Hslots'
          | by apply slots_hold_insert
          | rewrite length_app; cbn; lia
          | ]
    end.
    exists context'. rewrite <- app_assoc in Hh'. done.
Qed.

Lemma handleAnswer_generates channel threadTs userId answer w context ticket :
  let contextKey := channel +:+ "-" +:+ threadTs in
  let userAnswers' :=
    <["answer_" +:+ pretty (size (ConversationContext.userAnswers context) + 1)%nat
      := answer]> (ConversationContext.userAnswers context) in
  let w' := exec (handleAnswer env channel threadTs userId answer) w in
  contexts w !! contextKey = Some context →
  ConversationContext.stage context = asking_questions →
  ConversationContext.jiraTicket context = Some ticket →
  (length (ConversationContext.questionsAsked context) ≤ size userAnswers')%nat →
  GenerateKBAContent ticket userAnswers' ∈ log w' ∧
  generation_calls (log w') = S (generation_calls (log w)) ∧
  match openai_content env (2 + now w) ticket userAnswers' with
  | Err e => contexts w' = delete contextKey (contexts w)
  | Ok content =>
      ∃ images,
        contexts w' =
        <[contextKey :=
            ConversationContext.set_stage review
              (ConversationContext.set_kbaDraft
                 (Some (KBADraft.mk ticket content images None))
                 (ConversationContext.set_userAnswers userAnswers' context))]>
          (contexts w)
  end.
Proof.
  intros contextKey userAnswers' w' Hc Hstage Ht Hle. subst w'.
  unfold exec, handleAnswer, Workflow.handleAnswer. mstep. fold contextKey. rewrite Hc.
  destruct (decide _) as [Hne|_]; [done|]. fold userAnswers'.
  destruct (Nat.leb_spec (length (ConversationContext.questionsAsked context))
                         (size userAnswers')); [|lia].
  mstep.
  match goal with
  | |- context [generateKBA env contextKey ?W] =>
      pose proof (generateKBA_runs env contextKey W _ ticket
                    (lookup_insert_eq _ _ _) Ht) as Hgen
  end.
  cbv zeta in Hgen. mstep in Hgen.
  change (2 + now w)%nat with (S (S (length (log w)))).
  destruct (openai_content env _ ticket userAnswers') as [content|e].
  - destruct Hgen as (images & events & -> & Hev). cbn [snd contexts log].
    split; [|split].
    + apply elem_of_app. right. apply list_elem_of_here.
    + by rewrite generation_calls_app, (generation_calls_draft_traffic _ Hev).
    + exists images. by rewrite insert_insert_eq.
  - rewrite Hgen. cbn [snd contexts log]. split; [|split].
    + apply list_elem_of_further, list_elem_of_here.
    + done.
    + by rewrite delete_insert_eq.
Qed.

(** X10. When a thread with open questions receives as many answers as
    questions were asked, content generation is requested with exactly
    these answers: answer number [i] of the thread under the key
    [answer_i], and nothing else. *)
Theorem answers_reach_generation_in_order
    channel threadTs userId w context ticket (answers : list string) :
  let contextKey := channel +:+ "-" +:+ threadTs in
  contexts w !! contextKey = Some context →
  ConversationContext.stage context = asking_questions →
  ConversationContext.userAnswers context = ∅ →
  ConversationContext.jiraTicket context = Some ticket →
  length answers = length (ConversationContext.questionsAsked context) →
  (1 ≤ length answers)%nat →
  ∃ userAnswers,
    GenerateKBAContent ticket userAnswers ∈
      log (submitAnswers env channel threadTs userId answers w) ∧
    size userAnswers = length answers ∧
    ∀ i answer, answers !! i = Some answer →
                userAnswers !! ("answer_" +:+ pretty (S i)) = Some answer.
Proof.
  intros contextKey Hc Hstage Hempty Ht Hlen Hpos.
  destruct (decide (answers = [])) as [->|Hne]; [cbn in Hpos; lia|].
  destruct (exists_last Hne) as (init & last & ->).
  rewrite length_app in Hlen, Hpos. cbn in Hlen, Hpos.
  destruct (submitAnswers_slots channel threadTs userId init [] w context
              Hc Hstage) as (context1 & Hc1 & Hstage1 & Hslots1 & Hhold1 & Hq1 & Ht1).
  { rewrite Hempty. apply answer_slots_empty. }
  { rewrite Hempty. split; [apply map_size_empty|]. intros i a Hi. done. }
  { cbn. lia. }
  cbn [app] in Hhold1.
  rewrite submitAnswers_app.
  unfold submitAnswers at 1. cbn [fmap list_fmap run_ops run_op].
  destruct (answer_slots_insert _ last Hslots1) as [Hsize _].
  destruct (handleAnswer_generates channel threadTs userId last _ context1 ticket
              Hc1 Hstage1) as (Hin & _).
  { by rewrite Ht1. }
  { rewrite Hsize, Hq1. destruct Hhold1 as [-> _]. lia. }
  eexists. split; [exact Hin|].
  apply (slots_hold_insert init _ last Hslots1 Hhold1).
Qed.

(** X11. A change request makes the next message of the thread one more
    answer, whatever the stage of the conversation was: when that message
    leaves no question open, content generation is requested once more,
    with the earlier answers and the feedback under the next key, and
    the conversation comes back under review with the new draft, or is
    removed when the generation fails. *)
Theorem feedback_regenerates
    channel threadTs userId feedback w context ticket :
  let contextKey := channel +:+ "-" +:+ threadTs in
  let userAnswers' :=
    <["answer_" +:+ pretty (size (ConversationContext.userAnswers context) + 1)%nat
      := feedback]> (ConversationContext.userAnswers context) in
  let w' := exec (handleAnswer env channel threadTs userId feedback)
                 (exec (requestChanges contextKey) w) in
  contexts w !! contextKey = Some context →
  ConversationContext.jiraTicket context = Some ticket →
  (length (ConversationContext.questionsAsked context) ≤ size userAnswers')%nat →
  GenerateKBAContent ticket userAnswers' ∈ log w' ∧
  generation_calls (log w') = S (generation_calls (log w)) ∧
  match openai_content env (3 + now w) ticket userAnswers' with
  | Err e => contexts w' !! contextKey = None
  | Ok content =>
      ∃ context',
        contexts w' !! contextKey = Some context' ∧
        ConversationContext.stage context' = review ∧
        ConversationContext.userAnswers context' = userAnswers' ∧
        ∃ images, ConversationContext.kbaDraft context' =
                  Some (KBADraft.mk ticket content images None)
  end.
Proof.
  intros contextKey userAnswers' w' Hc Ht Hle.
  assert (Hrc : exec (requestChanges contextKey) w =
    {| contexts := <[contextKey := ConversationContext.set_stage asking_questions context]>
                     (contexts w);
       log := PostMessage (ConversationContext.channel context)
                          (ConversationContext.threadTs context) MsgDescribeChanges ::
              log w |}).
  { unfold exec, requestChanges, Workflow.requestChanges. mstep. by rewrite Hc. }
  destruct (handleAnswer_generates channel threadTs userId feedback
              (exec (requestChanges contextKey) w)
              (ConversationContext.set_stage asking_questions context) ticket)
    as (Hin & Hcalls & Hres).
  { rewrite Hrc. apply lookup_insert_eq. }
  { done. }
  { done. }
  { exact Hle. }
  cbn [ConversationContext.set_stage ConversationContext.userAnswers] in Hin, Hres.
  fold userAnswers' in Hin, Hres. fold contextKey in Hres. fold w' in Hin, Hcalls, Hres.
  split; [done|]. split; [by rewrite Hcalls, Hrc|].
  rewrite Hrc in Hres. cbn [now log length] in Hres.
  change (3 + now w)%nat with (2 + S (length (log w)))%nat.
  destruct (openai_content env _ ticket userAnswers') as [content|e].
  - destruct Hres as [images ->]. eexists. rewrite lookup_insert_eq.
    split; [done|]. split; [done|]. split; [done|]. by exists images.
  - rewrite Hres. apply lookup_delete_eq.
Qed.

End Order.

(** ** The render requests of a bundle and its images *)

Section Images.
Context (env : Env).
Import OpenAIService.

Ltac contradict_render Hall :=
  match goal with
  | H : openai_image _ ?t ?p = ?r |- _ =>
      lazymatch r with
      | Ok (Some (String _ _)) => fail
      | _ => destruct (Hall t p) as (? & ? & ?); congruence
      end
  end.

Ltac close_render :=
  split; [cbn; repeat constructor|];
  split; [by repeat constructor|];
  intros Hall; first [reflexivity | contradict_render Hall].

Lemma renderStep_images step w images :
  ∃ new events,
    renderStep env step (w, images) = (Ok tt, (extend w events, images ++ new)) ∧
    renderOf <$> new `sublist_of` plannedStep step ∧
    Forall (λ image, GeneratedImage.url image ≠ EmptyString) new ∧
    (renders_answer env → renderOf <$> new = plannedStep step).
Proof.
  unfold renderStep, plannedStep.
  destruct (KBAStep.imagePrompt step) as [[|c prompt]|],
           (KBAStep.osType step) as [[os|]|];
    try (exists [], []; rewrite extend_nil, app_nil_r; by repeat split);
    cbn [truthy for_each];
    unfold try_catch, bind, lift, images_generate, external, emit, ret, modify_local;
    cbn [fst snd contexts log].
  - destruct (openai_image env (now w) _) as [[[|c' url]|]|e] eqn:H1;
      cbn [fst snd contexts log].
    + exists []. eexists. rewrite app_nil_r.
      split; [unfold extend; do 3 f_equal; logged|]. close_render.
    + eexists [_]. eexists.
      split; [unfold extend; do 3 f_equal; logged|]. close_render.
    + exists []. eexists. rewrite app_nil_r.
      split; [unfold extend; do 3 f_equal; logged|]. close_render.
    + exists []. eexists. rewrite app_nil_r.
      split; [unfold extend; do 3 f_equal; logged|]. close_render.
  - destruct (openai_image env (now w) _) as [[[|c1 url1]|]|e1] eqn:H1;
      cbn [fst snd contexts log];
      try (destruct (openai_image env (now (Build_World _ _)) _)
             as [[[|c2 url2]|]|e2] eqn:H2);
      cbn [fst snd contexts log]; rewrite <- ?app_assoc; cbn [app];
      first
        [ exists []; eexists; rewrite app_nil_r;
          split; [unfold extend; do 3 f_equal; logged|]; close_render
        | eexists [_]; eexists;
          split; [unfold extend; do 3 f_equal; logged|]; close_render
        | eexists [_; _]; eexists;
          split; [unfold extend; do 3 f_equal; logged|]; close_render ].
Qed.

Lemma renderSteps_images steps w images :
  ∃ new events,
    for_each steps (renderStep env) (w, images) =
      (Ok tt, (extend w events, images ++ new)) ∧
    renderOf <$> new `sublist_of` steps ≫= plannedStep ∧
    Forall (λ image, GeneratedImage.url image ≠ EmptyString) new ∧
    (renders_answer env → renderOf <$> new = steps ≫= plannedStep).
Proof.
  revert w images. induction steps as [|step steps IH]; intros w images.
  - exists [], []. rewrite extend_nil, app_nil_r. by repeat split.
  - cbn [for_each]. unfold bind at 1.
    destruct (renderStep_images step w images) as (new1 & ev1 & -> & Hs1 & Hu1 & Ha1).
    destruct (IH (extend w ev1) (images ++ new1))
      as (new2 & ev2 & -> & Hs2 & Hu2 & Ha2).
    exists (new1 ++ new2), (ev2 ++ ev1). rewrite extend_extend, app_assoc.
    split; [done|]. cbn [mbind list_bind]. rewrite fmap_app.
    split; [by apply sublist_app|]. split; [by apply Forall_app|].
    intros Hall. by rewrite Ha1, Ha2.
Qed.

(** X12. [generateImages] always answers.  Its images are, in order, among
    the renders the steps ask for (for each step with a prompt and a
    platform, one render per platform, [mac] before [windows]), each with
    the step number, the platform and the enhanced prompt of its render
    and with a location that is not empty; when every render request is
    answered with a location, the images are exactly these renders. *)
Theorem generateImages_follow_plan content w :
  ∃ images events,
    generateImages env content w = (Ok images, extend w events) ∧
    renderOf <$> images `sublist_of` plannedRenders content ∧
    Forall (λ image, GeneratedImage.url image ≠ EmptyString) images ∧
    (renders_answer env → renderOf <$> images = plannedRenders content).
Proof.
  unfold generateImages, with_local, bind, plannedRenders.
  destruct (renderSteps_images (KBAContent.steps content) w [])
    as (images & events & -> & H).
  by exists images, events.
Qed.

Lemma plannedRenders_bound steps :
  (length (steps ≫= plannedStep) ≤
   2 * length (filter (λ s, truthy (KBAStep.imagePrompt s) = true) steps))%nat.
Proof.
  induction steps as [|step steps IH]; [done|].
  rewrite bind_cons, length_app, filter_cons.
  assert (Hstep : (length (plannedStep step) ≤
                   if truthy (KBAStep.imagePrompt step) then 2 else 0)%nat).
  { unfold plannedStep.
    destruct (KBAStep.imagePrompt step) as [[|c prompt]|],
             (KBAStep.osType step) as [[os|]|]; cbn; lia. }
  destruct (decide _) as [Ht|Hf]; cbn [length].
  - rewrite Ht in Hstep. lia.
  - destruct (truthy (KBAStep.imagePrompt step)); [done|]. lia.
Qed.

(** X13. [generateImages] answers with at most two images for each step
    that has an image prompt, the steps [generateKBA] counts when it
    announces the mockups. *)
Theorem generateImages_at_most_two_per_step content w :
  ∃ images events,
    generateImages env content w = (Ok images, extend w events) ∧
    (length images ≤
     2 * length (filter (λ s, truthy (KBAStep.imagePrompt s) = true)
                        (KBAContent.steps content)))%nat.
Proof.
  unfold generateImages, with_local, bind.
  destruct (renderSteps_images (KBAContent.steps content) w [])
    as (images & events & -> & Hsub & _).
  exists images, events. split; [done|].
  apply sublist_length in Hsub. rewrite length_fmap in Hsub.
  pose proof (plannedRenders_bound (KBAContent.steps content)). lia.
Qed.

End Images.

(** ** Publishing once more *)

Section Uploads.
Context (env : Env).
Import ConfluenceService KBAGeneratorWorkflow.

Lemma downloadsAttempted_app l1 l2 :
  downloadsAttempted (l1 ++ l2) = downloadsAttempted l2 ++ downloadsAttempted l1.
Proof. unfold downloadsAttempted. by rewrite rev_app_distr, bind_app. Qed.

Lemma uploadImage_download pageId image w :
  ∃ events,
    uploadImage env pageId image w = (Ok tt, extend w events) ∧
    downloadsAttempted events = [GeneratedImage.url image].
Proof.
  unfold uploadImage. mstep.
  destruct (http_download env (length (log w)) _) as [data|e].
  - destruct (confluence_post_attachment env _ pageId _) as [[]|e];
      (eexists; split; [unfold extend; do 2 f_equal; logged|done]).
  - eexists; split; [unfold extend; do 2 f_equal; logged|done].
Qed.

Lemma uploadImages_download pageId images w :
  ∃ events,
    uploadImages env pageId images w = (Ok tt, extend w events) ∧
    downloadsAttempted events = GeneratedImage.url <$> images.
Proof.
  unfold uploadImages. revert w.
  induction images as [|image images IH]; intros w.
  - exists []. by rewrite extend_nil.
  - cbn [for_each]. unfold bind at 1.
    destruct (uploadImage_download pageId image w) as (ev1 & -> & H1).
    destruct (IH (extend w ev1)) as (ev2 & -> & H2).
    exists (ev2 ++ ev1). rewrite extend_extend, downloadsAttempted_app, H1, H2.
    done.
Qed.

(** X14. [createKBAPage] posts the page before anything else.  When the
    post fails, nothing is fetched or attached and the failure is thrown
    on with the prefix of the method; when it succeeds, the location of
    every image is fetched, in the order of the images, whatever becomes
    of the single downloads and attachments, and the method returns the
    address [getPageUrl] gives for the new page. *)
Theorem createKBAPage_page_then_every_image content images jiraKey w :
  let page := kbaPage env content images jiraKey in
  match confluence_post_content env (now w) page with
  | Err e =>
      createKBAPage env content images jiraKey w =
      (Err ("Failed to create Confluence page: " +:+ e), extend w [PostContent page])
  | Ok pageId =>
      ∃ events,
        createKBAPage env content images jiraKey w =
        (Ok (getPageUrl env pageId), extend w (events ++ [PostContent page])) ∧
        downloadsAttempted events = GeneratedImage.url <$> images
  end.
Proof.
  cbv zeta. unfold createKBAPage. mstep.
  destruct (confluence_post_content env _ _) as [pageId|e]; [|done].
  match goal with
  | |- context [uploadImages env pageId images ?W] =>
      destruct (uploadImages_download pageId images W) as (events & -> & Hev)
  end.
  exists events. split; [|done]. unfold extend, getPageUrl. cbn [contexts log].
  by rewrite <- app_assoc.
Qed.

(** X15. [approveAndPublish] does not look at the stage.  Approving a
    conversation that is already published posts the same page to
    Confluence a second time, announces the second page and sets a
    second timer; the context stays as the first approval left it. *)
Theorem approval_repeats_publication
    contextKey userId userId' w context kbaDraft ticket pageId pageId' :
  let post := PostMessage (ConversationContext.channel context)
                          (ConversationContext.threadTs context) in
  let page := kbaPage env (KBADraft.content kbaDraft) (KBADraft.images kbaDraft)
                      (JiraTicket.key ticket) in
  let w1 := exec (approveAndPublish env contextKey userId) w in
  let w2 := exec (approveAndPublish env contextKey userId') w1 in
  contexts w !! contextKey = Some context →
  ConversationContext.kbaDraft context = Some kbaDraft →
  ConversationContext.jiraTicket context = Some ticket →
  confluence_post_content env (S (now w)) page = Ok pageId →
  confluence_post_content env (S (now w1)) page = Ok pageId' →
  contexts w1 !! contextKey = Some (ConversationContext.set_stage complete context) ∧
  head (log w1) = Some (SetTimeout contextKey 60000) ∧
  contexts w2 = contexts w1 ∧
  ∃ events,
    log w2 = SetTimeout contextKey 60000 ::
             post (MsgPublished (getPageUrl env pageId') (JiraTicket.key ticket)) ::
             events ++ PostContent page :: post MsgPublishing :: log w1.
Proof.
  intros post page w1 w2 Hc Hd Ht Hpost Hpost'.
  pose proof (approveAndPublish_runs env contextKey userId w context kbaDraft ticket
                Hc Hd Ht) as H1.
  cbv zeta in H1. fold post page in H1. rewrite Hpost in H1.
  destruct H1 as (events1 & H1 & _).
  assert (Hc1 : contexts w1 !! contextKey =
                Some (ConversationContext.set_stage complete context)).
  { subst w1. unfold exec. rewrite H1. apply lookup_insert_eq. }
  pose proof (approveAndPublish_runs env contextKey userId' w1 _ kbaDraft ticket
                Hc1 Hd Ht) as H2.
  cbv zeta in H2. cbn [ConversationContext.set_stage ConversationContext.channel
                       ConversationContext.threadTs] in H2.
  fold post page in H2. rewrite Hpost' in H2.
  destruct H2 as (events2 & H2 & _).
  split; [done|]. split; [subst w1; unfold exec; by rewrite H1|].
  subst w2. unfold exec at 1 2. rewrite H2. cbn [snd contexts log]. split.
  - subst w1. unfold exec. rewrite H1. cbn [snd contexts].
    by rewrite insert_insert_eq.
  - by exists events2.
Qed.

End Uploads.

(** ** What is written into the page body as it is *)

Section Verbatim.
Context (env : Env).
Import ConfluenceService.

Lemma includes_inside before n after : includes (before +:+ n +:+ after) n = true.
Proof. apply includes_append, includes_here. Qed.

Lemma inside_inside (a b c d s : string) :
  a +:+ (b +:+ s +:+ c) +:+ d = (a +:+ b) +:+ s +:+ (c +:+ d).
Proof. by rewrite !append_assoc. Qed.

Lemma joined_holds_element sep (x : string) xs :
  x ∈ xs → ∃ before after, String.concat sep xs = before +:+ x +:+ after.
Proof.
  induction 1 as [x xs|x y xs Hin (before & after & IH)].
  - destruct xs as [|z xs].
    + exists EmptyString, EmptyString. cbn. by rewrite append_nil.
    + by exists EmptyString, (sep +:+ String.concat sep (z :: xs)).
  - destruct xs as [|z xs]; [by apply elem_of_nil in Hin|].
    exists (y +:+ sep +:+ before), after.
    change (String.concat sep (y :: z :: xs))
      with (y +:+ sep +:+ String.concat sep (z :: xs)).
    by rewrite IH, !append_assoc.
Qed.

Lemma html_holds text (markup : list Fragment) s a b :
  Html text ∈ markup → text = a +:+ s +:+ b →
  includes (String.concat EmptyString (render <$> markup)) s = true.
Proof.
  intros (before & after & ->)%fragment_in_html ->. cbn [render].
  rewrite inside_inside. apply includes_inside.
Qed.

(** X16. The tags and the code snippets of the content stand in the page
    body character by character as they are in the content: they do not
    pass through [escapeHTML]. *)
Theorem page_body_takes_tags_and_code_verbatim content images jiraKey :
  let html := generateConfluenceHTML env content images jiraKey in
  (∀ tag, tag ∈ KBAContent.tags content → includes html tag = true) ∧
  (∀ step codeSnippet,
     step ∈ KBAContent.steps content →
     KBAStep.codeSnippet step = Some codeSnippet →
     includes html codeSnippet = true).
Proof.
  cbv zeta. unfold generateConfluenceHTML, generateConfluenceMarkup. split.
  - intros tag (before & after & Htag)%(joined_holds_element ", ").
    eapply (html_holds _ _ tag ("<p><strong>Tags:</strong> " +:+ before)
                       (after +:+ "</p>" +:+ nl)).
    + rewrite !elem_of_app. do 3 right. apply list_elem_of_singleton. reflexivity.
    + rewrite Htag. by rewrite !append_assoc.
  - intros step codeSnippet Hstep Hcode.
    destruct codeSnippet as [|c rest].
    { destruct (String.concat _ _); done. }
    eapply html_holds.
    + rewrite !elem_of_app. right. left. apply list_elem_of_bind.
      exists step. split; [|done]. unfold stepMarkup. rewrite Hcode.
      rewrite !elem_of_app. right. left.
      apply list_elem_of_further, list_elem_of_here.
    + reflexivity.
Qed.

End Verbatim.

(** ** The Slack listeners *)

Section Listeners.
Context (env : Env).
Import KBAGeneratorWorkflow SlackApp.

Lemma handleAnswer_returns channel threadTs userId answer w :
  handleAnswer env channel threadTs userId answer w =
  (Ok tt, exec (handleAnswer env channel threadTs userId answer) w).
Proof.
  unfold exec, handleAnswer, Workflow.handleAnswer. mstep.
  destruct (contexts w !! _) as [context|]; [|done].
  destruct (decide _); [done|].
  destruct (_ <=? _)%nat; [|done].
  match goal with
  | |- context [generateKBA env ?k ?W] =>
      destruct (generateKBA_returns env k W) as [w' ->]
  end.
  done.
Qed.

Lemma startWorkflow_returns channel threadTs userId jiraUrl w :
  startWorkflow env channel threadTs userId jiraUrl w =
  (Ok tt, exec (startWorkflow env channel threadTs userId jiraUrl) w).
Proof.
  pose proof (startWorkflow_runs env channel threadTs userId jiraUrl w) as H.
  cbv zeta in H. unfold exec.
  destruct (JiraService.extractTicketKey jiraUrl); [|by rewrite H].
  destruct (jira_getTicket env _ _); [|by rewrite H].
  destruct (openai_questions env _ _) as [[|q questions]|]; [|by rewrite H..].
  rewrite H.
  match goal with
  | |- context [generateKBA env ?k ?W] =>
      destruct (generateKBA_returns env k W) as [w' ->]
  end.
  done.
Qed.

(** X17. In a thread whose conversation waits for answers, every plain
    message with a text is taken as an answer, also one that names a
    ticket or holds a Jira address: the listener replies nothing itself
    and the world is the one [handleAnswer] leaves. *)
Theorem message_in_asking_thread_is_answer message text w replies context :
  truthy (MessageEvent.subtype message) = false →
  MessageEvent.text message = Some text →
  text ≠ EmptyString →
  contexts w !! key_of message = Some context →
  ConversationContext.stage context = asking_questions →
  onMessage env message (w, replies) =
  (Ok tt,
   (exec (handleAnswer env (MessageEvent.channel message) (thread_of message)
                       (MessageEvent.user message) text) w,
    replies)).
Proof.
  intros Hsub Htext Hne Hc Hstage. unfold onMessage, key_of, thread_of in *.
  rewrite Hsub, Htext. destruct text as [|c rest]; [done|].
  cbn [truthy negb orb default from_option id].
  destruct (_ || _); mstep; rewrite Hc; (destruct (decide _); [|done]);
    mstep; by rewrite handleAnswer_returns.
Qed.

(** X18. A message changes nothing and is not replied to when its thread
    has a conversation that does not wait for answers, whatever the
    message says, and when its thread has no conversation and the text
    holds neither a Jira address nor a ticket key. *)
Theorem message_is_dropped message w replies :
  match contexts w !! key_of message with
  | Some context => ConversationContext.stage context ≠ asking_questions
  | None =>
      ∀ text, MessageEvent.text message = Some text →
              isValidJiraUrl env text = false ∧
              JiraService.extractTicketKey text = None
  end →
  onMessage env message (w, replies) = (Ok tt, (w, replies)).
Proof.
  intros H. unfold onMessage. fold (thread_of message). fold (key_of message).
  destruct (truthy (MessageEvent.subtype message)); [done|].
  destruct (MessageEvent.text message) as [[|c rest]|] eqn:Htext; [done| |done].
  cbn [truthy negb orb default from_option id].
  destruct (contexts w !! key_of message) as [context|] eqn:Hc.
  - destruct (_ || _); mstep; rewrite Hc; by destruct (decide _).
  - destruct (H _ eq_refl) as [Hurl Hkey]. unfold isValidJiraUrl in Hurl.
    rewrite Hurl, Hkey. cbn. mstep. by rewrite Hc.
Qed.

(** X19. A message with a Jira address from which no key can be read, in
    a thread without a conversation, is greeted by the listener; the
    workflow then reports that it could not extract a key, asks Jira
    nothing and stores no context. *)
Theorem url_without_key_is_greeted_then_refused message text w replies :
  let post := PostMessage (MessageEvent.channel message) (thread_of message) in
  truthy (MessageEvent.subtype message) = false →
  MessageEvent.text message = Some text →
  isValidJiraUrl env text = true →
  JiraService.extractTicketKey text = None →
  contexts w !! key_of message = None →
  onMessage env message (w, replies) =
  (Ok tt,
   ({| contexts := contexts w;
       log := post MsgNoTicketKey :: post MsgAnalyzing :: log w |},
    Say (thread_of message) (greeting (MessageEvent.user message)) :: replies)).
Proof.
  intros post Hsub Htext Hurl Hkey Hc. unfold onMessage.
  fold (thread_of message). fold (key_of message).
  assert (Hne : text ≠ EmptyString).
  { intros ->. unfold isValidJiraUrl in Hurl.
    apply andb_prop in Hurl as [_ Hb]. done. }
  rewrite Hsub, Htext. destruct text as [|c rest]; [done|].
  cbn [truthy negb orb default from_option id].
  unfold isValidJiraUrl in Hurl. rewrite Hurl. cbn [orb].
  pose proof (startWorkflow_runs env (MessageEvent.channel message) (thread_of message)
                (MessageEvent.user message) (String c rest) w) as H.
  cbv zeta in H. rewrite Hkey in H.
  unfold reply. mstep. rewrite Hc. mstep. by rewrite H.
Qed.

(** X20. A mention with a ticket key does not ask whether the thread has
    a conversation: when the ticket is found and questions come back, the
    thread has afterwards a new conversation without answers and without
    a draft, whatever it had before. *)
Theorem mention_restarts_conversation event text w replies ticketKey ticket questions :
  let threadTs := or_else (MentionEvent.thread_ts event) (MentionEvent.ts event) in
  let contextKey := MentionEvent.channel event +:+ "-" +:+ threadTs in
  let result := onAppMention env event (w, replies) in
  MentionEvent.text event = Some text →
  JiraService.extractTicketKey text = Some ticketKey →
  jira_getTicket env (S (now w)) ticketKey = Ok ticket →
  openai_questions env (3 + now w) ticket = Ok questions →
  questions ≠ [] →
  result.1 = Ok tt ∧
  contexts result.2.1 !! contextKey =
    Some (asking (MentionEvent.channel event) threadTs (MentionEvent.user event)
                 ticket questions) ∧
  result.2.2 = Say threadTs (greeting (MentionEvent.user event)) :: replies.
Proof.
  intros threadTs contextKey result Htext Hkey Hticket Hq Hne.
  subst result. unfold onAppMention. fold threadTs.
  assert (Htxt : text ≠ EmptyString) by (by intros ->).
  rewrite Htext. destruct text as [|c rest]; [done|].
  cbn [truthy negb default from_option id]. rewrite Hkey.
  pose proof (startWorkflow_runs env (MentionEvent.channel event) threadTs
                (MentionEvent.user event) (String c rest) w) as H.
  cbv zeta in H. rewrite Hkey, Hticket, Hq in H.
  destruct questions as [|q questions]; [done|].
  unfold reply. mstep. rewrite H. cbn.
  split; [done|]. split; [|done]. apply lookup_insert_eq.
Qed.

(** X21. A click on a button whose value names no conversation (the
    conversation was cancelled, or removed after publication) is
    acknowledged and the message of the button is rewritten, to
    [Publishing KBA to Confluence...] for the approval; the workflow does
    nothing and sends nothing. *)
Theorem stale_button_only_updates_message contextKey userId channel ts w replies :
  let body := click contextKey userId channel ts in
  contextKey ≠ EmptyString →
  contexts w !! contextKey = None →
  onApprove env body (w, replies) =
    (Ok tt, (w, ChatUpdate channel ts ":hourglass: Publishing KBA to Confluence..."
                           ":hourglass: Publishing KBA to Confluence..." ::
                Ack :: replies)) ∧
  onRequestChanges body (w, replies) =
    (Ok tt, (w, ChatUpdate channel ts "Waiting for change requests..."
                           ":pencil: Waiting for your feedback..." ::
                Ack :: replies)) ∧
  onCancel body (w, replies) =
    (Ok tt, (w, ChatUpdate channel ts "KBA generation cancelled"
                           ":x: KBA generation cancelled" ::
                Ack :: replies)).
Proof.
  intros body Hne Hc. destruct contextKey as [|c rest]; [done|].
  unfold onApprove, onRequestChanges, onCancel, onAction, reply,
    approveAndPublish, Workflow.approveAndPublish, requestChanges, Workflow.requestChanges, cancelKBA, Workflow.cancelKBA.
  cbn [body click ActionBody.type ActionBody.actions Action.type Action.value
       ActionBody.user_id ActionBody.channel_id ActionBody.message_ts
       String.eqb Ascii.eqb Bool.eqb negb orb truthy default from_option id].
  mstep. rewrite Hc. destruct w. done.
Qed.

End Listeners.

(** ** The workflow over a chat that delivers *)

Section Delivery.
Context (env : Env) (chat : Chat) (Hchat : delivers chat).

Lemma bind_ext {S A B} (m m' : M S A) (k k' : A → M S B) s :
  m s = m' s → (∀ a s', k a s' = k' a s') → bind m k s = bind m' k' s.
Proof.
  intros Hm Hk. unfold bind. rewrite Hm.
  destruct (m' s) as [[a|e] s']; [apply Hk|done].
Qed.

Lemma try_catch_ext {S A} (m m' : M S A) (h h' : string → M S A) s :
  m s = m' s → (∀ e s', h e s' = h' e s') → try_catch m h s = try_catch m' h' s.
Proof.
  intros Hm Hh. unfold try_catch. rewrite Hm.
  destruct (m' s) as [[a|e] s']; [done|apply Hh].
Qed.

(** Over a chat that delivers, the methods of [Workflow] are those of
    [KBAGeneratorWorkflow]. *)
Lemma sendMessage_delivers channel threadTs m w :
  Workflow.sendMessage chat channel threadTs m w =
  Workflow.sendMessage delivering channel threadTs m w.
Proof. unfold Workflow.sendMessage, external. by rewrite Hchat. Qed.

Ltac same lemmas :=
  repeat first
    [ reflexivity
    | progress intros
    | progress cbv zeta
    | apply sendMessage_delivers
    | lemmas
    | apply bind_ext
    | apply try_catch_ext
    | match goal with
      | |- context [match ?x with _ => _ end] => destruct x
      | |- context [if ?x then _ else _] => destruct x
      end ].

Lemma showPreview_delivers contextKey w :
  Workflow.showPreview chat contextKey w =
  KBAGeneratorWorkflow.showPreview contextKey w.
Proof.
  unfold KBAGeneratorWorkflow.showPreview, Workflow.showPreview. same fail.
Qed.

Lemma generateKBA_delivers contextKey w :
  Workflow.generateKBA env chat contextKey w =
  KBAGeneratorWorkflow.generateKBA env contextKey w.
Proof.
  unfold KBAGeneratorWorkflow.generateKBA, Workflow.generateKBA.
  same ltac:(apply showPreview_delivers).
Qed.

Lemma startWorkflow_delivers channel threadTs userId jiraUrl w :
  Workflow.startWorkflow env chat channel threadTs userId jiraUrl w =
  KBAGeneratorWorkflow.startWorkflow env channel threadTs userId jiraUrl w.
Proof.
  unfold KBAGeneratorWorkflow.startWorkflow, Workflow.startWorkflow.
  same ltac:(apply generateKBA_delivers).
Qed.

Lemma handleAnswer_delivers channel threadTs userId answer w :
  Workflow.handleAnswer env chat channel threadTs userId answer w =
  KBAGeneratorWorkflow.handleAnswer env channel threadTs userId answer w.
Proof.
  unfold KBAGeneratorWorkflow.handleAnswer, Workflow.handleAnswer.
  same ltac:(apply generateKBA_delivers).
Qed.

Lemma approveAndPublish_delivers contextKey userId w :
  Workflow.approveAndPublish env chat contextKey userId w =
  KBAGeneratorWorkflow.approveAndPublish env contextKey userId w.
Proof.
  unfold KBAGeneratorWorkflow.approveAndPublish, Workflow.approveAndPublish.
  same fail.
Qed.

Lemma requestChanges_delivers contextKey w :
  Workflow.requestChanges chat contextKey w =
  KBAGeneratorWorkflow.requestChanges contextKey w.
Proof. unfold KBAGeneratorWorkflow.requestChanges, Workflow.requestChanges. same fail. Qed.

Lemma cancelKBA_delivers contextKey w :
  Workflow.cancelKBA chat contextKey w =
  KBAGeneratorWorkflow.cancelKBA contextKey w.
Proof. unfold KBAGeneratorWorkflow.cancelKBA, Workflow.cancelKBA. same fail. Qed.

Lemma run_op_delivers op w : run_op_over env chat op w = run_op env op w.
Proof.
  destruct op; cbn [run_op_over run_op];
    auto using startWorkflow_delivers, handleAnswer_delivers,
      approveAndPublish_delivers, requestChanges_delivers, cancelKBA_delivers.
Qed.

Lemma run_ops_delivers ops w : run_ops_over env chat ops w = run_ops env ops w.
Proof.
  revert w. induction ops as [|op ops IH]; intros w; [done|].
  cbn [run_ops_over run_ops]. unfold exec. by rewrite run_op_delivers, IH.
Qed.

End Delivery.

(** ** The answers and the change requests *)

Section Excess.
Context (env : Env).
Import KBAGeneratorWorkflow.

Lemma excess_within_le r context :
  excess_within r context →
  (size (ConversationContext.userAnswers context) ≤
   length (ConversationContext.questionsAsked context) + r)%nat.
Proof. unfold excess_within. destruct (ConversationContext.stage context); lia. Qed.

Lemma excess_insert allowed contextKey context w l :
  excess_invariant allowed w →
  is_Some (ConversationContext.jiraTicket context) →
  excess_within (allowed contextKey) context →
  excess_invariant allowed
    {| contexts := <[contextKey := context]> (contexts w); log := l |}.
Proof.
  intros Hinv Ht Hb k c. cbn [contexts]. rewrite lookup_insert.
  case_decide as Hk; [intros [= <-]; by subst k | apply Hinv].
Qed.

Lemma excess_delete allowed contextKey w l :
  excess_invariant allowed w →
  excess_invariant allowed {| contexts := delete contextKey (contexts w); log := l |}.
Proof.
  intros Hinv k c. cbn [contexts]. rewrite lookup_delete.
  case_decide; [done | apply Hinv].
Qed.

Lemma excess_log allowed w l :
  excess_invariant allowed w →
  excess_invariant allowed {| contexts := contexts w; log := l |}.
Proof. intros Hinv k c. apply Hinv. Qed.

Lemma excess_mono allowed allowed' w :
  (∀ k, (allowed k ≤ allowed' k)%nat) →
  excess_invariant allowed w → excess_invariant allowed' w.
Proof.
  intros Hle Hinv k c Hc. destruct (Hinv k c Hc) as [Ht Hb]. split; [done|].
  specialize (Hle k). unfold excess_within in *.
  destruct (ConversationContext.stage c); lia.
Qed.

(** Generation leaves the context under review, with the answers it had,
    or removes it. *)
Lemma generateKBA_excess allowed contextKey context l w :
  excess_invariant allowed w →
  is_Some (ConversationContext.jiraTicket context) →
  (size (ConversationContext.userAnswers context) ≤
   length (ConversationContext.questionsAsked context) + allowed contextKey)%nat →
  excess_invariant allowed
    (exec (generateKBA env contextKey)
          {| contexts := <[contextKey := context]> (contexts w); log := l |}).
Proof.
  intros Hinv [ticket Ht] Hle. unfold exec.
  match goal with
  | |- context [generateKBA env contextKey ?W] =>
      pose proof (generateKBA_runs env contextKey W context ticket
                    (lookup_insert_eq _ _ _) Ht) as Hgen
  end.
  cbv zeta in Hgen.
  destruct (openai_content env _ ticket _) as [content|e].
  - destruct Hgen as (images & events & -> & _). cbn [snd contexts].
    rewrite insert_insert_eq. apply excess_insert; [done| |done].
    cbn. by rewrite Ht.
  - rewrite Hgen. cbn [snd contexts]. rewrite delete_insert_eq.
    by apply excess_delete.
Qed.

Lemma startWorkflow_excess allowed channel threadTs userId jiraUrl w :
  excess_invariant allowed w →
  excess_invariant allowed (exec (startWorkflow env channel threadTs userId jiraUrl) w).
Proof.
  intros Hinv. unfold exec.
  pose proof (startWorkflow_runs env channel threadTs userId jiraUrl w) as Hrun.
  cbv zeta in Hrun.
  destruct (JiraService.extractTicketKey jiraUrl) as [ticketKey|];
    [|rewrite Hrun; by apply excess_log].
  destruct (jira_getTicket env _ ticketKey) as [ticket|e];
    [|rewrite Hrun; by apply excess_delete].
  destruct (openai_questions env _ ticket) as [[|q questions]|e];
    rewrite Hrun.
  - apply generateKBA_excess; [done|done|]. cbn. rewrite map_size_empty. lia.
  - cbn [snd contexts]. apply excess_insert; [done|done|].
    unfold excess_within. cbn. rewrite map_size_empty. lia.
  - by apply excess_delete.
Qed.

Lemma size_insert_le (userAnswers : gmap string string) key answer :
  (size (<[key := answer]> userAnswers) ≤ S (size userAnswers))%nat.
Proof.
  destruct (userAnswers !! key) eqn:Hk.
  - rewrite map_size_insert_Some by done. lia.
  - rewrite map_size_insert_None by done. lia.
Qed.

Lemma handleAnswer_excess allowed channel threadTs userId answer w :
  excess_invariant allowed w →
  excess_invariant allowed (exec (handleAnswer env channel threadTs userId answer) w).
Proof.
  intros Hinv. unfold exec, handleAnswer, Workflow.handleAnswer. mstep.
  destruct (contexts w !! _) as [context|] eqn:Hc; [|done].
  destruct (decide _) as [|Hstage%dec_stable]; [done|]. mstep.
  destruct (Hinv _ _ Hc) as [Ht Hb]. unfold excess_within in Hb.
  rewrite Hstage in Hb. cbv zeta in Hb.
  pose proof (size_insert_le (ConversationContext.userAnswers context)
                ("answer_" +:+ pretty
                   (size (ConversationContext.userAnswers context) + 1)%nat)
                answer) as Hsize.
  destruct (Nat.leb_spec (length (ConversationContext.questionsAsked context))
              (size (<["answer_" +:+ pretty
                         (size (ConversationContext.userAnswers context) + 1)%nat
                       := answer]> (ConversationContext.userAnswers context))))
    as [Hle|Hlt]; mstep.
  - match goal with
    | |- context [generateKBA env ?k {| contexts := <[_ := ?c]> _; log := ?l |}] =>
        apply (generateKBA_excess allowed k c l w Hinv)
    end; cbn; [done|lia].
  - apply excess_insert; [done|done|].
    unfold excess_within. cbn. rewrite Hstage. lia.
Qed.

Lemma approveAndPublish_excess allowed contextKey userId w :
  excess_invariant allowed w →
  excess_invariant allowed (exec (approveAndPublish env contextKey userId) w).
Proof.
  intros Hinv. unfold exec.
  destruct (contexts w !! contextKey) as [context|] eqn:Hc;
    [|unfold approveAndPublish, Workflow.approveAndPublish; mstep; by rewrite Hc].
  destruct (ConversationContext.kbaDraft context) as [kbaDraft|] eqn:Hd;
    [|unfold approveAndPublish, Workflow.approveAndPublish; mstep; by rewrite Hc, Hd].
  destruct (Hinv _ _ Hc) as [[ticket Ht] Hb].
  pose proof (approveAndPublish_runs env contextKey userId w context kbaDraft
                ticket Hc Hd Ht) as Hrun.
  cbv zeta in Hrun.
  destruct (confluence_post_content env _ _) as [pageId|e].
  - destruct Hrun as (events & -> & _). cbn [snd].
    apply excess_insert; [done|cbn; by rewrite Ht|].
    apply excess_within_le in Hb. by unfold excess_within.
  - rewrite Hrun. by apply excess_log.
Qed.

(** One operation: a change request allows its context one answer more. *)
Lemma excess_step allowed op w :
  excess_invariant allowed w →
  excess_invariant
    (λ k, (allowed k + if is_change_request k op then 1 else 0)%nat)
    (exec (run_op env op) w).
Proof.
  intros Hinv.
  assert (Hmono : ∀ w',
    excess_invariant allowed w' →
    excess_invariant
      (λ k, (allowed k + if is_change_request k op then 1 else 0)%nat) w').
  { intros w'. apply excess_mono. intros k. lia. }
  destruct op as [channel threadTs userId jiraUrl|channel threadTs userId answer
                 |contextKey userId|contextKey|contextKey|contextKey];
    cbn [run_op].
  - by apply Hmono, startWorkflow_excess.
  - by apply Hmono, handleAnswer_excess.
  - by apply Hmono, approveAndPublish_excess.
  - unfold exec, requestChanges, Workflow.requestChanges. mstep.
    destruct (contexts w !! contextKey) as [context|] eqn:Hc; [|by apply Hmono].
    mstep. destruct (Hinv _ _ Hc) as [Ht Hb%excess_within_le].
    apply excess_insert; [by apply Hmono|done|].
    unfold excess_within. cbn. rewrite bool_decide_eq_true_2 by done. lia.
  - apply Hmono. unfold exec, cancelKBA, Workflow.cancelKBA. mstep.
    destruct (contexts w !! contextKey) as [context|] eqn:Hc; [|done]. mstep.
    by apply excess_delete.
  - apply Hmono. unfold exec, cleanup, Workflow.cleanup. mstep.
    by apply excess_delete.
Qed.

Lemma change_requests_cons contextKey op ops :
  change_requests contextKey (op :: ops) =
  ((if is_change_request contextKey op then 1 else 0) +
   change_requests contextKey ops)%nat.
Proof.
  unfold change_requests. rewrite filter_cons.
  destruct (is_change_request contextKey op); by destruct (decide _).
Qed.

Lemma excess_run allowed ops w :
  excess_invariant allowed w →
  excess_invariant (λ k, (allowed k + change_requests k ops)%nat) (run_ops env ops w).
Proof.
  revert allowed w. induction ops as [|op ops IH]; intros allowed w Hinv.
  - cbn [run_ops]. eapply excess_mono; [|exact Hinv].
    intros k. unfold change_requests. cbn. lia.
  - cbn [run_ops]. eapply excess_mono; [|apply IH, excess_step, Hinv].
    intros k. cbn beta. rewrite change_requests_cons. lia.
Qed.

Lemma excess_empty : excess_invariant (λ _, 0%nat) empty_world.
Proof. intros k c. cbn. by rewrite lookup_empty. Qed.

End Excess.

Section Bound.
Context (env : Env) (chat : Chat).

(** C2, as the code has it.  Over a chat that delivers, and whatever
    entry points were called since the start of the process: a
    conversation that waits for answers holds at most as many answers more
    than questions as changes were requested for it, less one.  So the
    bound of the data model holds until the second change request: the
    first one reopens a conversation with as many answers as questions at
    most, the message that follows it is stored as one answer more, and the
    next change request reopens the conversation with it. *)
Theorem answers_exceed_by_change_requests ops contextKey context :
  delivers chat →
  contexts (run_ops_over env chat ops empty_world) !! contextKey = Some context →
  ConversationContext.stage context = asking_questions →
  (size (ConversationContext.userAnswers context) ≤
   length (ConversationContext.questionsAsked context) +
   (change_requests contextKey ops - 1))%nat.
Proof.
  intros Hchat Hc Hstage. rewrite run_ops_delivers in Hc by done.
  destruct (excess_run env (λ _, 0%nat) ops empty_world (excess_empty) _ _ Hc)
    as [_ Hb].
  unfold excess_within in Hb. rewrite Hstage in Hb. cbv zeta in Hb. lia.
Qed.

End Bound.

(** ** The contexts a call leaves behind *)

Section Kept.
Context (env : Env) (chat : Chat).
Import Workflow.

Lemma keeps_ret {A} (a : A) : keeps (ret a).
Proof. by intros w. Qed.

Lemma keeps_throw {A} e : keeps (throw (A := A) e).
Proof. by intros w. Qed.

Lemma keeps_bind {A B} (m : M World A) (k : A → M World B) :
  keeps m → (∀ a, keeps (k a)) → keeps (bind m k).
Proof.
  intros Hm Hk w Hw. unfold bind. specialize (Hm w Hw).
  destruct (m w) as [[a|e] w']; [by apply Hk|done].
Qed.

Lemma keeps_try_catch {A} (m : M World A) h :
  keeps m → (∀ e, keeps (h e)) → keeps (try_catch m h).
Proof.
  intros Hm Hh w Hw. unfold try_catch. specialize (Hm w Hw).
  destruct (m w) as [[a|e] w']; [done|by apply Hh].
Qed.

Lemma keeps_for_each {A} (l : list A) body :
  (∀ x, keeps (body x)) → keeps (for_each l body).
Proof.
  intros Hbody. induction l as [|x l IH]; [apply keeps_ret|].
  cbn [for_each]. by apply keeps_bind.
Qed.

Lemma keeps_external {A} e (oracle : nat → Result A) : keeps (external e oracle).
Proof. by intros w. Qed.

Lemma keeps_emit e : keeps (emit e).
Proof. by intros w. Qed.

(** A computation that only adds to the log. *)
Lemma keeps_extend {A} (m : M World A) :
  (∀ w, ∃ events, (m w).2 = extend w events) → keeps m.
Proof. intros Hm w Hw. destruct (Hm w) as [events ->]. exact Hw. Qed.

Lemma keeps_getContext {B} contextKey (k : option ConversationContext.t → M World B) :
  (∀ c, (∀ context, c = Some context → kept contextKey context) → keeps (k c)) →
  keeps (bind (getContext contextKey) k).
Proof.
  intros Hk w Hw. unfold bind, getContext. apply Hk; [|done].
  intros context Hc. by apply Hw.
Qed.

Lemma keeps_setContext contextKey context :
  kept contextKey context → keeps (setContext contextKey context).
Proof.
  intros Hk w Hw k c. unfold setContext. cbn [snd contexts].
  rewrite lookup_insert. case_decide; [intros [= <-]; by subst k|apply Hw].
Qed.

Lemma keeps_deleteContext contextKey : keeps (deleteContext contextKey).
Proof.
  intros w Hw k c. unfold deleteContext. cbn [snd contexts].
  rewrite lookup_delete. case_decide; [done|apply Hw].
Qed.

Lemma keeps_sendMessage channel threadTs m : keeps (sendMessage chat channel threadTs m).
Proof. apply keeps_external. Qed.

Lemma keeps_generateImages content : keeps (OpenAIService.generateImages env content).
Proof.
  apply keeps_extend. intros w.
  destruct (generateImages_runs env content w) as (images & events & -> & _).
  by exists events.
Qed.

Lemma keeps_createKBAPage content images jiraKey :
  keeps (ConfluenceService.createKBAPage env content images jiraKey).
Proof.
  apply keeps_extend. intros w.
  pose proof (createKBAPage_runs env content images jiraKey w) as H.
  cbv zeta in H.
  destruct (confluence_post_content env _ _).
  - destruct H as (events & -> & _). by eexists.
  - rewrite H. by eexists.
Qed.

Ltac keeps_step :=
  first
    [ apply keeps_ret | apply keeps_throw | apply keeps_sendMessage
    | apply keeps_external | apply keeps_emit | apply keeps_deleteContext
    | apply keeps_generateImages | apply keeps_createKBAPage
    | apply keeps_getContext; intros [?context|] ?Hkept
    | apply keeps_bind; [|intros ?]
    | apply keeps_try_catch; [|intros ?]
    | apply keeps_for_each; intros ?
    | apply keeps_setContext ].

Lemma keeps_showPreview contextKey : keeps (showPreview chat contextKey).
Proof.
  unfold showPreview. cbv zeta.
  apply keeps_getContext. intros [context|] Hkept; [|apply keeps_ret].
  destruct (ConversationContext.kbaDraft context); [|apply keeps_ret].
  unfold uploadPreview. repeat keeps_step.
Qed.

Lemma kept_stage contextKey context stage :
  kept contextKey context →
  match stage with
  | initial => False
  | review | complete => is_Some (ConversationContext.kbaDraft context)
  | _ => True
  end →
  kept contextKey (ConversationContext.set_stage stage context).
Proof. intros (Hk & Ht & Hd & _) Hs. by repeat split. Qed.

Lemma kept_userAnswers contextKey context userAnswers :
  kept contextKey context →
  kept contextKey (ConversationContext.set_userAnswers userAnswers context).
Proof. by intros (Hk & Ht & Hd & Hs). Qed.

Lemma keeps_generateKBA contextKey : keeps (generateKBA env chat contextKey).
Proof.
  unfold generateKBA. cbv zeta.
  apply keeps_getContext. intros [context|] Hkept; [|apply keeps_ret].
  specialize (Hkept _ eq_refl).
  destruct (ConversationContext.jiraTicket context) as [jiraTicket|] eqn:Ht;
    [|apply keeps_ret].
  apply keeps_try_catch; [|intros e; repeat keeps_step].
  apply keeps_bind; [apply keeps_setContext; by apply kept_stage|intros _].
  apply keeps_bind; [apply keeps_sendMessage|intros _].
  apply keeps_bind; [apply keeps_external|intros content].
  apply keeps_bind; [destruct (_ <? _)%nat; repeat keeps_step|intros images].
  apply keeps_bind; [|intros _; apply keeps_showPreview].
  apply keeps_setContext. destruct Hkept as (Hk & _ & _ & _).
  repeat split; cbn; [done|by rewrite Ht|by intros ? [= <-]|done].
Qed.

Lemma keeps_startWorkflow channel threadTs userId jiraUrl :
  keeps (startWorkflow env chat channel threadTs userId jiraUrl).
Proof.
  unfold startWorkflow. cbv zeta.
  apply keeps_try_catch; [|intros e; repeat keeps_step].
  apply keeps_bind; [apply keeps_sendMessage|intros _].
  destruct (JiraService.extractTicketKey jiraUrl) as [ticketKey|];
    [|apply keeps_sendMessage].
  apply keeps_bind; [apply keeps_external|intros ticket].
  apply keeps_bind; [apply keeps_setContext; by repeat split|intros _].
  apply keeps_bind; [apply keeps_sendMessage|intros _].
  apply keeps_bind; [apply keeps_external|intros questions].
  apply keeps_bind; [apply keeps_setContext; by repeat split|intros _].
  destruct (_ =? _)%nat; [apply keeps_generateKBA|apply keeps_sendMessage].
Qed.

Lemma keeps_handleAnswer channel threadTs userId answer :
  keeps (handleAnswer env chat channel threadTs userId answer).
Proof.
  unfold handleAnswer. cbv zeta.
  apply keeps_getContext. intros [context|] Hkept; [|apply keeps_ret].
  specialize (Hkept _ eq_refl).
  destruct (decide _); [apply keeps_ret|].
  apply keeps_bind; [apply keeps_setContext; by apply kept_userAnswers|intros _].
  destruct (_ <=? _)%nat; [|apply keeps_sendMessage].
  apply keeps_bind; [apply keeps_sendMessage|intros _]. apply keeps_generateKBA.
Qed.

Lemma keeps_approveAndPublish contextKey userId :
  keeps (approveAndPublish env chat contextKey userId).
Proof.
  unfold approveAndPublish. cbv zeta.
  apply keeps_getContext. intros [context|] Hkept; [|apply keeps_ret].
  specialize (Hkept _ eq_refl).
  destruct (ConversationContext.kbaDraft context) as [kbaDraft|] eqn:Hd;
    [|apply keeps_ret].
  apply keeps_try_catch; [|intros e; apply keeps_sendMessage].
  apply keeps_bind; [apply keeps_sendMessage|intros _].
  apply keeps_bind;
    [destruct (ConversationContext.jiraTicket context); repeat keeps_step
    |intros ticketKey].
  apply keeps_bind; [apply keeps_createKBAPage|intros pageUrl].
  apply keeps_bind; [|intros _; repeat keeps_step].
  apply keeps_setContext, kept_stage; [done|]. by rewrite Hd.
Qed.

Lemma keeps_run_op op : keeps (run_op_over env chat op).
Proof.
  destruct op as [channel threadTs userId jiraUrl|channel threadTs userId answer
                 |contextKey userId|contextKey|contextKey|contextKey];
    cbn [run_op_over].
  - apply keeps_startWorkflow.
  - apply keeps_handleAnswer.
  - apply keeps_approveAndPublish.
  - unfold requestChanges. cbv zeta.
    apply keeps_getContext. intros [context|] Hkept; [|apply keeps_ret].
    apply keeps_bind; [apply keeps_sendMessage|intros _].
    apply keeps_setContext, kept_stage; [by apply Hkept|done].
  - unfold cancelKBA.
    apply keeps_getContext. intros [context|] Hkept; [|apply keeps_ret].
    repeat keeps_step.
  - apply keeps_deleteContext.
Qed.

Lemma keeps_run_ops ops w : all_kept w → all_kept (run_ops_over env chat ops w).
Proof.
  revert w. induction ops as [|op ops IH]; intros w Hw; [done|].
  cbn [run_ops_over]. by apply IH, keeps_run_op.
Qed.

(** X9. Whatever entry points were called since the start of the
    process, and whatever the chat answered, a stored context stands under
    the key made of its channel and thread, carries its ticket, is not in
    the stage [initial], carries a draft in the stages [review] and
    [complete], and any draft it carries is a draft for its own ticket.
    When the chat delivers every message, the context is moreover in one
    of the stages [asking_questions], [review] and [complete]: the stages
    [analyzing] and [generating] are left behind only by a call that a
    rejected message cut short. *)
Theorem reachable_contexts_at_rest ops contextKey context :
  contexts (run_ops_over env chat ops empty_world) !! contextKey = Some context →
  kept contextKey context ∧ (delivers chat → at_rest contextKey context).
Proof.
  intros Hc. split.
  - apply (keeps_run_ops ops empty_world); [|done].
    intros k c. cbn. by rewrite lookup_empty.
  - intros Hchat. rewrite run_ops_delivers in Hc by done.
    apply (rest_run_ops env ops empty_world); [|done].
    intros k c. cbn. by rewrite lookup_empty.
Qed.

End Kept.

(** ** A start whose report is rejected *)

Section Report.
Context (env : Env) (chat : Chat).
Import Workflow.

(** C6, on the code as it is.  Take a start that found its ticket and
    stored the context, and whose question generation fails.  The handler
    of the failure posts the report and then removes the context: when the
    chat delivers the report the context is gone, but when the chat
    rejects the report the method throws before the removal, and the
    context stays stored in the stage [analyzing]. *)
Theorem rejected_report_leaves_context
    channel threadTs userId jiraUrl w ticketKey ticket e :
  let contextKey := channel +:+ "-" +:+ threadTs in
  let post := PostMessage channel threadTs in
  let l := post (MsgStartError e) :: GenerateClarifyingQuestions ticket ::
           post (MsgTicketFound ticket) :: GetTicket ticketKey ::
           post MsgAnalyzing :: log w in
  JiraService.extractTicketKey jiraUrl = Some ticketKey →
  chat (now w) channel threadTs MsgAnalyzing = Ok tt →
  jira_getTicket env (S (now w)) ticketKey = Ok ticket →
  chat (2 + now w) channel threadTs (MsgTicketFound ticket) = Ok tt →
  openai_questions env (3 + now w) ticket = Err e →
  startWorkflow env chat channel threadTs userId jiraUrl w =
  match chat (4 + now w) channel threadTs (MsgStartError e) with
  | Ok _ => (Ok tt, {| contexts := delete contextKey (contexts w); log := l |})
  | Err e' =>
      (Err e',
       {| contexts :=
            <[contextKey :=
                ConversationContext.mk threadTs channel userId (Some ticket) None
                                       analyzing [] ∅]> (contexts w);
          log := l |})
  end.
Proof.
  intros contextKey post l Hkey Hpost1 Hticket Hpost2 Hquestions.
  unfold now in *. cbn [Nat.add] in *.
  unfold startWorkflow. mstep.
  rewrite Hpost1, Hkey. mstep. rewrite Hticket. mstep.
  rewrite Hpost2. mstep. rewrite Hquestions. mstep.
  destruct (chat _ channel threadTs (MsgStartError e)) as [[]|e']; [|done].
  mstep. by rewrite delete_insert_eq.
Qed.

End Report.

(** ** The answers of a conversation *)

Section Once.
Context (env : Env) (chat : Chat).

(** C1, as the code has it.  Take a conversation that waits for the
    answers to its N >= 1 clarifying questions and has none yet, over a
    chat that delivers.  While fewer than N answers were submitted, content
    generation has not been requested and every submission sits in the
    answer set.  The N-th answer requests content generation, exactly
    once; what is left of the conversation is then under review with
    exactly N answers.  Answer messages that follow are not accepted: they
    leave the world as it is.  An answer for a thread that has no
    conversation, or whose conversation is not in the asking-questions
    stage, changes nothing and sends nothing, whatever the chat. *)
Theorem answers_trigger_generation_once
    channel threadTs userId w context ticket (answers extra : list string) :
  let contextKey := channel +:+ "-" +:+ threadTs in
  let submit := submitAnswers_over env chat channel threadTs userId in
  delivers chat →
  contexts w !! contextKey = Some context →
  ConversationContext.stage context = asking_questions →
  ConversationContext.userAnswers context = ∅ →
  ConversationContext.jiraTicket context = Some ticket →
  length answers = length (ConversationContext.questionsAsked context) →
  (1 ≤ length answers)%nat →
  (∀ n, (n < length answers)%nat →
     generation_calls (log (submit (take n answers) w)) =
       generation_calls (log w) ∧
     ∃ context',
       contexts (submit (take n answers) w) !! contextKey = Some context' ∧
       ConversationContext.stage context' = asking_questions ∧
       size (ConversationContext.userAnswers context') = n) ∧
  generation_calls (log (submit answers w)) = S (generation_calls (log w)) ∧
  (∀ context',
     contexts (submit answers w) !! contextKey = Some context' →
     ConversationContext.stage context' = review ∧
     size (ConversationContext.userAnswers context') = length answers) ∧
  submit (answers ++ extra) w = submit answers w ∧
  (∀ chat' w0 answer,
     (∀ context0, contexts w0 !! contextKey = Some context0 →
                  ConversationContext.stage context0 ≠ asking_questions) →
     Workflow.handleAnswer env chat' channel threadTs userId answer w0 = (Ok tt, w0)).
Proof.
  intros contextKey submit Hchat Hc Hstage Hempty Ht Hlen Hpos.
  assert (Hsubmit : ∀ l w', submit l w' = submitAnswers env channel threadTs userId l w').
  { intros l w'. unfold submit, submitAnswers_over, submitAnswers.
    by apply run_ops_delivers. }
  destruct (delivered_answers_generate_once env channel threadTs userId w context
              ticket answers extra Hc Hstage Hempty Ht Hlen Hpos)
    as (Hfew & Hgen & Hreview & Hextra & _).
  split; [|split; [|split; [|split]]].
  - intros n Hn. rewrite Hsubmit. by apply Hfew.
  - by rewrite Hsubmit.
  - intros context'. rewrite Hsubmit. by apply Hreview.
  - by rewrite !Hsubmit.
  - intros chat' w0 answer Hw0. unfold contextKey in Hw0.
    clear -Hw0. unfold Workflow.handleAnswer. mstep.
    destruct (contexts w0 !! _) as [context0|] eqn:Hc0; [|done].
    destruct (decide _) as [|Hs]; [done|]. destruct Hs. by apply Hw0.
Qed.

End Once.

(** ** Instances of the further theorems *)

Section Instances.
Import Sample KBAGeneratorWorkflow SlackApp.

Lemma escapeHTML_inj_witness :
  ConfluenceService.escapeHTML "a<b" = ConfluenceService.escapeHTML "a<b" ∧
  "a<b" = "a<b".
Proof.
  split; [reflexivity|].
  apply (escapeHTML_inj "a<b" "a<b"). reflexivity.
Defined.

Lemma extractTicketKey_of_key_witness :
  JiraService.extractTicketKey ("TECH-456" +:+ " drops the VPN") = Some "TECH-456".
Proof.
  apply (extractTicketKey_of_key "TECH-456" " drops the VPN"); [|reflexivity].
  exists (list_ascii_of_string "TECH"), (list_ascii_of_string "456").
  split; [reflexivity|]. split; [discriminate|]. split; [discriminate|].
  split; repeat constructor.
Defined.

Lemma extractTicketKey_after_stop_witness :
  JiraService.extractTicketKey ("TECH-" +:+ String " " "456") =
  JiraService.extractTicketKey "456".
Proof.
  apply (extractTicketKey_after_stop "TECH-" " " "456"); reflexivity.
Defined.

Lemma browse_url_round_trip_witness :
  isValidJiraUrl (env_ok []) "https://host/browse/TECH-456" = true ∧
  JiraService.extractTicketKey "https://host/browse/TECH-456" = Some "TECH-456".
Proof.
  apply (browse_url_round_trip (env_ok []) "TECH-456"); [|reflexivity].
  exists (list_ascii_of_string "TECH"), (list_ascii_of_string "456").
  split; [reflexivity|]. split; [discriminate|]. split; [discriminate|].
  split; repeat constructor.
Defined.

Lemma operations_touch_their_thread_only_witness :
  contexts (exec (run_op (env_ok []) (OpCancel "C2-7.5")) (started [])) !! "C1-100.1" =
  contexts (started []) !! "C1-100.1".
Proof.
  apply (operations_touch_their_thread_only (env_ok []) (OpCancel "C2-7.5")
           (started []) "C1-100.1").
  cbn [op_key]. discriminate.
Defined.

Lemma answers_reach_generation_in_order_witness :
  ∃ userAnswers,
    GenerateKBAContent ticket userAnswers ∈
      log (submitAnswers (env_ok ["Q1"; "Q2"]) "C1" "100.1" "U1"
             ["mac only"; "since Monday"] (started ["Q1"; "Q2"])) ∧
    size userAnswers = 2%nat ∧
    ∀ i answer, ["mac only"; "since Monday"] !! i = Some answer →
                userAnswers !! ("answer_" +:+ pretty (S i)) = Some answer.
Proof.
  apply (answers_reach_generation_in_order (env_ok ["Q1"; "Q2"]) "C1" "100.1" "U1"
           (started ["Q1"; "Q2"]) (asking "C1" "100.1" "U1" ticket ["Q1"; "Q2"])
           ticket ["mac only"; "since Monday"]);
    [by vm_compute | reflexivity | reflexivity | reflexivity | reflexivity
    | simpl; lia].
Defined.

Lemma feedback_regenerates_witness :
  generation_calls
    (log (exec (handleAnswer (env_ok []) "C1" "100.1" "U1" "Please shorten step 2")
               (exec (requestChanges "C1-100.1") (started [])))) =
  S (generation_calls (log (started []))).
Proof.
  destruct (feedback_regenerates (env_ok []) "C1" "100.1" "U1"
              "Please shorten step 2" (started []) review_context ticket)
    as (_ & Hcalls & _);
    [by vm_compute | by vm_compute | simpl; lia |].
  exact Hcalls.
Defined.

Lemma approval_repeats_publication_witness :
  contexts (exec (approveAndPublish (env_ok []) "C1-100.1" "U2")
              (exec (approveAndPublish (env_ok []) "C1-100.1" "U1") (started []))) =
  contexts (exec (approveAndPublish (env_ok []) "C1-100.1" "U1") (started [])).
Proof.
  destruct (approval_repeats_publication (env_ok []) "C1-100.1" "U1" "U2"
              (started []) review_context review_draft ticket "4711" "4711")
    as (_ & _ & Hsame & _);
    [by vm_compute | by vm_compute | by vm_compute | reflexivity | reflexivity |].
  exact Hsame.
Defined.

Lemma message_in_asking_thread_is_answer_witness :
  onMessage (env_ok ["Q1"; "Q2"])
    (MessageEvent.mk None (Some "as in TECH-457") "C1" "100.2" (Some "100.1") "U1")
    (started ["Q1"; "Q2"], []) =
  (Ok tt,
   (exec (handleAnswer (env_ok ["Q1"; "Q2"]) "C1" "100.1" "U1" "as in TECH-457")
         (started ["Q1"; "Q2"]),
    [])).
Proof.
  apply (message_in_asking_thread_is_answer (env_ok ["Q1"; "Q2"])
           (MessageEvent.mk None (Some "as in TECH-457") "C1" "100.2"
                            (Some "100.1") "U1")
           "as in TECH-457" (started ["Q1"; "Q2"]) []
           (asking "C1" "100.1" "U1" ticket ["Q1"; "Q2"]));
    [reflexivity | reflexivity | discriminate | by vm_compute | reflexivity].
Defined.

Lemma message_is_dropped_witness :
  onMessage (env_ok [])
    (MessageEvent.mk None (Some "and TECH-457 please") "C1" "100.2" (Some "100.1") "U1")
    (started [], []) =
  (Ok tt, (started [], [])).
Proof.
  apply (message_is_dropped (env_ok [])
           (MessageEvent.mk None (Some "and TECH-457 please") "C1" "100.2"
                            (Some "100.1") "U1")
           (started []) []).
  vm_compute. discriminate.
Defined.

Lemma url_without_key_is_greeted_then_refused_witness :
  onMessage (env_ok [])
    (MessageEvent.mk None (Some "https://host/browse/tech-456") "C1" "100.1" None "U1")
    (empty_world, []) =
  (Ok tt,
   ({| contexts := ∅;
       log := [PostMessage "C1" "100.1" MsgNoTicketKey;
               PostMessage "C1" "100.1" MsgAnalyzing] |},
    [Say "100.1" (greeting "U1")])).
Proof.
  apply (url_without_key_is_greeted_then_refused (env_ok [])
           (MessageEvent.mk None (Some "https://host/browse/tech-456") "C1" "100.1"
                            None "U1")
           "https://host/browse/tech-456" empty_world []);
    reflexivity.
Defined.

Lemma mention_restarts_conversation_witness :
  contexts
    (onAppMention (env_ok ["Q1"])
       (MentionEvent.mk (Some "<@B1> TECH-456") "C1" "100.7" (Some "100.1") "U2")
       (started [], [])).2.1 !! "C1-100.1" =
  Some (asking "C1" "100.1" "U2" ticket ["Q1"]).
Proof.
  destruct (mention_restarts_conversation (env_ok ["Q1"])
              (MentionEvent.mk (Some "<@B1> TECH-456") "C1" "100.7" (Some "100.1") "U2")
              "<@B1> TECH-456" (started []) [] "TECH-456" ticket ["Q1"])
    as (_ & Hc & _);
    [reflexivity | reflexivity | reflexivity | reflexivity | discriminate |].
  exact Hc.
Defined.

Lemma stale_button_only_updates_message_witness :
  onCancel (click "C1-100.1" "U1" "C1" "100.5") (empty_world, []) =
  (Ok tt,
   (empty_world,
    [ChatUpdate "C1" "100.5" "KBA generation cancelled" ":x: KBA generation cancelled";
     Ack])).
Proof.
  destruct (stale_button_only_updates_message (env_ok []) "C1-100.1" "U1" "C1" "100.5"
              empty_world [])
    as (_ & _ & Hcancel); [discriminate | reflexivity |].
  exact Hcancel.
Defined.

Lemma answers_trigger_generation_once_witness :
  generation_calls
    (log (submitAnswers_over (env_ok ["Q1"; "Q2"]) delivering "C1" "100.1" "U1"
            ["mac only"; "since Monday"] (started ["Q1"; "Q2"]))) = 1%nat ∧
  submitAnswers_over (env_ok ["Q1"; "Q2"]) delivering "C1" "100.1" "U1"
    (["mac only"; "since Monday"] ++ ["thanks"]) (started ["Q1"; "Q2"]) =
  submitAnswers_over (env_ok ["Q1"; "Q2"]) delivering "C1" "100.1" "U1"
    ["mac only"; "since Monday"] (started ["Q1"; "Q2"]).
Proof.
  destruct (answers_trigger_generation_once (env_ok ["Q1"; "Q2"]) delivering
              "C1" "100.1" "U1" (started ["Q1"; "Q2"])
              (asking "C1" "100.1" "U1" ticket ["Q1"; "Q2"]) ticket
              ["mac only"; "since Monday"] ["thanks"])
    as (_ & Hgen & _ & Hextra & _);
    [intros ? ? ? ?; reflexivity | by vm_compute | reflexivity | reflexivity
    | reflexivity | reflexivity | simpl; lia |].
  split; [exact Hgen | exact Hextra].
Defined.

Lemma answers_exceed_by_change_requests_witness :
  (size (ConversationContext.userAnswers reopened_context) ≤
   length (ConversationContext.questionsAsked reopened_context) +
   (change_requests "C1-100.1" two_change_requests - 1))%nat.
Proof.
  apply (answers_exceed_by_change_requests (env_ok ["Q1"]) delivering
           two_change_requests "C1-100.1" reopened_context);
    [intros ? ? ? ?; reflexivity | by vm_compute | reflexivity].
Defined.

Lemma rejected_report_leaves_context_witness :
  Workflow.startWorkflow env_no_questions (rejecting [4]) "C1" "100.1" "U1"
    "https://host/browse/TECH-456" empty_world =
  (Err "An API error occurred: ratelimited",
   {| contexts :=
        <["C1-100.1" :=
            ConversationContext.mk "100.1" "C1" "U1" (Some ticket) None
                                   analyzing [] ∅]> ∅;
      log := [ PostMessage "C1" "100.1" (MsgStartError "429 Too Many Requests");
               GenerateClarifyingQuestions ticket;
               PostMessage "C1" "100.1" (MsgTicketFound ticket);
               GetTicket "TECH-456";
               PostMessage "C1" "100.1" MsgAnalyzing ] |}).
Proof.
  apply (rejected_report_leaves_context env_no_questions (rejecting [4])
           "C1" "100.1" "U1" "https://host/browse/TECH-456" empty_world
           "TECH-456" ticket "429 Too Many Requests"); reflexivity.
Defined.

Lemma reachable_contexts_at_rest_witness :
  kept "C1-100.1"
       (ConversationContext.mk "100.1" "C1" "U1" (Some ticket) None analyzing [] ∅).
Proof.
  apply (reachable_contexts_at_rest env_no_questions (rejecting [4])
           [OpStart "C1" "100.1" "U1" "https://host/browse/TECH-456"]
           "C1-100.1").
  by vm_compute.
Defined.

End Instances.
